(** * machine-controller: the provider lifecycle contract

  A shallow embedding of the Azure provider plugin
  ([Create], [Cleanup], [Get], [MigrateUID], [AddDefaults], [Validate],
  the status, address, image and disk helpers), of the helpers of the
  user data ([GetServerAddressFromKubeconfig], [GetCACert],
  [DockerConfig]) and of the annotations and labels of the kubelet
  settings ([SetKubeletFlags], [GetKubeletFeatureGates], [SetOSLabel]
  and the like), together with the properties of the lifecycle
  contract they are expected to meet and further properties of the
  code.

  Go values are modelled as follows.
  - A function returning [(T, error)] whose [T] is [nil] whenever the
    error is not returns [Err T]; a function returning [error] alone
    returns [option error] ([None] is [nil]).
  - A pointer that may be [nil] is an [option]; a run-time panic is an
    outcome of its own.
  - A Go map is a [gmap]; a map that can be [nil] is an [option] of one.
  - Remote calls, and the calls into files of the provider package that
    talk to the remote service, are operations of an interaction type
    [Prog]; the remote service answers them through a [Handler], about
    which the theorems assume nothing. *)

From stdpp Require Import base option list strings gmap fin_maps.
From Stdlib Require Import ZArith Lia Ascii.

Local Open Scope string_scope.
Local Open Scope list_scope.

(** ** Errors *)

Module common.

(** [type MachineStatusError string] and its constants (consts.go). *)
Inductive MachineStatusError : Type :=
| InvalidConfigurationMachineError
| UnsupportedChangeMachineError
| InsufficientResourcesMachineError
| CreateMachineError
| UpdateMachineError
| DeleteMachineError
| JoinClusterTimeoutMachineError.

Definition MachineStatusError_string (r : MachineStatusError) : string :=
  match r with
  | InvalidConfigurationMachineError => "InvalidConfiguration"
  | UnsupportedChangeMachineError => "UnsupportedChange"
  | InsufficientResourcesMachineError => "InsufficientResources"
  | CreateMachineError => "CreateError"
  | UpdateMachineError => "UpdateError"
  | DeleteMachineError => "DeleteError"
  | JoinClusterTimeoutMachineError => "JoinClusterTimeoutError"
  end.

End common.

Module cloudprovidererrors.

(** The values of Go's [error] that the provider handles.

    [ErrInstanceNotFound] is the sentinel the provider compares with by
    [==]; [TerminalError r fmt cause] is the struct with [Reason] r and
    the [Message] that [fmt.Sprintf] makes from the format text and the
    cause; [errors_New text] is a fresh error with that text (also a
    [fmt.Errorf] whose arguments are no errors); [Errorf format cause]
    is a fresh error made by [fmt.Errorf] from the format text,
    printing [cause] with [%v] (the cause is mentioned, not wrapped: the
    result never compares equal to the sentinel; the other arguments of
    the format, names and indices, are left out); [Remote msg] is an
    error made by the remote service or its SDK. *)
Inductive error : Type :=
| ErrInstanceNotFound
| TerminalError (Reason : common.MachineStatusError) (Message : string) (cause : error)
| errors_New (text : string)
| Errorf (format : string) (cause : error)
| Remote (msg : string).

(** [err == cloudprovidererrors.ErrInstanceNotFound] *)
Definition is_ErrInstanceNotFound (e : error) : bool :=
  match e with
  | ErrInstanceNotFound => true
  | _ => false
  end.

Definition is_TerminalError (e : error) : option common.MachineStatusError :=
  match e with
  | TerminalError r _ _ => Some r
  | _ => None
  end.

End cloudprovidererrors.
Export cloudprovidererrors.

(** [(T, error)] with [T] nil on error. *)
Inductive Err (A : Type) : Type :=
| Ok (a : A)
| Error (e : error).
Arguments Ok {A} a.
Arguments Error {A} e.

Definition is_Ok {A} (r : Err A) : bool :=
match r with Ok _ => true | Error _ => false end.

Definition Err_bind {A B} (r : Err A) (k : A -> Err B) : Err B :=
match r with
| Ok a => k a
| Error e => Error e
end.

(** How a call ends: it returns, or it panics at run time. *)
Inductive Outcome (A : Type) : Type :=
| Returned (a : A)
| Panicked (msg : string).
Arguments Returned {A} a.
Arguments Panicked {A} msg.

(** ** [strings.Replace] *)

Module strings.

(** [strip_prefix p s] is [Some rest] when [s = p ++ rest]. *)
Fixpoint strip_prefix (p s : string) : option string :=
  match p, s with
  | EmptyString, _ => Some s
  | String a p', String b s' =>
      if Ascii.eqb a b then strip_prefix p' s' else None
  | String _ _, EmptyString => None
  end.

(** [replace_from old new skip s]: the scan of [strings.Replace] with a
    negative count over the rest [s] of the input, the next [skip]
    bytes of which belong to a match that was already replaced.  The
    scan goes left to right and matches do not overlap. *)
Fixpoint replace_from (old new : string) (skip : nat) (s : string) : string :=
  match s with
  | EmptyString => EmptyString
  | String c s' =>
      match skip with
      | S k => replace_from old new k s'
      | O =>
          match strip_prefix old s with
          | Some _ => new +:+ replace_from old new (String.length old - 1) s'
          | None => String c (replace_from old new 0 s')
          end
      end
  end.

(** [strings.Replace(s, old, new, -1)] for a non-empty [old] (for an
    empty [old] Go inserts [new] around every rune, a case the
    callers here never reach: [old] is a literal). *)
Definition ReplaceAll (s old new : string) : string :=
  replace_from old new 0 s.

(** [strings.Split(s, sep)] for a separator [sep] of one byte: the
    pieces between the separators, never an empty list. *)
Fixpoint Split (s : string) (sep : Ascii.ascii) : list string :=
  match s with
  | EmptyString => [EmptyString]
  | String c s' =>
      if Ascii.eqb c sep then EmptyString :: Split s' sep
      else match Split s' sep with
           | piece :: pieces => String c piece :: pieces
           | [] => [String c EmptyString]
           end
  end.

(** [strings.HasPrefix(s, prefix)] *)
Definition HasPrefix (s prefix : string) : bool :=
  match strip_prefix prefix s with
  | Some _ => true
  | None => false
  end.

(** [cut s sep]: what is before and what is behind the first [sep] in
    [s], if there is one. *)
Fixpoint cut (s : string) (sep : Ascii.ascii) : option (string * string) :=
  match s with
  | EmptyString => None
  | String c s' =>
      if Ascii.eqb c sep then Some (EmptyString, s')
      else match cut s' sep with
           | Some (before, behind) => Some (String c before, behind)
           | None => None
           end
  end.

(** [strings.SplitN(s, sep, 2)] for a separator of one byte: [s] alone
    when it holds no separator, and otherwise what is before the first
    separator and all that is behind it. *)
Definition SplitN_2 (s : string) (sep : Ascii.ascii) : list string :=
  match cut s sep with
  | Some (before, behind) => [before; behind]
  | None => [s]
  end.

(** Whether [old] occurs in [s]. *)
Fixpoint Contains (s old : string) : bool :=
  match strip_prefix old s with
  | Some _ => true
  | None =>
      match s with
      | EmptyString => false
      | String _ s' => Contains s' old
      end
  end.

(** The bytes of a string are ASCII letters, digits and signs: none is
    above 127. *)
Fixpoint isASCII (s : string) : bool :=
  match s with
  | EmptyString => true
  | String c s' => Nat.ltb (Ascii.nat_of_ascii c) 128 && isASCII s'
  end.

(** A byte with an upper-case ASCII letter turned into the lower-case
    one. *)
Definition lower_byte (c : Ascii.ascii) : Ascii.ascii :=
  let n := Ascii.nat_of_ascii c in
  if Nat.leb 65 n && Nat.leb n 90 then Ascii.ascii_of_nat (n + 32) else c.

(** What [strings.ToLower] makes of a string of ASCII bytes. *)
Fixpoint lower_ascii (s : string) : string :=
  match s with
  | EmptyString => EmptyString
  | String c s' => String (lower_byte c) (lower_ascii s')
  end.

(** The bytes of a string are decimal digits. *)
Fixpoint decimal (s : string) : bool :=
  match s with
  | EmptyString => true
  | String c s' =>
      Nat.leb 48 (Ascii.nat_of_ascii c) && Nat.leb (Ascii.nat_of_ascii c) 57 && decimal s'
  end.

(** [strings.Join(pieces, sep)] *)
Fixpoint Join (pieces : list string) (sep : string) : string :=
  match pieces with
  | [] => EmptyString
  | piece :: pieces' =>
      match pieces' with
      | [] => piece
      | _ :: _ => piece +:+ sep +:+ Join pieces' sep
      end
  end.

(** [r] is [s] with every occurrence of [old] removed, in these words:
    [s] is made of pieces that hold no [old], with an [old] between
    each piece and the next, and [r] is the pieces one behind the
    other.  This is what is asked of the result, stated without the
    scan of [strings.Replace]. *)
Definition occurrences_removed (old s r : string) : Prop :=
  exists pieces,
    s = Join pieces old
    /\ Forall (fun piece => Contains piece old = false) pieces
    /\ r = Join pieces EmptyString.

End strings.

(** ** [pkg/userdata/helper] *)

Module helper.

(** [clientcmdapi.Cluster], the fields read here. *)
Record Cluster : Type := {
  Server : string;
  CertificateAuthorityData : string;
}.

(** [clientcmdapi.Config].  [Clusters] is a [map[string]*Cluster]: an
    entry that is a nil pointer is [None]. *)
Record Config : Type := {
  Clusters : gmap string (option Cluster);
}.

(** The panic of Go's run time when a nil pointer is dereferenced. *)
Definition nil_dereference : string := "invalid memory address or nil pointer dereference".

(** The body of the function for one iteration order [order] of
    [range kubeconfig.Clusters]: Go leaves the order of a map range
    unspecified, so the order is a parameter, and any permutation of
    the entries is a possible one.  [kubeconfig] is a pointer, [None]
    when it is nil: [kubeconfig.Clusters] dereferences it, and
    [clusterConfig.Server] the entry. *)
Definition GetServerAddressFromKubeconfig_ranging
    (kubeconfig : option Config) (order : list (string * option Cluster))
    : Outcome (Err string) :=
  match kubeconfig with
  | None => Panicked nil_dereference
  | Some kubeconfig =>
      if negb (Nat.eqb (size (Clusters kubeconfig)) 1) then
        Returned (Error (errors_New "kubeconfig does not contain exactly one cluster, can not extract server address"))
      else
        match order with
        | (_, clusterConfig) :: _ =>
            match clusterConfig with
            | None => Panicked nil_dereference
            | Some clusterConfig =>
                Returned (Ok (strings.ReplaceAll (Server clusterConfig) "https://" ""))
            end
        | [] => Returned (Error (errors_New "no server address found"))
        end
  end.

(** A possible iteration order of the map. *)
Definition range_order (kubeconfig : Config) (order : list (string * option Cluster)) : Prop :=
  order ≡ₚ map_to_list (Clusters kubeconfig).

(** The entries of the map in stdpp's own enumeration; a nil
    kubeconfig is not ranged over. *)
Definition entries (kubeconfig : option Config) : list (string * option Cluster) :=
  match kubeconfig with
  | None => []
  | Some kubeconfig => map_to_list (Clusters kubeconfig)
  end.

(** The function with stdpp's own enumeration of the map. *)
Definition GetServerAddressFromKubeconfig (kubeconfig : option Config)
    : Outcome (Err string) :=
  GetServerAddressFromKubeconfig_ranging kubeconfig (entries kubeconfig).

(** [GetCACert], for one iteration order of the range over the
    clusters.  [string(clusterConfig.CertificateAuthorityData)] is the
    bytes of the certificate as they are. *)
Definition GetCACert_ranging
    (kubeconfig : option Config) (order : list (string * option Cluster))
    : Outcome (Err string) :=
  match kubeconfig with
  | None => Panicked nil_dereference
  | Some kubeconfig =>
      if negb (Nat.eqb (size (Clusters kubeconfig)) 1) then
        Returned (Error (errors_New "kubeconfig does not contain exactly one cluster, can not extract server address"))
      else
        match order with
        | (_, clusterConfig) :: _ =>
            match clusterConfig with
            | None => Panicked nil_dereference
            | Some clusterConfig => Returned (Ok (CertificateAuthorityData clusterConfig))
            end
        | [] => Returned (Error (errors_New "no CACert found"))
        end
  end.

Definition GetCACert (kubeconfig : option Config) : Outcome (Err string) :=
  GetCACert_ranging kubeconfig (entries kubeconfig).

Definition DefaultDockerContainerLogMaxFiles : string := "5".
Definition DefaultDockerContainerLogMaxSize : string := "100m".

(** [dockerConfig], the value [DockerConfig] hands to [json.Marshal].
    A slice that may be nil is an [option]. *)
Record dockerConfig : Type := {
  ExecOpts : option (list string);
  StorageDriver : string;
  StorageOpts : option (list string);
  LogDriver : string;
  LogOpts : gmap string string;
  InsecureRegistries : option (list string);
  RegistryMirrors : option (list string);
}.

(** [DockerConfig].  [strings.ToLower] and [json.Marshal] belong to
    Go's library and are arguments here: [ToLower] is used on the size
    of the logs, [Marshal] on the configuration that was built. *)
Definition DockerConfig (ToLower : string -> string) (Marshal : dockerConfig -> Err string)
    (insecureRegistries registryMirrors : option (list string))
    (logMaxFiles logMaxSize : string) : Err string :=
  let logMaxSize :=
    if Nat.ltb 0 (String.length logMaxSize) then
      let logMaxSize := ToLower logMaxSize in
      let logMaxSize := strings.ReplaceAll logMaxSize "ki" "k" in
      let logMaxSize := strings.ReplaceAll logMaxSize "mi" "m" in
      strings.ReplaceAll logMaxSize "gi" "g"
    else DefaultDockerContainerLogMaxSize in
  let logMaxFiles :=
    if Nat.eqb (String.length logMaxFiles) 0 then DefaultDockerContainerLogMaxFiles
    else logMaxFiles in
  let cfg :=
    {| ExecOpts := Some ["native.cgroupdriver=systemd"];
       StorageDriver := "overlay2";
       StorageOpts := None;
       LogDriver := "json-file";
       LogOpts := <["max-file" := logMaxFiles]> (<["max-size" := logMaxSize]> ∅);
       InsecureRegistries := insecureRegistries;
       RegistryMirrors := registryMirrors |} in
  Marshal cfg.

End helper.

(** ** The shared vocabulary of the contract *)

Module instance.

(** [instance.Status]: the closed vocabulary every provider maps its
    native states onto. *)
Inductive Status : Type :=
| StatusUnknown
| StatusCreating
| StatusRunning
| StatusDeleting.

End instance.

Module v1.

(** [v1.NodeAddressType], the two classes the provider assigns. *)
Inductive NodeAddressType : Type :=
| NodeInternalIP
| NodeExternalIP.

End v1.

Module util.

(** [util.IPFamily]: a string type with four named values. *)
Inductive IPFamily : Type :=
| Unspecified
| IPv4
| IPv6
| DualStack
| OtherFamily (name : string).

Definition is_DualStack (f : IPFamily) : bool :=
  match f with DualStack => true | _ => false end.

End util.

(** ** Configuration values and their resolution *)

Module providerconfigtypes.

(** A reference to a key of a secret. *)
Record SecretKeyRef : Type := {
  Namespace : string;
  SecretName : string;
  Key : string;
}.

(** [ConfigVarString]: a literal and a secret reference, each of which
    may be absent (the literal is absent when it is the empty string). *)
Record ConfigVarString : Type := {
  Value : string;
  SecretKeyRef_of : option SecretKeyRef;
}.

(** [ConfigVarBool]: a boolean literal that may be absent, and a secret
    reference. *)
Record ConfigVarBool : Type := {
  BoolValue : option bool;
  BoolSecretKeyRef_of : option SecretKeyRef;
}.

(** [type OperatingSystem string]; the names are the ones the machine
    deployments of the repository use ([operatingSystem: "ubuntu"]). *)
Definition OperatingSystem : Type := string.
Definition OperatingSystemCentOS : OperatingSystem := "centos".
Definition OperatingSystemUbuntu : OperatingSystem := "ubuntu".
Definition OperatingSystemRHEL : OperatingSystem := "rhel".
Definition OperatingSystemFlatcar : OperatingSystem := "flatcar".
Definition OperatingSystemRockyLinux : OperatingSystem := "rockylinux".

(** [NetworkConfig] with what [GetIPFamily] reads from it. *)
Record NetworkConfig : Type := {
  GetIPFamily : util.IPFamily;
}.

(** [providerconfigtypes.Config], the decoded provider specification of
    a Machine.  [CloudProviderSpec] is the provider's own raw JSON; the
    JSON is identified with what the provider's strict decoder
    ([azuretypes.GetConfig]) makes of it, an error included.
    [OperatingSystemSpec_Raw] is [None] when the raw bytes are nil. *)
Record Config (RawConfig : Type) : Type := {
  OperatingSystem_of : OperatingSystem;
  OperatingSystemSpec_Raw : option string;
  CloudProviderSpec : Err RawConfig;
  Network : NetworkConfig;
}.
Arguments OperatingSystem_of {RawConfig} _.
Arguments OperatingSystemSpec_Raw {RawConfig} _.
Arguments CloudProviderSpec {RawConfig} _.
Arguments Network {RawConfig} _.

End providerconfigtypes.

Module providerconfig.
Import providerconfigtypes.

#[global] Instance SecretKeyRef_eq_dec : EqDecision SecretKeyRef.
Proof. solve_decision. Defined.

(** What a [ConfigVarResolver] can see: the secrets of the cluster (a
    lookup that finds nothing fails) and the environment of the
    process. *)
Record ConfigVarResolver : Type := {
  secrets : SecretKeyRef -> option string;
  environ : gmap string string;
}.

(** [os.Getenv]: the empty string for an unset variable. *)
Definition Getenv (cvr : ConfigVarResolver) (name : string) : string :=
  default "" (environ cvr !! name).

Definition lookup_secret (cvr : ConfigVarResolver) (ref : SecretKeyRef) : Err string :=
  match secrets cvr ref with
  | Some v => Ok v
  | None => Error (errors_New "error retrieving secret")
  end.

(** Modelled from the spec: [ConfigVarResolver.GetConfigVarStringValue]
    is declared in [pkg/providerconfig], which is not among the sources;
    the precedence is the one of section 4.3: the literal value if
    present, otherwise the secret lookup.  A field with neither resolves
    to the empty string. *)
Definition GetConfigVarStringValue (cvr : ConfigVarResolver)
    (configVar : ConfigVarString) : Err string :=
  if negb (String.eqb (Value configVar) "") then Ok (Value configVar)
  else match SecretKeyRef_of configVar with
       | Some ref => lookup_secret cvr ref
       | None => Ok ""
       end.

(** Whether a field is set at all: it has a literal or refers to a
    secret. *)
Definition is_set (configVar : ConfigVarString) : bool :=
  negb (String.eqb (Value configVar) "") || bool_decide (is_Some (SecretKeyRef_of configVar)).

(** Modelled from the spec: [ConfigVarResolver.GetConfigVarStringValueOrEnv]
    is declared in [pkg/providerconfig], which is not among the sources;
    the environment variable [envVarName] is consulted only when the
    field is unset (sections 4.3 and 6). *)
Definition GetConfigVarStringValueOrEnv (cvr : ConfigVarResolver)
    (configVar : ConfigVarString) (envVarName : string) : Err string :=
  if is_set configVar then GetConfigVarStringValue cvr configVar
  else Ok (Getenv cvr envVarName).

(** [strconv.ParseBool] *)
Definition ParseBool (s : string) : Err bool :=
  if bool_decide (s ∈ ["1"; "t"; "T"; "TRUE"; "true"; "True"]) then Ok true
  else if bool_decide (s ∈ ["0"; "f"; "F"; "FALSE"; "false"; "False"]) then Ok false
  else Error (errors_New "strconv.ParseBool: invalid syntax").

(** Modelled from the spec: [ConfigVarResolver.GetConfigVarBoolValue] is
    declared in [pkg/providerconfig], which is not among the sources;
    the same precedence for a boolean field.  The second component
    tells whether the field was set. *)
Definition GetConfigVarBoolValue (cvr : ConfigVarResolver)
    (configVar : ConfigVarBool) : Err (bool * bool) :=
  match BoolValue configVar with
  | Some b => Ok (b, true)
  | None =>
      match BoolSecretKeyRef_of configVar with
      | Some ref =>
          Err_bind (lookup_secret cvr ref) (fun s =>
          Err_bind (ParseBool s) (fun b => Ok (b, true)))
      | None => Ok (false, false)
      end
  end.

(** The precedence of section 4.3 as a relation between a field, the
    name of its environment fallback if it has one, and the result of
    its resolution: the literal if present; otherwise what the lookup of
    the secret gives; the environment (or, without a fallback, the empty
    string) only for a field that is unset. *)
Definition by_precedence (cvr : ConfigVarResolver) (configVar : ConfigVarString)
    (fallback : option string) (r : Err string) : Prop :=
  (Value configVar <> "" -> r = Ok (Value configVar))
  /\ (Value configVar = "" ->
      forall ref, SecretKeyRef_of configVar = Some ref -> r = lookup_secret cvr ref)
  /\ (Value configVar = "" -> SecretKeyRef_of configVar = None ->
      r = Ok (match fallback with
              | Some envVarName => Getenv cvr envVarName
              | None => ""
              end)).

(** The same precedence for a boolean field: the literal if present;
    otherwise what the lookup of the secret gives, read as a boolean;
    [false] for a field that is unset. *)
Definition bool_by_precedence (cvr : ConfigVarResolver) (configVar : ConfigVarBool)
    (r : Err bool) : Prop :=
  (forall b, BoolValue configVar = Some b -> r = Ok b)
  /\ (BoolValue configVar = None ->
      forall ref, BoolSecretKeyRef_of configVar = Some ref ->
        r = Err_bind (lookup_secret cvr ref) ParseBool)
  /\ (BoolValue configVar = None -> BoolSecretKeyRef_of configVar = None -> r = Ok false).

End providerconfig.

(** ** The provider's raw configuration *)

Module azuretypes.
Import providerconfigtypes.

Record ImagePlan : Type := {
  ImagePlan_Name : string;
  ImagePlan_Publisher : string;
  ImagePlan_Product : string;
}.

Record ImageReference : Type := {
  ImageReference_Publisher : string;
  ImageReference_Offer : string;
  ImageReference_Sku : string;
  ImageReference_Version : string;
}.

(** [azuretypes.RawConfig], with the fields [getConfig] reads. *)
Record RawConfig : Type := {
  SubscriptionID : ConfigVarString;
  TenantID : ConfigVarString;
  ClientID : ConfigVarString;
  ClientSecret : ConfigVarString;
  Location : ConfigVarString;
  ResourceGroup : ConfigVarString;
  VNetResourceGroup : ConfigVarString;
  VMSize : ConfigVarString;
  VNetName : ConfigVarString;
  SubnetName : ConfigVarString;
  LoadBalancerSku : ConfigVarString;
  RouteTableName : ConfigVarString;
  AvailabilitySet : ConfigVarString;
  AssignAvailabilitySet : option bool;
  SecurityGroupName : ConfigVarString;
  Zones : list string;
  ImagePlan_of : option ImagePlan;
  ImageReference_of : option ImageReference;
  ImageID : ConfigVarString;
  OSDiskSize : Z;
  OSDiskSKU : option string;
  DataDiskSize : Z;
  DataDiskSKU : option string;
  AssignPublicIP : ConfigVarBool;
  Tags : gmap string string;
}.

End azuretypes.

(** ** The Machine record and its finalizers *)

Module clusterv1alpha1.

(** [ProviderSpec.Value] is raw JSON, [None] when nil; the JSON is
    identified with what [providerconfigtypes.GetConfig] decodes it to,
    a decoding error included. *)
Record ProviderSpec : Type := {
  Value : option (Err (providerconfigtypes.Config azuretypes.RawConfig));
}.

Record MachineSpec : Type := {
  ProviderSpec_of : ProviderSpec;
}.

(** A Machine: identity, specification and the finalizer ledger. *)
Record Machine : Type := {
  Name : string;
  UID : string;
  Finalizers : list string;
  Spec : MachineSpec;
}.

Definition with_Finalizers (m : Machine) (fs : list string) : Machine :=
  {| Name := Name m; UID := UID m; Finalizers := fs; Spec := Spec m |}.

End clusterv1alpha1.

Module kuberneteshelper.
Import clusterv1alpha1.

(** Modelled from the spec: [kuberneteshelper.HasFinalizer] is declared
    in [pkg/kubernetes], which is not among the sources; a finalizer is
    a named marker on the Machine record, present or not. *)
Definition HasFinalizer (o : Machine) (name : string) : bool :=
  bool_decide (name ∈ Finalizers o).

(** Modelled from the spec: [kuberneteshelper.RemoveFinalizer] is
    declared in [pkg/kubernetes], which is not among the sources; it
    discharges the named marker and leaves the others. *)
Definition RemoveFinalizer (finalizers : list string) (toRemove : string) : list string :=
  filter (fun f => f ≠ toRemove) finalizers.

End kuberneteshelper.

(** ** The remote service's data *)

Module compute.

Record Plan : Type := {
  Plan_Name : option string;
  Plan_Publisher : option string;
  Plan_Product : option string;
}.

Record ImageReference : Type := {
  ImageReference_ID : option string;
  Publisher : option string;
  Offer : option string;
  Sku : option string;
  Version : option string;
}.

Definition StorageAccountTypes : Type := string.

Inductive DiskCreateOptionTypes : Type :=
| DiskCreateOptionTypesFromImage
| DiskCreateOptionTypesEmpty.

Record ManagedDiskParameters : Type := {
  StorageAccountType : StorageAccountTypes;
}.

Record OSDisk : Type := {
  OSDisk_DiskSizeGB : option Z;
  OSDisk_CreateOption : DiskCreateOptionTypes;
  OSDisk_ManagedDisk : option ManagedDiskParameters;
}.

Record DataDisk : Type := {
  Lun : option Z;
  DiskSizeGB : option Z;
  CreateOption : DiskCreateOptionTypes;
  ManagedDisk : option ManagedDiskParameters;
}.

Record StorageProfile : Type := {
  ImageReference_of : option ImageReference;
  OsDisk : option OSDisk;
  DataDisks : option (list DataDisk);
}.

Record NetworkInterfaceReference : Type := {
  NetworkInterfaceReference_ID : option string;
  Primary : option bool;
}.

Record NetworkProfile : Type := {
  NetworkInterfaces : option (list NetworkInterfaceReference);
}.

Record SSHPublicKey : Type := {
  Path : option string;
  KeyData : option string;
}.

(** [CustomData] holds the base64 encoding of the user data; the
    encoding is kept symbolic. *)
Inductive CustomData_t : Type :=
| Base64 (userdata : string).

Record OSProfile : Type := {
  AdminUsername : option string;
  ComputerName : option string;
  DisablePasswordAuthentication : option bool;
  PublicKeys : option (list SSHPublicKey);
  CustomData : option CustomData_t;
}.

Record VirtualMachineProperties : Type := {
  HardwareProfile_VMSize : option string;
  NetworkProfile_of : option NetworkProfile;
  OsProfile : option OSProfile;
  StorageProfile_of : option StorageProfile;
  AvailabilitySet : option string;
}.

Record VirtualMachine : Type := {
  ID : option string;
  Name : option string;
  Location : option string;
  Plan_of : option Plan;
  VirtualMachineProperties_of : option VirtualMachineProperties;
  Tags : option (gmap string (option string));
  Zones : option (list string);
}.

Record InstanceViewStatus : Type := {
  Code : option string;
}.

(** [compute.VirtualMachineInstanceView] *)
Record VirtualMachineInstanceView : Type := {
  Statuses : option (list InstanceViewStatus);
}.

(** [compute.Disk] *)
Record Disk : Type := {
  Disk_Name : option string;
  Disk_Tags : option (gmap string (option string));
}.

(** The result of [vmClient.ListAll]: the pages the iteration walks,
    each with the error, if any, that [Next] returns when leaving it.
    [NotDone] holds as long as a page is left. *)
Definition VirtualMachineListResultPage : Type :=
  list (list VirtualMachine * option error).

End compute.

Module network.

Inductive IPVersion : Type :=
| IPVersionIPv4
| IPVersionIPv6.

Inductive PublicIPAddressSkuName : Type :=
| PublicIPAddressSkuNameBasic
| PublicIPAddressSkuNameStandard.

Inductive IPAllocationMethod : Type :=
| IPAllocationMethodStatic
| IPAllocationMethodDynamic.

(** [network.PublicIPAddress]; [IPConfiguration] is read for being nil
    or not only. *)
Record PublicIPAddress : Type := {
  PublicIPAddress_ID : option string;
  IPConfiguration : option string;
  IPAddress : option string;
}.

Record InterfaceIPConfiguration : Type := {
  IPConfiguration_Name : option string;
  IPConfiguration_ID : option string;
  PrivateIPAddress : option string;
}.

(** [network.Interface] *)
Record Interface : Type := {
  Interface_ID : option string;
  IPConfigurations : option (list InterfaceIPConfiguration);
}.

End network.

(** ** The Azure provider: configuration *)

#[global] Instance Err_ret : MRet Err := fun A a => Ok a.
#[global] Instance Err_mbind : MBind Err := fun A B k r => Err_bind r k.

(** [if err != nil { return ..., fmt.Errorf(format, err) }] *)
Definition wrapping {A} (format : string) (r : Err A) : Err A :=
  match r with
  | Ok a => Ok a
  | Error e => Error (Errorf format e)
  end.

Module azure.
Import clusterv1alpha1.

Definition machineUIDTag : string := "Machine-UID".

Definition finalizerPublicIP : string := "kubermatic.io/cleanup-azure-public-ip".
Definition finalizerPublicIPv6 : string := "kubermatic.io/cleanup-azure-public-ipv6".
Definition finalizerNIC : string := "kubermatic.io/cleanup-azure-nic".
Definition finalizerDisks : string := "kubermatic.io/cleanup-azure-disks".
Definition finalizerVM : string := "kubermatic.io/cleanup-azure-vm".

Definition envClientID : string := "AZURE_CLIENT_ID".
Definition envClientSecret : string := "AZURE_CLIENT_SECRET".
Definition envTenantID : string := "AZURE_TENANT_ID".
Definition envSubscriptionID : string := "AZURE_SUBSCRIPTION_ID".

Record provider : Type := {
  configVarResolver : providerconfig.ConfigVarResolver;
}.

Record config : Type := {
  SubscriptionID : string;
  TenantID : string;
  ClientID : string;
  ClientSecret : string;
  Location : string;
  ResourceGroup : string;
  VNetResourceGroup : string;
  VMSize : string;
  VNetName : string;
  SubnetName : string;
  LoadBalancerSku : string;
  RouteTableName : string;
  AvailabilitySet : string;
  AssignAvailabilitySet : option bool;
  SecurityGroupName : string;
  ImageID : string;
  Zones : list string;
  ImagePlan : option compute.Plan;
  ImageReference : option compute.ImageReference;
  OSDiskSize : Z;
  OSDiskSKU : option compute.StorageAccountTypes;
  DataDiskSize : Z;
  DataDiskSKU : option compute.StorageAccountTypes;
  AssignPublicIP : bool;
  Tags : gmap string string;
}.

(** [azureVM], the provider's [instance.Instance]. *)
Record azureVM : Type := {
  vm : compute.VirtualMachine;
  ipAddresses : option (gmap string v1.NodeAddressType);
  status : instance.Status;
}.

Definition imageReferences : gmap string compute.ImageReference :=
  list_to_map [
    (providerconfigtypes.OperatingSystemCentOS,
      {| compute.ImageReference_ID := None;
         compute.Publisher := Some "OpenLogic"; compute.Offer := Some "CentOS";
         compute.Sku := Some "7_9"; compute.Version := Some "latest" |});
    (providerconfigtypes.OperatingSystemUbuntu,
      {| compute.ImageReference_ID := None;
         compute.Publisher := Some "Canonical";
         compute.Offer := Some "0001-com-ubuntu-server-focal";
         compute.Sku := Some "20_04-lts"; compute.Version := Some "latest" |});
    (providerconfigtypes.OperatingSystemRHEL,
      {| compute.ImageReference_ID := None;
         compute.Publisher := Some "RedHat"; compute.Offer := Some "rhel-byos";
         compute.Sku := Some "rhel-lvm83"; compute.Version := Some "8.3.20201109" |});
    (providerconfigtypes.OperatingSystemFlatcar,
      {| compute.ImageReference_ID := None;
         compute.Publisher := Some "kinvolk";
         compute.Offer := Some "flatcar-container-linux";
         compute.Sku := Some "stable"; compute.Version := Some "2905.2.5" |});
    (providerconfigtypes.OperatingSystemRockyLinux,
      {| compute.ImageReference_ID := None;
         compute.Publisher := Some "procomputers";
         compute.Offer := Some "rocky-linux-8-5";
         compute.Sku := Some "rocky-linux-8-5"; compute.Version := Some "8.5.20211118" |})
  ].

Definition osPlans : gmap string compute.Plan :=
  list_to_map [
    (providerconfigtypes.OperatingSystemFlatcar,
      {| compute.Plan_Name := Some "stable"; compute.Plan_Publisher := Some "kinvolk";
         compute.Plan_Product := Some "flatcar-container-linux" |});
    (providerconfigtypes.OperatingSystemRHEL,
      {| compute.Plan_Name := Some "rhel-lvm83"; compute.Plan_Publisher := Some "redhat";
         compute.Plan_Product := Some "rhel-byos" |});
    (providerconfigtypes.OperatingSystemRockyLinux,
      {| compute.Plan_Name := Some "rocky-linux-8-5";
         compute.Plan_Publisher := Some "procomputers";
         compute.Plan_Product := Some "rocky-linux-8-5" |})
  ].

Definition getOSImageReference (c : config) (os : providerconfigtypes.OperatingSystem)
    : Err compute.ImageReference :=
  if negb (String.eqb (ImageID c) "") then
    Ok {| compute.ImageReference_ID := Some (ImageID c);
          compute.Publisher := None; compute.Offer := None;
          compute.Sku := None; compute.Version := None |}
  else match ImageReference c with
       | Some r =>
           Ok {| compute.ImageReference_ID := None;
                 compute.Publisher := compute.Publisher r;
                 compute.Offer := compute.Offer r;
                 compute.Sku := compute.Sku r;
                 compute.Version := compute.Version r |}
       | None =>
           match imageReferences !! os with
           | Some ref => Ok ref
           | None => Error (errors_New "operating system %q not supported")
           end
       end.

Definition storageTypePtr (storageType : string) : option compute.StorageAccountTypes :=
  Some storageType.

(** [provider.getConfig].  The texts of the messages are the ones of
    the source without their quotation marks. *)
Definition getConfig (p : provider) (provSpec : ProviderSpec)
    : Err (config * providerconfigtypes.Config azuretypes.RawConfig) :=
  let cvr := configVarResolver p in
  match Value provSpec with
  | None => Error (errors_New "machine.spec.providerconfig.value is nil")
  | Some decoded =>
  pconfig ← decoded;
  match providerconfigtypes.OperatingSystemSpec_Raw pconfig with
  | None => Error (errors_New "operatingSystemSpec in the MachineDeployment cannot be empty")
  | Some _ =>
  rawCfg ← providerconfigtypes.CloudProviderSpec pconfig;
  c_SubscriptionID ← wrapping "failed to get the value of subscriptionID field, error = %v"
    (providerconfig.GetConfigVarStringValueOrEnv cvr (azuretypes.SubscriptionID rawCfg) envSubscriptionID);
  c_TenantID ← wrapping "failed to get the value of tenantID field, error = %v"
    (providerconfig.GetConfigVarStringValueOrEnv cvr (azuretypes.TenantID rawCfg) envTenantID);
  c_ClientID ← wrapping "failed to get the value of clientID field, error = %v"
    (providerconfig.GetConfigVarStringValueOrEnv cvr (azuretypes.ClientID rawCfg) envClientID);
  c_ClientSecret ← wrapping "failed to get the value of clientSecret field, error = %v"
    (providerconfig.GetConfigVarStringValueOrEnv cvr (azuretypes.ClientSecret rawCfg) envClientSecret);
  c_ResourceGroup ← wrapping "failed to get the value of resourceGroup field, error = %v"
    (providerconfig.GetConfigVarStringValue cvr (azuretypes.ResourceGroup rawCfg));
  c_VNetResourceGroup ← wrapping "failed to get the value of vnetResourceGroup field, error = %v"
    (providerconfig.GetConfigVarStringValue cvr (azuretypes.VNetResourceGroup rawCfg));
  let c_VNetResourceGroup :=
    if String.eqb c_VNetResourceGroup "" then c_ResourceGroup else c_VNetResourceGroup in
  c_Location ← wrapping "failed to get the value of location field, error = %v"
    (providerconfig.GetConfigVarStringValue cvr (azuretypes.Location rawCfg));
  c_VMSize ← wrapping "failed to get the value of vmSize field, error = %v"
    (providerconfig.GetConfigVarStringValue cvr (azuretypes.VMSize rawCfg));
  c_VNetName ← wrapping "failed to get the value of vnetName field, error = %v"
    (providerconfig.GetConfigVarStringValue cvr (azuretypes.VNetName rawCfg));
  c_SubnetName ← wrapping "failed to get the value of subnetName field, error = %v"
    (providerconfig.GetConfigVarStringValue cvr (azuretypes.SubnetName rawCfg));
  c_LoadBalancerSku ← wrapping "failed to get the value of loadBalancerSku field, error = %v"
    (providerconfig.GetConfigVarStringValue cvr (azuretypes.LoadBalancerSku rawCfg));
  c_RouteTableName ← wrapping "failed to get the value of routeTableName field, error = %v"
    (providerconfig.GetConfigVarStringValue cvr (azuretypes.RouteTableName rawCfg));
  c_AssignPublicIP ← wrapping "failed to get the value of assignPublicIP field, error = %v"
    (providerconfig.GetConfigVarBoolValue cvr (azuretypes.AssignPublicIP rawCfg));
  c_AvailabilitySet ← wrapping "failed to get the value of availabilitySet field, error = %v"
    (providerconfig.GetConfigVarStringValue cvr (azuretypes.AvailabilitySet rawCfg));
  c_SecurityGroupName ← wrapping "failed to get the value of securityGroupName field, error = %v"
    (providerconfig.GetConfigVarStringValue cvr (azuretypes.SecurityGroupName rawCfg));
  let c_OSDiskSKU :=
    match azuretypes.OSDiskSKU rawCfg with
    | Some sku => storageTypePtr sku
    | None => None
    end in
  let c_DataDiskSKU :=
    match azuretypes.DataDiskSKU rawCfg with
    | Some sku => storageTypePtr sku
    | None => None
    end in
  let c_ImagePlan :=
    match azuretypes.ImagePlan_of rawCfg with
    | Some plan =>
        if negb (String.eqb (azuretypes.ImagePlan_Name plan) "") then
          Some {| compute.Plan_Name := Some (azuretypes.ImagePlan_Name plan);
                  compute.Plan_Publisher := Some (azuretypes.ImagePlan_Publisher plan);
                  compute.Plan_Product := Some (azuretypes.ImagePlan_Product plan) |}
        else None
    | None => None
    end in
  let c_ImageReference :=
    match azuretypes.ImageReference_of rawCfg with
    | Some ref =>
        Some {| compute.ImageReference_ID := None;
                compute.Publisher := Some (azuretypes.ImageReference_Publisher ref);
                compute.Offer := Some (azuretypes.ImageReference_Offer ref);
                compute.Sku := Some (azuretypes.ImageReference_Sku ref);
                compute.Version := Some (azuretypes.ImageReference_Version ref) |}
    | None => None
    end in
  c_ImageID ← wrapping "failed to get image id: %v"
    (providerconfig.GetConfigVarStringValue cvr (azuretypes.ImageID rawCfg));
  Ok ({| SubscriptionID := c_SubscriptionID;
         TenantID := c_TenantID;
         ClientID := c_ClientID;
         ClientSecret := c_ClientSecret;
         Location := c_Location;
         ResourceGroup := c_ResourceGroup;
         VNetResourceGroup := c_VNetResourceGroup;
         VMSize := c_VMSize;
         VNetName := c_VNetName;
         SubnetName := c_SubnetName;
         LoadBalancerSku := c_LoadBalancerSku;
         RouteTableName := c_RouteTableName;
         AvailabilitySet := c_AvailabilitySet;
         AssignAvailabilitySet := azuretypes.AssignAvailabilitySet rawCfg;
         SecurityGroupName := c_SecurityGroupName;
         ImageID := c_ImageID;
         Zones := azuretypes.Zones rawCfg;
         ImagePlan := c_ImagePlan;
         ImageReference := c_ImageReference;
         OSDiskSize := azuretypes.OSDiskSize rawCfg;
         OSDiskSKU := c_OSDiskSKU;
         DataDiskSize := azuretypes.DataDiskSize rawCfg;
         DataDiskSKU := c_DataDiskSKU;
         AssignPublicIP := c_AssignPublicIP.1;
         Tags := azuretypes.Tags rawCfg |}, pconfig)
  end
  end.

(** *** The remote service

    [Op] lists the calls the provider makes outside itself: the client
    constructors, the calls of the SDK clients, and the functions of the
    provider package that wrap them and live in files that are not among
    the sources (they are opaque and fallible here: the handler decides
    what they return).  [OpVal o] is the type of the value [o] returns
    next to its error; a call that returns an error alone returns
    [unit]. *)
Inductive Op : Type :=
| getVMClient (c : config)
| getInterfacesClient (c : config)
| getIPClient (c : config)
| getIPConfigClient (c : config)
| getDisksClient (c : config)
| ssh_NewKey
| createOrUpdatePublicIPAddress (ipName : string) (ipVersion : network.IPVersion)
    (sku : network.PublicIPAddressSkuName) (ipAllocationMethod : network.IPAllocationMethod)
    (machineUID : string) (c : config)
| createOrUpdateNetworkInterface (ifName : string) (machineUID : string) (c : config)
    (publicIP publicIPv6 : option network.PublicIPAddress) (ipFamily : util.IPFamily)
| deleteVMsByMachineUID (c : config) (machineUID : string)
| deleteDisksByMachineUID (c : config) (machineUID : string)
| deleteInterfacesByMachineUID (c : config) (machineUID : string)
| deleteIPAddressesByMachineUID (c : config) (machineUID : string)
| getDisksByMachineUID (c : config) (machineUID : string)
| vmClient_ListAll
| vmClient_InstanceView (resourceGroup vmName : string)
| vmClient_CreateOrUpdate (resourceGroup vmName : string) (vmSpec : compute.VirtualMachine)
| vmFuture_WaitForCompletionRef
| vmFuture_Result
| vmClient_Get (resourceGroup vmName : string)
| ifClient_Get (resourceGroup ifaceName : string)
| ipClient_Get (resourceGroup addrName : string)
| ipConfigClient_Get (resourceGroup inetface ipconfigName : string)
| disksClient_CreateOrUpdate (resourceGroup diskName : string) (disk : compute.Disk)
| diskFuture_WaitForCompletionRef.

Definition OpVal (o : Op) : Type :=
  match o with
  | getVMClient _ | getInterfacesClient _ | getIPClient _
  | getIPConfigClient _ | getDisksClient _ => unit
  | ssh_NewKey => string
  | createOrUpdatePublicIPAddress _ _ _ _ _ _ => network.PublicIPAddress
  | createOrUpdateNetworkInterface _ _ _ _ _ _ => network.Interface
  | deleteVMsByMachineUID _ _ | deleteDisksByMachineUID _ _
  | deleteInterfacesByMachineUID _ _ | deleteIPAddressesByMachineUID _ _ => unit
  | getDisksByMachineUID _ _ => list compute.Disk
  | vmClient_ListAll => compute.VirtualMachineListResultPage
  | vmClient_InstanceView _ _ => compute.VirtualMachineInstanceView
  | vmClient_CreateOrUpdate _ _ _ => unit
  | vmFuture_WaitForCompletionRef => unit
  | vmFuture_Result => compute.VirtualMachine
  | vmClient_Get _ _ => compute.VirtualMachine
  | ifClient_Get _ _ => network.Interface
  | ipClient_Get _ _ => network.PublicIPAddress
  | ipConfigClient_Get _ _ _ => network.InterfaceIPConfiguration
  | disksClient_CreateOrUpdate _ _ _ => unit
  | diskFuture_WaitForCompletionRef => unit
  end.

(** *** Programs

    A provider operation is a tree of calls: it returns, panics, calls
    the remote service and goes on with the answer, or asks the record
    store to persist a change of the Machine ([data.Update(machine,
    modify)]) and goes on with the error or, when the store accepted
    the change, with the Machine as it is now. *)
Inductive Prog (A : Type) : Type :=
| Ret (a : A)
| Panic (msg : string)
| Call (o : Op) (k : Err (OpVal o) -> Prog A)
| Update (modify : Machine -> Machine) (k : Err Machine -> Prog A).
Arguments Ret {A} a.
Arguments Panic {A} msg.
Arguments Call {A} o k.
Arguments Update {A} modify k.

Fixpoint bind {A B} (p : Prog A) (f : A -> Prog B) : Prog B :=
  match p with
  | Ret a => f a
  | Panic msg => Panic msg
  | Call o k => Call o (fun r => bind (k r) f)
  | Update g k => Update g (fun r => bind (k r) f)
  end.

#[global] Instance Prog_ret : MRet Prog := fun A a => Ret a.
#[global] Instance Prog_mbind : MBind Prog := fun A B f p => bind p f.

Definition call (o : Op) : Prog (Err (OpVal o)) := Call o Ret.

(** Modelled from the spec: [data.Update] is a callback of
    [cloudprovidertypes.ProviderData], which is not among the sources.
    Section 6: it persists the change the callback makes transactionally
    against the record store; it can fail, and then nothing is
    persisted. *)
Definition data_Update (modify : Machine -> Machine) : Prog (Err Machine) :=
  Update modify Ret.

(** What can be observed of a run. *)
Inductive Event : Type :=
| Called (o : Op) (ok : bool)
| Committed (finalizers : list string)
| UpdateFailed.

(** The remote service and the record store: [answer] gives the result
    of a call, [persist] tells whether the store accepts the Machine it
    is asked to persist; both may depend on and change a state of their
    own. *)
Record Handler (S : Type) : Type := {
  answer : forall o : Op, S -> Err (OpVal o) * S;
  persist : Machine -> S -> option error * S;
}.
Arguments answer {S} _ _ _.
Arguments persist {S} _ _ _.

(** The result of a run: what the operation returned, the Machine as
    persisted, the state of the service, and the events in order. *)
Record Run (A S : Type) : Type := {
  outcome : Outcome A;
  machine : Machine;
  service : S;
  trace : list Event;
}.
Arguments outcome {A S} _.
Arguments machine {A S} _.
Arguments service {A S} _.
Arguments trace {A S} _.

Definition after {A S} (e : Event) (r : Run A S) : Run A S :=
  {| outcome := outcome r; machine := machine r; service := service r;
     trace := e :: trace r |}.

(** [run h p m s]: the operation [p] on the Machine [m], which is the
    record as the store holds it, against the service [h] in state [s].
    [data.Update] applies the change to the record and persists it; the
    Machine the caller holds is that record. *)
Fixpoint run {S A} (h : Handler S) (p : Prog A) (m : Machine) (s : S) : Run A S :=
  match p with
  | Ret a => {| outcome := Returned a; machine := m; service := s; trace := [] |}
  | Panic msg => {| outcome := Panicked msg; machine := m; service := s; trace := [] |}
  | Call o k =>
      let '(r, s') := answer h o s in
      after (Called o (is_Ok r)) (run h (k r) m s')
  | Update modify k =>
      let m' := modify m in
      let '(e, s') := persist h m' s in
      match e with
      | None => after (Committed (Finalizers m')) (run h (k (Ok m')) m' s')
      | Some err => after UpdateFailed (run h (k (Error err)) m s')
      end
  end.

(** [then_run r k]: the run [r] followed, when it returned, by the run
    [k] of what comes next. *)
Definition then_run {A B S} (r : Run A S) (k : A -> Machine -> S -> Run B S) : Run B S :=
  match outcome r with
  | Returned a =>
      let r' := k a (machine r) (service r) in
      {| outcome := outcome r'; machine := machine r'; service := service r';
         trace := trace r ++ trace r' |}
  | Panicked msg =>
      {| outcome := Panicked msg; machine := machine r; service := service r;
         trace := trace r |}
  end.

(** [calls_only allowed p]: on every path, whatever the answers, [p]
    asks for no change of the record and makes calls in [allowed]
    only. *)
Fixpoint calls_only {A} (allowed : Op -> bool) (p : Prog A) : Prop :=
  match p with
  | Ret _ | Panic _ => True
  | Call o k => allowed o = true /\ forall r, calls_only allowed (k r)
  | Update _ _ => False
  end.

(** The event of a call in [allowed]. *)
Definition call_of (allowed : Op -> bool) (e : Event) : Prop :=
  match e with
  | Called o _ => allowed o = true
  | _ => False
  end.

(** [always P p]: on every path, whatever the answers, [p] returns, with
    a value in [P]. *)
Fixpoint always {A} (P : A -> Prop) (p : Prog A) : Prop :=
  match p with
  | Ret a => P a
  | Panic _ => False
  | Call o k => forall r, always P (k r)
  | Update _ k => forall r, always P (k r)
  end.

(** The calls that read the state of the remote service, the
    construction of a client included. *)
Definition reads (o : Op) : bool :=
  match o with
  | getVMClient _ | getInterfacesClient _ | getIPClient _
  | getIPConfigClient _ | getDisksClient _ => true
  | vmClient_ListAll | vmClient_InstanceView _ _ | vmClient_Get _ _
  | ifClient_Get _ _ | ipClient_Get _ _ | ipConfigClient_Get _ _ _
  | getDisksByMachineUID _ _ => true
  | _ => false
  end.

(** *** Reading the state of an instance *)

(** [if err != nil { return onerr(err) }] after a call. *)
Definition try {A B} (p : Prog (Err A)) (onerr : error -> B) (k : A -> Prog B) : Prog B :=
  r ← p;
  match r with
  | Ok a => k a
  | Error err => Ret (onerr err)
  end.

Definition ifaceName (machine : Machine) : string := Name machine +:+ "-netiface".
Definition publicIPName (ifaceName : string) : string := ifaceName +:+ "-pubip".
Definition publicIPv6Name (ifaceName : string) : string := ifaceName +:+ "-pubipv6".

(** [splitID[len(splitID)-1]] after [strings.Split(id, "/")]. *)
Definition last_segment (id : string) : Prog string :=
  match last (strings.Split id "/"%char) with
  | Some name => Ret name
  | None => Panic "index out of range [-1]"
  end.

Definition getIPAddressStrings (c : config) (addrName : string) : Prog (Err (list string)) :=
  try (call (getIPClient c))
    (fun err => Error (Errorf "failed to create IP address client: %v" err)) (fun _ =>
  try (call (ipClient_Get (ResourceGroup c) addrName))
    (fun err => Error (Errorf "failed to get IP %q: %v" err)) (fun ip =>
  match network.IPConfiguration ip with
  | None => Ret (Error (errors_New "IP %q has nil IPConfiguration"))
  | Some _ =>
      Ret (Ok (match network.IPAddress ip with
               | Some a => [a]
               | None => []
               end))
  end)).

Definition getInternalIPAddresses (c : config) (inetface ipconfigName : string)
    : Prog (Err (list string)) :=
  try (call (getIPConfigClient c))
    (fun err => Error (Errorf "failed to create IP config client: %v" err)) (fun _ =>
  try (call (ipConfigClient_Get (ResourceGroup c) inetface ipconfigName))
    (fun err => Error (Errorf "failed to get IP config %q: %v" err)) (fun internalIP =>
  match network.IPConfiguration_ID internalIP with
  | None => Ret (Error (errors_New "private IP %q has nil IPConfiguration"))
  | Some _ =>
      Ret (Ok (match network.PrivateIPAddress internalIP with
               | Some a => [a]
               | None => []
               end))
  end)).

(** [for _, ip := range ips { ipAddresses[ip] = class }] *)
Definition set_addresses (ips : list string) (class : v1.NodeAddressType)
    (ipAddresses : gmap string v1.NodeAddressType) : gmap string v1.NodeAddressType :=
  foldl (fun acc ip => <[ip := class]> acc) ipAddresses ips.

(** The loop of [getNICIPAddresses] over the IP configurations of the
    interface. *)
Fixpoint getNICIPAddresses_confs (c : config) (ifaceName : string)
    (confs : list network.InterfaceIPConfiguration)
    (ipAddresses : gmap string v1.NodeAddressType)
    : Prog (Err (gmap string v1.NodeAddressType)) :=
  match confs with
  | [] => Ret (Ok ipAddresses)
  | conf :: confs' =>
      let with_name (name : string) : Prog (Err (gmap string v1.NodeAddressType)) :=
        let internal (ipAddresses : gmap string v1.NodeAddressType) :=
          try (getInternalIPAddresses c ifaceName name)
            (fun err => Error (Errorf "failed to retrieve internal IP string for IP %q: %v" err))
            (fun internalIPs =>
          getNICIPAddresses_confs c ifaceName confs'
            (set_addresses internalIPs v1.NodeInternalIP ipAddresses)) in
        if AssignPublicIP c then
          try (getIPAddressStrings c (publicIPName ifaceName))
            (fun err => Error (Errorf "failed to retrieve IP string for IP %q: %v" err))
            (fun publicIPs =>
          let ipAddresses := set_addresses publicIPs v1.NodeExternalIP ipAddresses in
          try (getIPAddressStrings c (publicIPv6Name ifaceName))
            (fun err => Error (Errorf "failed to retrieve IP string for IP %q: %v" err))
            (fun publicIP6s =>
          internal (set_addresses publicIP6s v1.NodeExternalIP ipAddresses)))
        else internal ipAddresses in
      match network.IPConfiguration_Name conf with
      | Some name => with_name name
      | None =>
          match network.IPConfiguration_ID conf with
          | None =>
              Ret (Error (errors_New "IP configuration of NIC %q was returned with no ID"))
          | Some id =>
              if Nat.eqb (String.length id) 0 then
                Ret (Error (errors_New "IP configuration of NIC %q was returned with no ID"))
              else name ← last_segment id; with_name name
          end
      end
  end.

Definition getNICIPAddresses (c : config) (ifaceName : string)
    : Prog (Err (gmap string v1.NodeAddressType)) :=
  try (call (getInterfacesClient c))
    (fun err => Error (Errorf "failed to create interfaces client: %v" err)) (fun _ =>
  try (call (ifClient_Get (ResourceGroup c) ifaceName))
    (fun err => Error (Errorf "failed to get interface %q: %v" err)) (fun netIf =>
  match network.IPConfigurations netIf with
  | None => Ret (Ok ∅)
  | Some confs => getNICIPAddresses_confs c ifaceName confs ∅
  end)).

(** [vm.NetworkProfile.NetworkInterfaces], read through the embedded
    [*VirtualMachineProperties]: dereferencing a nil pointer panics. *)
Definition vm_NetworkInterfaces (vm : compute.VirtualMachine)
    : Prog (option (list compute.NetworkInterfaceReference)) :=
  match compute.VirtualMachineProperties_of vm with
  | None => Panic "invalid memory address or nil pointer dereference"
  | Some props =>
      match compute.NetworkProfile_of props with
      | None => Panic "invalid memory address or nil pointer dereference"
      | Some profile => Ret (compute.NetworkInterfaces profile)
      end
  end.

(** The loop of [getVMIPAddresses] over the interfaces of the machine:
    [ipAddresses] and [err] are the variables of the function; what
    [getNICIPAddresses] returns is assigned to both, and the test that
    follows reads [vm.NetworkProfile.NetworkInterfaces], not [err]. *)
Fixpoint getVMIPAddresses_ifaces (c : config) (vm : compute.VirtualMachine)
    (ifaces : list compute.NetworkInterfaceReference)
    (ipAddresses : option (gmap string v1.NodeAddressType))
    : Prog (Err (option (gmap string v1.NodeAddressType))) :=
  match ifaces with
  | [] => Ret (Ok ipAddresses)
  | iface :: ifaces' =>
      match compute.NetworkInterfaceReference_ID iface with
      | None => Ret (Error (errors_New "interface %d has no ID"))
      | Some id =>
          if Nat.eqb (String.length id) 0 then
            Ret (Error (errors_New "interface %d has no ID"))
          else
            ifaceName ← last_segment id;
            r ← getNICIPAddresses c ifaceName;
            let ipAddresses := match r with Ok a => Some a | Error _ => None end in
            let err := match r with Ok _ => None | Error e => Some e end in
            nis ← vm_NetworkInterfaces vm;
            match nis with
            | None =>
                Ret (Error (match err with
                            | Some e => Errorf "failed to get addresses for interface %q: %v" e
                            | None => errors_New "failed to get addresses for interface %q: <nil>"
                            end))
            | Some _ => getVMIPAddresses_ifaces c vm ifaces' ipAddresses
            end
      end
  end.

Definition getVMIPAddresses (c : config) (vm : compute.VirtualMachine)
    : Prog (Err (option (gmap string v1.NodeAddressType))) :=
  match compute.VirtualMachineProperties_of vm with
  | None => Ret (Error (errors_New "machine is missing properties"))
  | Some props =>
      match compute.NetworkProfile_of props with
      | None => Ret (Error (errors_New "machine has no network profile"))
      | Some profile =>
          match compute.NetworkInterfaces profile with
          | None => Ret (Error (errors_New "machine has no network interfaces data"))
          | Some ifaces => getVMIPAddresses_ifaces c vm ifaces (Some ∅)
          end
      end
  end.

(** The interfaces of a machine that has its properties, its network
    profile and the list of its interfaces. *)
Definition interfaces_of (vm : compute.VirtualMachine)
    : option (list compute.NetworkInterfaceReference) :=
  props ← compute.VirtualMachineProperties_of vm;
  profile ← compute.NetworkProfile_of props;
  compute.NetworkInterfaces profile.

(** The interface has an identifier: the pointer is not nil and the
    string is not empty. *)
Definition has_ID (iface : compute.NetworkInterfaceReference) : bool :=
  match compute.NetworkInterfaceReference_ID iface with
  | Some id => negb (Nat.eqb (String.length id) 0)
  | None => false
  end.

(** What is left of the result of a lookup once its error is dropped:
    the map, nil when the lookup failed. *)
Definition addresses_of (r : Err (gmap string v1.NodeAddressType))
    : option (gmap string v1.NodeAddressType) :=
  match r with
  | Ok a => Some a
  | Error _ => None
  end.

(** The first loop of [getVMByUID]: all pages of the listing. *)
Fixpoint all_pages (pages : compute.VirtualMachineListResultPage)
    (allServers : list compute.VirtualMachine) : Err (list compute.VirtualMachine) :=
  match pages with
  | [] => Ok allServers
  | (values, next) :: list' =>
      let allServers := allServers ++ values in
      match next with
      | Some err => Error (Errorf "failed to iterate the result list: %s" err)
      | None => all_pages list' allServers
      end
  end.

(** [vm.Tags != nil && vm.Tags[machineUIDTag] != nil &&
    *vm.Tags[machineUIDTag] == string(uid)] *)
Definition tagged_with (tags : option (gmap string (option string))) (uid : string) : bool :=
  match tags with
  | None => false
  | Some tags =>
      match tags !! machineUIDTag with
      | Some (Some v) => String.eqb v uid
      | _ => false
      end
  end.

Definition getVMByUID (c : config) (uid : string) : Prog (Err compute.VirtualMachine) :=
  try (call (getVMClient c)) (fun err => Error err) (fun _ =>
  try (call vmClient_ListAll) (fun err => Error err) (fun pages =>
  match all_pages pages [] with
  | Error err => Ret (Error err)
  | Ok allServers =>
      match List.find (fun vm => tagged_with (compute.Tags vm) uid) allServers with
      | Some vm => Ret (Ok vm)
      | None => Ret (Error ErrInstanceNotFound)
      end
  end)).

(** What [getVMStatus] makes of the instance view it was given. *)
Definition instanceViewStatus (iv : compute.VirtualMachineInstanceView)
    : Outcome (instance.Status * option error) :=
  match compute.Statuses iv with
  | None => Returned (instance.StatusUnknown, None)
  | Some statuses =>
      if Nat.ltb (length statuses) 2 then
        match statuses !! 0%nat with
        | None => Panicked "index out of range [0] with length 0"
        | Some provisioningStatus =>
            match compute.Code provisioningStatus with
            | None => Returned (instance.StatusUnknown, None)
            | Some code =>
                if String.eqb code "" then Returned (instance.StatusUnknown, None)
                else if String.eqb code "ProvisioningState/deleting" then
                  Returned (instance.StatusDeleting, None)
                else Returned (instance.StatusUnknown, None)
            end
        end
      else
        match statuses !! 1%nat with
        | None => Panicked "index out of range [1]"
        | Some powerStatus =>
            match compute.Code powerStatus with
            | None => Returned (instance.StatusUnknown, None)
            | Some code =>
                if String.eqb code "" then Returned (instance.StatusUnknown, None)
                else if String.eqb code "PowerState/running" then
                  Returned (instance.StatusRunning, None)
                else if String.eqb code "PowerState/starting" then
                  Returned (instance.StatusCreating, None)
                else Returned (instance.StatusUnknown, None)
            end
        end
  end.

Definition of_outcome {A} (o : Outcome A) : Prog A :=
  match o with
  | Returned a => Ret a
  | Panicked msg => Panic msg
  end.

Definition getVMStatus (c : config) (vmName : string)
    : Prog (instance.Status * option error) :=
  try (call (getVMClient c)) (fun err => (instance.StatusUnknown, Some err)) (fun _ =>
  try (call (vmClient_InstanceView (ResourceGroup c) vmName))
    (fun err => (instance.StatusUnknown,
                 Some (Errorf "failed to get instance view for machine %q: %v" err)))
    (fun iv => of_outcome (instanceViewStatus iv))).

(** [provider.get] *)
Definition get (p : provider) (machine : Machine) : Prog (Err azureVM) :=
  match getConfig p (ProviderSpec_of (Spec machine)) with
  | Error err => Ret (Error (Errorf "failed to parse MachineSpec: %v" err))
  | Ok (config, _) =>
      r ← getVMByUID config (UID machine);
      match r with
      | Error err =>
          if is_ErrInstanceNotFound err then Ret (Error ErrInstanceNotFound)
          else Ret (Error (Errorf "failed to find machine %q by its UID: %v" err))
      | Ok vm =>
          try (getVMIPAddresses config vm)
            (fun err => Error (Errorf "failed to retrieve IP addresses for VM %v: %v" err))
            (fun ipAddresses =>
          st ← getVMStatus config (Name machine);
          match st.2 with
          | Some err => Ret (Error (Errorf "failed to retrieve status for VM %v: %v" err))
          | None => Ret (Ok {| vm := vm; ipAddresses := ipAddresses; status := st.1 |})
          end)
      end
  end.

(** [provider.Get] *)
Definition Get (p : provider) (machine : Machine) : Prog (Err azureVM) :=
  get p machine.

(** *** The lifecycle operations *)

(** [provider.AddDefaults] *)
Definition AddDefaults (p : provider) (spec : MachineSpec) : Prog (Err MachineSpec) :=
  Ret (Ok spec).

(** [AddDefaults] applied to the specification that [AddDefaults]
    returned. *)
Definition AddDefaults_twice (p : provider) (spec : MachineSpec) : Prog (Err MachineSpec) :=
  try (AddDefaults p spec) (fun err => Error err) (fun spec' => AddDefaults p spec').

Definition getOSUsername (os : providerconfigtypes.OperatingSystem) : string :=
  if String.eqb os providerconfigtypes.OperatingSystemFlatcar then "core" else os.

Definition managedDisk (sku : option compute.StorageAccountTypes)
    : option compute.ManagedDiskParameters :=
  match sku with
  | Some t => Some {| compute.StorageAccountType := t |}
  | None => None
  end.

Definition getStorageProfile (config : config)
    (providerCfg : providerconfigtypes.Config azuretypes.RawConfig)
    : Err compute.StorageProfile :=
  osRef ← wrapping "failed to get OSImageReference: %v"
    (getOSImageReference config (providerconfigtypes.OperatingSystem_of providerCfg));
  Ok {| compute.ImageReference_of := Some osRef;
        compute.OsDisk :=
          if negb (Z.eqb (OSDiskSize config) 0) then
            Some {| compute.OSDisk_DiskSizeGB := Some (OSDiskSize config);
                    compute.OSDisk_CreateOption := compute.DiskCreateOptionTypesFromImage;
                    compute.OSDisk_ManagedDisk := managedDisk (OSDiskSKU config) |}
          else None;
        compute.DataDisks :=
          if negb (Z.eqb (DataDiskSize config) 0) then
            Some [ {| compute.Lun := Some 0%Z;
                      compute.DiskSizeGB := Some (DataDiskSize config);
                      compute.CreateOption := compute.DiskCreateOptionTypesEmpty;
                      compute.ManagedDisk := managedDisk (DataDiskSKU config) |} ]
          else None |}.

(** [config.AssignAvailabilitySet == nil && config.AvailabilitySet != "" ||
    config.AssignAvailabilitySet != nil && *config.AssignAvailabilitySet &&
    config.AvailabilitySet != ""] *)
Definition uses_availability_set (config : config) : bool :=
  match AssignAvailabilitySet config with
  | None => negb (String.eqb (AvailabilitySet config) "")
  | Some assign => assign && negb (String.eqb (AvailabilitySet config) "")
  end.

(** The [tags] of the virtual machine: the tags of the configuration
    and the correlation tag. *)
Definition vm_tags (config : config) (uid : string) : gmap string (option string) :=
  <[machineUIDTag := Some uid]> (Some <$> Tags config).

(** The [vmSpec] that [Create] sends. *)
Definition Create_vmSpec (config : config)
    (providerCfg : providerconfigtypes.Config azuretypes.RawConfig)
    (machine : Machine) (userdata : string) (key_PublicKey : string)
    (iface : network.Interface) (storageProfile : compute.StorageProfile)
    : compute.VirtualMachine :=
  let tags := vm_tags config (UID machine) in
  let osPlane :=
    match ImagePlan config with
    | Some plan => Some plan
    | None => osPlans !! providerconfigtypes.OperatingSystem_of providerCfg
    end in
  let adminUserName := getOSUsername (providerconfigtypes.OperatingSystem_of providerCfg) in
  {| compute.ID := None;
     compute.Name := None;
     compute.Location := Some (Location config);
     compute.Plan_of := osPlane;
     compute.VirtualMachineProperties_of := Some
       {| compute.HardwareProfile_VMSize := Some (VMSize config);
          compute.NetworkProfile_of := Some
            {| compute.NetworkInterfaces := Some
                 [ {| compute.NetworkInterfaceReference_ID := network.Interface_ID iface;
                      compute.Primary := Some true |} ] |};
          compute.OsProfile := Some
            {| compute.AdminUsername := Some adminUserName;
               compute.ComputerName := Some (Name machine);
               compute.DisablePasswordAuthentication := Some true;
               compute.PublicKeys := Some
                 [ {| compute.Path :=
                        Some ("/home/" +:+ adminUserName +:+ "/.ssh/authorized_keys");
                      compute.KeyData := Some key_PublicKey |} ];
               compute.CustomData := Some (compute.Base64 userdata) |};
          compute.StorageProfile_of := Some storageProfile;
          compute.AvailabilitySet :=
            if uses_availability_set config then
              Some ("/subscriptions/" +:+ SubscriptionID config +:+ "/resourceGroups/"
                    +:+ ResourceGroup config
                    +:+ "/providers/Microsoft.Compute/availabilitySets/"
                    +:+ AvailabilitySet config)
            else None |};
     compute.Tags := Some tags;
     compute.Zones := Some (Zones config) |}.

(** [updatedMachine.Finalizers = append(updatedMachine.Finalizers, name)] *)
Definition append_finalizer (updatedMachine : Machine) (name : string) : Machine :=
  with_Finalizers updatedMachine (Finalizers updatedMachine ++ [name]).

(** The second half of [Create], from the finalizer of the network
    interface on.  In the last [data.Update] the test for [finalizerVM]
    reads [machine], which is the record the callback is applied to. *)
Definition Create_from_NIC (config : config)
    (providerCfg : providerconfigtypes.Config azuretypes.RawConfig)
    (machine : Machine) (userdata : string) (key_PublicKey : string)
    (ipFamily : util.IPFamily)
    (publicIP publicIPv6 : option network.PublicIPAddress) : Prog (Err azureVM) :=
  try (data_Update (fun updatedMachine =>
         if negb (kuberneteshelper.HasFinalizer updatedMachine finalizerNIC)
         then append_finalizer updatedMachine finalizerNIC
         else updatedMachine))
    (fun err => Error err) (fun machine =>
  try (call (createOrUpdateNetworkInterface (ifaceName machine) (UID machine) config
               publicIP publicIPv6 ipFamily))
    (fun err => Error (Errorf "failed to generate main network interface: %v" err)) (fun iface =>
  match getStorageProfile config providerCfg with
  | Error err => Ret (Error (Errorf "failed to get StorageProfile: %v" err))
  | Ok storageProfile =>
  let vmSpec := Create_vmSpec config providerCfg machine userdata key_PublicKey
                  iface storageProfile in
  try (data_Update (fun updatedMachine =>
         let updatedMachine :=
           if negb (kuberneteshelper.HasFinalizer updatedMachine finalizerDisks)
           then append_finalizer updatedMachine finalizerDisks
           else updatedMachine in
         let machine := updatedMachine in
         if negb (kuberneteshelper.HasFinalizer machine finalizerVM)
         then append_finalizer updatedMachine finalizerVM
         else updatedMachine))
    (fun err => Error err) (fun machine =>
  try (call (vmClient_CreateOrUpdate (ResourceGroup config) (Name machine) vmSpec))
    (fun err => Error (Errorf "trying to create a VM: %v" err)) (fun _ =>
  try (call vmFuture_WaitForCompletionRef)
    (fun err => Error (Errorf "waiting for operation returned: %v" err)) (fun _ =>
  try (call vmFuture_Result)
    (fun err => Error (Errorf "decoding result: %v" err)) (fun _ =>
  try (call (vmClient_Get (ResourceGroup config) (Name machine)))
    (fun err => Error (Errorf "failed to retrieve updated data for VM %q: %v" err)) (fun vm =>
  try (getVMIPAddresses config vm)
    (fun err => Error (Errorf "failed to retrieve IP addresses for VM %q: %v" err))
    (fun ipAddresses =>
  st ← getVMStatus config (Name machine);
  match st.2 with
  | Some err => Ret (Error (Errorf "failed to retrieve status for VM %q: %v" err))
  | None => Ret (Ok {| vm := vm; ipAddresses := ipAddresses; status := st.1 |})
  end))))))
  end)).

(** [provider.Create] *)
Definition Create (p : provider) (machine : Machine) (userdata : string)
    : Prog (Err azureVM) :=
  match getConfig p (ProviderSpec_of (Spec machine)) with
  | Error err =>
      Ret (Error (TerminalError common.InvalidConfigurationMachineError
                    "failed to parse MachineSpec, due to %v" err))
  | Ok (config, providerCfg) =>
  try (call (getVMClient config))
    (fun err => Error (Errorf "failed to create VM client: %v" err)) (fun _ =>
  try (call ssh_NewKey)
    (fun err => Error (Errorf "failed to generate ssh key: %v" err)) (fun key_PublicKey =>
  let ipFamily := providerconfigtypes.GetIPFamily (providerconfigtypes.Network providerCfg) in
  let sku :=
    if util.is_DualStack ipFamily then network.PublicIPAddressSkuNameStandard
    else network.PublicIPAddressSkuNameBasic in
  if AssignPublicIP config then
    try (data_Update (fun updatedMachine =>
           if negb (kuberneteshelper.HasFinalizer updatedMachine finalizerPublicIP)
           then append_finalizer updatedMachine finalizerPublicIP
           else updatedMachine))
      (fun err => Error err) (fun machine =>
    try (call (createOrUpdatePublicIPAddress (publicIPName (ifaceName machine))
                 network.IPVersionIPv4 sku network.IPAllocationMethodStatic
                 (UID machine) config))
      (fun err => Error (Errorf "failed to create public IP: %v" err)) (fun publicIP =>
    if util.is_DualStack ipFamily then
      try (call (createOrUpdatePublicIPAddress (publicIPv6Name (ifaceName machine))
                   network.IPVersionIPv6 sku network.IPAllocationMethodStatic
                   (UID machine) config))
        (fun err => Error (Errorf "failed to create public IP: %v" err)) (fun publicIPv6 =>
      Create_from_NIC config providerCfg machine userdata key_PublicKey ipFamily
        (Some publicIP) (Some publicIPv6))
    else
      Create_from_NIC config providerCfg machine userdata key_PublicKey ipFamily
        (Some publicIP) None))
  else
    Create_from_NIC config providerCfg machine userdata key_PublicKey ipFamily None None))
  end.

(** *** The finalizer ledger during [Create] *)

(** The finalizers that [Create] commits before the call that creates
    a resource: the finalizer of the public IP before both public
    addresses, the one of the interface before the interface, and those
    of the disks and of the virtual machine before the virtual
    machine. *)
Definition guarding_finalizers (o : Op) : list string :=
  match o with
  | createOrUpdatePublicIPAddress _ _ _ _ _ _ => [finalizerPublicIP]
  | createOrUpdateNetworkInterface _ _ _ _ _ _ => [finalizerNIC]
  | vmClient_CreateOrUpdate _ _ _ => [finalizerDisks; finalizerVM]
  | _ => []
  end.

Definition is_commit (e : Event) : bool :=
  match e with
  | Committed _ => true
  | _ => false
  end.

(** [committed_before f pre]: in the events [pre], a change of the
    record was committed, and the last one committed left the finalizer
    [f] on the record. *)
Definition committed_before (f : string) (pre : list Event) : Prop :=
  exists pre1 fs pre2,
    pre = pre1 ++ Committed fs :: pre2
    /\ f ∈ fs
    /\ forallb (fun e => negb (is_commit e)) pre2 = true.

(** [guarded committed t]: along the trace [t], which starts when the
    finalizers last committed are [committed] ([None] when nothing was
    committed yet), every call finds the finalizers that cover it in
    the last commit. *)
Fixpoint guarded (committed : option (list string)) (t : list Event) : Prop :=
  match t with
  | [] => True
  | Committed fs :: t' => guarded (Some fs) t'
  | Called o _ :: t' =>
      (forall f, f ∈ guarding_finalizers o ->
                 exists fs, committed = Some fs /\ f ∈ fs)
      /\ guarded committed t'
  | UpdateFailed :: t' => guarded committed t'
  end.

(** [if !HasFinalizer(m, f) { m.Finalizers = append(m.Finalizers, f) }]
    on the list of finalizers. *)
Definition ensure (f : string) (finalizers : list string) : list string :=
  if bool_decide (f ∈ finalizers) then finalizers else finalizers ++ [f].

(** The finalizers a successful [Create] leaves on a record that
    carried [finalizers]. *)
Definition finalizers_after_Create (config : config) (finalizers : list string)
    : list string :=
  ensure finalizerVM (ensure finalizerDisks (ensure finalizerNIC
    (if AssignPublicIP config then ensure finalizerPublicIP finalizers else finalizers))).

(** What is shown of a run of [Create] or of a part of it that
    starts when the last commit is [committed]: its calls are guarded,
    and when it succeeds the record carries [finalizers]. *)
Definition ledger_kept {S A} (committed : option (list string))
    (finalizers : list string) (r : Run (Err A) S) : Prop :=
  guarded committed (trace r)
  /\ forall a, outcome r = Returned (Ok a) -> Finalizers (machine r) = finalizers.

(** *** The resources a run writes *)

Inductive Resource : Type :=
| PublicIPv4
| PublicIPv6
| NetworkInterface
| Disk
| VirtualMachine.

(** The position of a resource in the order of creation. *)
Definition creation_rank (r : Resource) : nat :=
  match r with
  | PublicIPv4 => 0
  | PublicIPv6 => 1
  | NetworkInterface => 2
  | Disk => 3
  | VirtualMachine => 4
  end.

Fixpoint in_creation_order (l : list Resource) : bool :=
  match l with
  | [] => true
  | r :: l' =>
      forallb (fun r' => Nat.leb (creation_rank r) (creation_rank r')) l'
      && in_creation_order l'
  end.

(** The value of the correlation tag among the tags of a resource. *)
Definition uid_tag (tags : option (gmap string (option string))) : option string :=
  match tags with
  | None => None
  | Some tags =>
      match tags !! machineUIDTag with
      | Some (Some v) => Some v
      | _ => None
      end
  end.

(** The resource a create-or-update call writes, with the correlation
    tag the call puts on it. *)
Definition written (o : Op) : option (Resource * option string) :=
  match o with
  | createOrUpdatePublicIPAddress _ network.IPVersionIPv4 _ _ uid _ =>
      Some (PublicIPv4, Some uid)
  | createOrUpdatePublicIPAddress _ network.IPVersionIPv6 _ _ uid _ =>
      Some (PublicIPv6, Some uid)
  | createOrUpdateNetworkInterface _ uid _ _ _ _ => Some (NetworkInterface, Some uid)
  | disksClient_CreateOrUpdate _ _ disk => Some (Disk, uid_tag (compute.Disk_Tags disk))
  | vmClient_CreateOrUpdate _ _ vmSpec => Some (VirtualMachine, uid_tag (compute.Tags vmSpec))
  | _ => None
  end.

Definition writes (t : list Event) : list (Resource * option string) :=
  omap (fun e => match e with
                 | Called o _ => written o
                 | _ => None
                 end) t.

(** The resource a delete call removes. *)
Definition deleted (o : Op) : option Resource :=
  match o with
  | deleteVMsByMachineUID _ _ => Some VirtualMachine
  | deleteDisksByMachineUID _ _ => Some Disk
  | deleteInterfacesByMachineUID _ _ => Some NetworkInterface
  | deleteIPAddressesByMachineUID _ _ => Some PublicIPv4
  | _ => None
  end.

Definition deletes (t : list Event) : list Resource :=
  omap (fun e => match e with
                 | Called o _ => deleted o
                 | _ => None
                 end) t.

(** Modelled from the spec: [util.RemoveFinalizerOnInstanceNotFound] is
    declared in [pkg/cloudprovider/util], which is not among the
    sources.  Section 4.1, Cleanup, step 1: when the instance is not
    found, still attempt the removal of the finalizer and report done
    once the instance finalizer is cleared.  The finalizer is the one
    the caller names; it is already cleared when the Machine does not
    carry it. *)
Definition util_RemoveFinalizerOnInstanceNotFound (finalizer : string)
    (machine : Machine) : Prog (bool * option error) :=
  if negb (kuberneteshelper.HasFinalizer machine finalizer) then Ret (true, None)
  else
    try (data_Update (fun updatedMachine =>
           with_Finalizers updatedMachine
             (kuberneteshelper.RemoveFinalizer (Finalizers updatedMachine) finalizer)))
      (fun err => (false, Some (Errorf "failed updating machine %v finalizers: %v" err)))
      (fun _ => Ret (true, None)).

Definition remove_finalizer (name : string) (updatedMachine : Machine) : Machine :=
  with_Finalizers updatedMachine
    (kuberneteshelper.RemoveFinalizer (Finalizers updatedMachine) name).

(** [provider.Cleanup] *)
Definition Cleanup (p : provider) (machine : Machine) : Prog (bool * option error) :=
  match getConfig p (ProviderSpec_of (Spec machine)) with
  | Error err => Ret (false, Some (Errorf "failed to parse MachineSpec: %v" err))
  | Ok (config, _) =>
  r ← get p machine;
  match r with
  | Error err =>
      if is_ErrInstanceNotFound err
      then util_RemoveFinalizerOnInstanceNotFound finalizerVM machine
      else Ret (false, Some err)
  | Ok _ =>
  try (call (deleteVMsByMachineUID config (UID machine)))
    (fun err => (false, Some (Errorf "failed to delete instance for  machine %q: %v" err)))
    (fun _ =>
  try (data_Update (remove_finalizer finalizerVM))
    (fun err => (false, Some err)) (fun machine =>
  try (call (deleteDisksByMachineUID config (UID machine)))
    (fun err => (false, Some (Errorf "failed to remove disks of machine %q: %v" err)))
    (fun _ =>
  try (data_Update (remove_finalizer finalizerDisks))
    (fun err => (false, Some err)) (fun machine =>
  try (call (deleteInterfacesByMachineUID config (UID machine)))
    (fun err => (false, Some (Errorf "failed to remove network interfaces of machine %q: %v" err)))
    (fun _ =>
  try (data_Update (remove_finalizer finalizerNIC))
    (fun err => (false, Some err)) (fun machine =>
  try (call (deleteIPAddressesByMachineUID config (UID machine)))
    (fun err => (false, Some (Errorf "failed to remove public IP addresses of machine %q: %v" err)))
    (fun _ =>
  try (data_Update (remove_finalizer finalizerPublicIP))
    (fun err => (false, Some err)) (fun _ =>
  Ret (true, None)))))))))
  end
  end.

(** [if err != nil { return err }] between the steps of a function
    that returns an error alone. *)
Definition and_then (step : Prog (option error)) (rest : Prog (option error))
    : Prog (option error) :=
  e ← step;
  match e with
  | Some err => Ret (Some err)
  | None => rest
  end.

(** The loop of [MigrateUID] over the disks of the machine.  Writing to
    the nil map of a disk without tags panics, and so does reading the
    name of a disk without one. *)
Fixpoint MigrateUID_disks (config : config) (newUID : string)
    (disks : list compute.Disk) : Prog (option error) :=
  match disks with
  | [] => Ret None
  | disk :: disks' =>
      match compute.Disk_Tags disk with
      | None => Panic "assignment to entry in nil map"
      | Some tags =>
          let disk := {| compute.Disk_Name := compute.Disk_Name disk;
                         compute.Disk_Tags := Some (<[machineUIDTag := Some newUID]> tags) |} in
          match compute.Disk_Name disk with
          | None => Panic "invalid memory address or nil pointer dereference"
          | Some name =>
              try (call (disksClient_CreateOrUpdate (ResourceGroup config) name disk))
                (fun err => Some (Errorf "failed to update UID for disk %s: %v" err)) (fun _ =>
              try (call diskFuture_WaitForCompletionRef)
                (fun err => Some (Errorf
                   "failed waiting for completion of update UID operation for disk %s: %v" err))
                (fun _ => MigrateUID_disks config newUID disks'))
          end
      end
  end.

(** [provider.MigrateUID] *)
Definition MigrateUID (p : provider) (machine : Machine) (newUID : string)
    : Prog (option error) :=
  match getConfig p (ProviderSpec_of (Spec machine)) with
  | Error err =>
      Ret (Some (TerminalError common.InvalidConfigurationMachineError
                   "failed to parse MachineSpec, due to %v" err))
  | Ok (config, _) =>
  try (call (getVMClient config))
    (fun err => Some (Errorf "failed to create VM client: %v" err)) (fun _ =>
  let publicIP : option network.PublicIPAddress := None in
  let publicIPv6 : option network.PublicIPAddress := None in
  let sku :=
    if kuberneteshelper.HasFinalizer machine finalizerPublicIPv6
    then network.PublicIPAddressSkuNameStandard
    else network.PublicIPAddressSkuNameBasic in
  and_then
    (if kuberneteshelper.HasFinalizer machine finalizerPublicIPv6 then
       try (call (createOrUpdatePublicIPAddress (publicIPv6Name (ifaceName machine))
                    network.IPVersionIPv6 sku network.IPAllocationMethodDynamic
                    newUID config))
         (fun err => Some (Errorf "failed to update UID on public IP: %v" err))
         (fun _ => Ret None)
     else Ret None)
  (and_then
    (if kuberneteshelper.HasFinalizer machine finalizerPublicIP then
       try (call (createOrUpdatePublicIPAddress (publicIPName (ifaceName machine))
                    network.IPVersionIPv4 sku network.IPAllocationMethodStatic
                    newUID config))
         (fun err => Some (Errorf "failed to update UID on public IP: %v" err))
         (fun _ => Ret None)
     else Ret None)
  (and_then
    (if kuberneteshelper.HasFinalizer machine finalizerNIC then
       try (call (createOrUpdateNetworkInterface (ifaceName machine) newUID config
                    publicIP publicIPv6 util.Unspecified))
         (fun err => Some (Errorf "failed to update UID on main network interface: %v" err))
         (fun _ => Ret None)
     else Ret None)
  (and_then
    (if kuberneteshelper.HasFinalizer machine finalizerDisks then
       try (call (getDisksClient config))
         (fun err => Some (Errorf "failed to get disks client: %v" err)) (fun _ =>
       try (call (getDisksByMachineUID config (UID machine)))
         (fun err => Some (Errorf "failed to get disks: %v" err)) (fun disks =>
       MigrateUID_disks config newUID disks))
     else Ret None)
  (let vmSpec :=
     {| compute.ID := None; compute.Name := None;
        compute.Location := Some (Location config);
        compute.Plan_of := None;
        compute.VirtualMachineProperties_of := None;
        compute.Tags := Some (vm_tags config newUID);
        compute.Zones := None |} in
   try (call (vmClient_CreateOrUpdate (ResourceGroup config) (Name machine) vmSpec))
     (fun err => Some (Errorf "failed to update UID of the instance: %v" err)) (fun _ =>
   try (call vmFuture_WaitForCompletionRef)
     (fun err => Some (Errorf "error waiting for instance to have the updated UID: %v" err))
     (fun _ => Ret None)))))))
  end.

(** *** The steps of [Cleanup] *)

(** The resources [Cleanup] deletes and the finalizers it removes, in
    its order: the reverse of the order of creation. *)
Definition Cleanup_resources : list Resource :=
  [VirtualMachine; Disk; NetworkInterface; PublicIPv4].

Definition Cleanup_finalizers : list string :=
  [finalizerVM; finalizerDisks; finalizerNIC; finalizerPublicIP].

Definition remove_finalizers (removed : list string) (finalizers : list string)
    : list string :=
  foldl kuberneteshelper.RemoveFinalizer finalizers removed.

(** *** The order of [MigrateUID] *)

(** The resources [MigrateUID] writes, in the order in which it writes
    them, for a Machine [m] of which [disks] disks are found. *)
Definition MigrateUID_plan (m : Machine) (disks : nat) : list Resource :=
  (if kuberneteshelper.HasFinalizer m finalizerPublicIPv6 then [PublicIPv6] else [])
  ++ (if kuberneteshelper.HasFinalizer m finalizerPublicIP then [PublicIPv4] else [])
  ++ (if kuberneteshelper.HasFinalizer m finalizerNIC then [NetworkInterface] else [])
  ++ (if kuberneteshelper.HasFinalizer m finalizerDisks then replicate disks Disk else [])
  ++ [VirtualMachine].

Definition tagged (uid : string) (plan : list Resource) : list (Resource * option string) :=
  map (fun r => (r, Some uid)) plan.

(** An event that is not a failed call. *)
Definition succeeded (e : Event) : bool :=
  match e with
  | Called _ ok => ok
  | _ => true
  end.

(** The resource a call writes, if any, and whether the call carries
    the correlation tag [uid]. *)
Definition written_resource (o : Op) : list Resource :=
  match written o with
  | Some (r, _) => [r]
  | None => []
  end.

Definition carries (uid : string) (o : Op) : Prop :=
  forall r t, written o = Some (r, t) -> t = Some uid.

(** The shape of a run that follows the plan [plan] with the tag
    [uid]: when it returns no error every call succeeded and the whole
    plan was written; when it returns an error the last call failed,
    the calls before it succeeded, and a prefix of the plan was
    written; when it panics, a prefix of the plan was written by calls
    that succeeded. *)
Definition follows {S} (uid : string) (plan : list Resource)
    (r : Run (option error) S) : Prop :=
  match outcome r with
  | Returned None =>
      forallb succeeded (trace r) = true /\ writes (trace r) = tagged uid plan
  | Returned (Some _) =>
      (exists pre o, trace r = pre ++ [Called o false] /\ forallb succeeded pre = true)
      /\ writes (trace r) `prefix_of` tagged uid plan
  | Panicked _ =>
      forallb succeeded (trace r) = true /\ writes (trace r) `prefix_of` tagged uid plan
  end.

(** *** The order of [Create] *)

(** The resources [Create] writes, in the order in which it writes
    them. *)
Definition Create_plan (config : config) (ipFamily : util.IPFamily) : list Resource :=
  (if AssignPublicIP config then
     PublicIPv4 :: (if util.is_DualStack ipFamily then [PublicIPv6] else [])
   else [])
  ++ [NetworkInterface; VirtualMachine].

(** A run that writes a prefix of the plan, and all of it when it
    succeeds. *)
Definition written_in_order {S A} (plan : list Resource) (r : Run (Err A) S) : Prop :=
  map fst (writes (trace r)) `prefix_of` plan
  /\ forall a, outcome r = Returned (Ok a) -> map fst (writes (trace r)) = plan.

(** The calls of a trace. *)
Definition calls (t : list Event) : list Op :=
  omap (fun e => match e with
                 | Called o _ => Some o
                 | _ => None
                 end) t.

(** *** The calls of [MigrateUID] *)

(** [attempt h plan s]: the calls of [plan] made one after the other
    against the service in the state [s], up to the first that
    fails. *)
Fixpoint attempt {S} (h : Handler S) (plan : list Op) (s : S) : list Event :=
  match plan with
  | [] => []
  | o :: plan' =>
      match answer h o s with
      | (Ok _, s') => Called o true :: attempt h plan' s'
      | (Error _, _) => [Called o false]
      end
  end.

(** The state in which the calls of [plan] leave the service. *)
Fixpoint service_after {S} (h : Handler S) (plan : list Op) (s : S) : S :=
  match plan with
  | [] => s
  | o :: plan' => service_after h plan' (answer h o s).2
  end.

(** A disk that has its map of tags and its name. *)
Definition disk_complete (disk : compute.Disk) : bool :=
  match compute.Disk_Tags disk, compute.Disk_Name disk with
  | Some _, Some _ => true
  | _, _ => false
  end.

(** The calls of [MigrateUID] for the disks [disks]: for each disk the
    update of the disk with the new UID as its correlation tag and the
    wait for it, up to the first disk that lacks its tags or its
    name. *)
Fixpoint MigrateUID_disk_calls (config : config) (newUID : string)
    (disks : list compute.Disk) : list Op :=
  match disks with
  | [] => []
  | disk :: disks' =>
      match compute.Disk_Tags disk, compute.Disk_Name disk with
      | Some tags, Some name =>
          disksClient_CreateOrUpdate (ResourceGroup config) name
            {| compute.Disk_Name := Some name;
               compute.Disk_Tags := Some (<[machineUIDTag := Some newUID]> tags) |}
          :: diskFuture_WaitForCompletionRef
          :: MigrateUID_disk_calls config newUID disks'
      | _, _ => []
      end
  end.

(** The calls of [MigrateUID] before it turns to the disks. *)
Definition MigrateUID_address_calls (m : Machine) (newUID : string) (config : config)
    : list Op :=
  [getVMClient config]
  ++ (if kuberneteshelper.HasFinalizer m finalizerPublicIPv6
      then [createOrUpdatePublicIPAddress (publicIPv6Name (ifaceName m))
              network.IPVersionIPv6 network.PublicIPAddressSkuNameStandard
              network.IPAllocationMethodDynamic newUID config]
      else [])
  ++ (if kuberneteshelper.HasFinalizer m finalizerPublicIP
      then [createOrUpdatePublicIPAddress (publicIPName (ifaceName m))
              network.IPVersionIPv4
              (if kuberneteshelper.HasFinalizer m finalizerPublicIPv6
               then network.PublicIPAddressSkuNameStandard
               else network.PublicIPAddressSkuNameBasic)
              network.IPAllocationMethodStatic newUID config]
      else [])
  ++ (if kuberneteshelper.HasFinalizer m finalizerNIC
      then [createOrUpdateNetworkInterface (ifaceName m) newUID config None None
              util.Unspecified]
      else []).

(** The disks that [getDisksByMachineUID] returns for the UID the
    Machine has, when [MigrateUID] asks for them: none when the
    Machine does not carry the finalizer of the disks, or when the call
    fails. *)
Definition MigrateUID_listed {S} (h : Handler S) (m : Machine) (newUID : string)
    (config : config) (s : S) : list compute.Disk :=
  if kuberneteshelper.HasFinalizer m finalizerDisks then
    match (answer h (getDisksByMachineUID config (UID m))
             (service_after h (MigrateUID_address_calls m newUID config
                               ++ [getDisksClient config]) s)).1 with
    | Ok disks => disks
    | Error _ => []
    end
  else [].

(** The update of the virtual machine. *)
Definition MigrateUID_vm_calls (m : Machine) (newUID : string) (config : config) : list Op :=
  [vmClient_CreateOrUpdate (ResourceGroup config) (Name m)
     {| compute.ID := None; compute.Name := None;
        compute.Location := Some (Location config);
        compute.Plan_of := None;
        compute.VirtualMachineProperties_of := None;
        compute.Tags := Some (vm_tags config newUID);
        compute.Zones := None |};
   vmFuture_WaitForCompletionRef].

(** The calls of [MigrateUID], in its order, when the service lists
    the disks [disks] of the Machine. *)
Definition MigrateUID_calls (m : Machine) (newUID : string) (config : config)
    (disks : list compute.Disk) : list Op :=
  MigrateUID_address_calls m newUID config
  ++ (if kuberneteshelper.HasFinalizer m finalizerDisks
      then [getDisksClient config; getDisksByMachineUID config (UID m)]
           ++ MigrateUID_disk_calls config newUID disks
      else [])
  ++ (if forallb disk_complete disks then MigrateUID_vm_calls m newUID config else []).

(** A run that makes the calls of [plan] up to the first that fails,
    returns an error exactly when one failed, and otherwise returns no
    error when the plan is [complete] and panics when it is not. *)
Definition performs {S} (h : Handler S) (plan : list Op) (complete : bool) (s : S)
    (r : Run (option error) S) : Prop :=
  trace r = attempt h plan s
  /\ match outcome r with
     | Returned None => forallb succeeded (trace r) = true /\ complete = true
     | Returned (Some _) => forallb succeeded (trace r) = false
     | Panicked _ => forallb succeeded (trace r) = true /\ complete = false
     end.

End azure.

(** ** Annotations and labels of objects *)

Module metav1.

(** [metav1.Object], as far as its annotations and labels go: what
    [GetAnnotations] and [GetLabels] return and [SetAnnotations] and
    [SetLabels] store.  A map that was never set is nil. *)
Record Object : Type := {
  Annotations : option (gmap string string);
  Labels : option (gmap string string);
}.

End metav1.

(** The helpers of [pkg/apis/cluster/common/consts.go] that keep the
    settings of the kubelet in the annotations of an object, and the
    name of the operating system in its labels. *)
Module consts.
Import metav1.

Definition KubeletFeatureGatesAnnotationPrefixV1 : string :=
  "v1.kubelet-featuregates.machine-controller.kubermatic.io".
Definition KubeletFlagsGroupAnnotationPrefixV1 : string :=
  "v1.kubelet-flags.machine-controller.kubermatic.io".
Definition KubeletConfigAnnotationPrefixV1 : string :=
  "v1.kubelet-config.machine-controller.kubermatic.io".

Definition OperatingSystemLabelV1 : string :=
  "v1.machine-controller.kubermatic.io/operating-system".

(** [type KubeletFlags string] *)
Definition KubeletFlags : Type := string.

(** [fmt.Sprintf("%s/%s", prefix, k)] *)
Definition annotation_name (prefix k : string) : string :=
  prefix +:+ "/" +:+ k.

(** [fmt.Sprintf("%t", v)] *)
Definition format_bool (v : bool) : string :=
  if v then "true" else "false".

(** [annts := metaobj.GetAnnotations(); if annts == nil { annts =
    map[string]string{} }] *)
Definition annotations_or_empty (metaobj : Object) : gmap string string :=
  default ∅ (Annotations metaobj).

(** [metaobj.SetAnnotations(annts)] *)
Definition SetAnnotations (metaobj : Object) (annts : gmap string string) : Object :=
  {| Annotations := Some annts; Labels := Labels metaobj |}.

(** [SetKubeletFeatureGates], for the iteration order [order] of the
    range over [featureGates] (a permutation of its entries). *)
Definition SetKubeletFeatureGates_ranging (metaobj : Object)
    (order : list (string * bool)) : Object :=
  let annts := annotations_or_empty metaobj in
  let annts :=
    foldl (fun annts '(k, v) =>
             <[annotation_name KubeletFeatureGatesAnnotationPrefixV1 k := format_bool v]> annts)
          annts order in
  SetAnnotations metaobj annts.

Definition SetKubeletFeatureGates (metaobj : Object) (featureGates : gmap string bool)
    : Object :=
  SetKubeletFeatureGates_ranging metaobj (map_to_list featureGates).

(** [SetKubeletFlags], for one iteration order of the range over
    [flags]. *)
Definition SetKubeletFlags_ranging (metaobj : Object)
    (order : list (KubeletFlags * string)) : Object :=
  let annts := annotations_or_empty metaobj in
  let annts :=
    foldl (fun annts '(k, v) =>
             <[annotation_name KubeletFlagsGroupAnnotationPrefixV1 k := v]> annts)
          annts order in
  SetAnnotations metaobj annts.

Definition SetKubeletFlags (metaobj : Object) (flags : gmap KubeletFlags string) : Object :=
  SetKubeletFlags_ranging metaobj (map_to_list flags).

(** The test the three readers make of the name of an annotation:
    [strings.HasPrefix(name, prefix)], then [strings.SplitN(name, "/",
    2)], which must give two parts; the second part is the key the
    value is stored under. *)
Definition annotation_key (prefix name : string) : option string :=
  if strings.HasPrefix name prefix then
    match strings.SplitN_2 name "/"%char with
    | [_; key] => Some key
    | _ => None
    end
  else None.

(** [GetKubeletConfigs], for the iteration order [order] of the range
    over [annotations]. *)
Definition GetKubeletConfigs_ranging (order : list (string * string)) : gmap string string :=
  foldl (fun configs '(name, value) =>
           match annotation_key KubeletConfigAnnotationPrefixV1 name with
           | Some key => <[key := value]> configs
           | None => configs
           end)
        ∅ order.

Definition GetKubeletConfigs (annotations : gmap string string) : gmap string string :=
  GetKubeletConfigs_ranging (map_to_list annotations).

(** [realBool, _ := strconv.ParseBool(value)]: the error is dropped,
    and the boolean next to an error is [false]. *)
Definition realBool (value : string) : bool :=
  match providerconfig.ParseBool value with
  | Ok b => b
  | Error _ => false
  end.

(** [GetKubeletFeatureGates], for one iteration order. *)
Definition GetKubeletFeatureGates_ranging (order : list (string * string)) : gmap string bool :=
  foldl (fun result '(name, value) =>
           match annotation_key KubeletFeatureGatesAnnotationPrefixV1 name with
           | Some gate => <[gate := realBool value]> result
           | None => result
           end)
        ∅ order.

Definition GetKubeletFeatureGates (annotations : gmap string string) : gmap string bool :=
  GetKubeletFeatureGates_ranging (map_to_list annotations).

(** [GetKubeletFlags], for one iteration order. *)
Definition GetKubeletFlags_ranging (order : list (string * string))
    : gmap KubeletFlags string :=
  foldl (fun result '(name, value) =>
           match annotation_key KubeletFlagsGroupAnnotationPrefixV1 name with
           | Some flag => <[flag := value]> result
           | None => result
           end)
        ∅ order.

Definition GetKubeletFlags (annotations : gmap string string) : gmap KubeletFlags string :=
  GetKubeletFlags_ranging (map_to_list annotations).

(** [SetOSLabel].  Reading a nil map finds nothing; the map is made
    before it is written to. *)
Definition SetOSLabel (metaobj : Object) (osName : string) : Object :=
  let lbs := Labels metaobj in
  match default ∅ lbs !! OperatingSystemLabelV1 with
  | Some _ => metaobj
  | None =>
      let lbs := default ∅ lbs in
      {| Annotations := Annotations metaobj;
         Labels := Some (<[OperatingSystemLabelV1 := osName]> lbs) |}
  end.

(** A possible iteration order of a map. *)
Definition ranges {V} (m : gmap string V) (order : list (string * V)) : Prop :=
  order ≡ₚ map_to_list m.

(** No name among the annotations is read as a key under [prefix]. *)
Definition without_keys (prefix : string) (annotations : gmap string string) : Prop :=
  forall name value, annotations !! name = Some value -> annotation_key prefix name = None.

(** Every name among the annotations that is read as a key under
    [prefix] is the name the writers make for that key. *)
Definition canonical (prefix : string) (annotations : gmap string string) : Prop :=
  forall name value key,
    annotations !! name = Some value -> annotation_key prefix name = Some key ->
    name = annotation_name prefix key.

(** No two names among the annotations are read as the same key. *)
Definition distinct_keys (prefix : string) (annotations : gmap string string) : Prop :=
  forall name1 name2 key,
    is_Some (annotations !! name1) -> is_Some (annotations !! name2) ->
    annotation_key prefix name1 = Some key -> annotation_key prefix name2 = Some key ->
    name1 = name2.

End consts.

(** ** The validation of a specification *)

(** [compute.ResourceSku] and its parts, as [supportsDiskSKU] reads
    them. *)
Module skus.

Record ResourceSkuCapabilities : Type := {
  Capability_Name : option string;
  Capability_Value : option string;
}.

Record ResourceSkuZoneDetails : Type := {
  ZoneDetails_Name : option (list string);
  ZoneDetails_Capabilities : option (list ResourceSkuCapabilities);
}.

Record ResourceSkuLocationInfo : Type := {
  LocationInfo_Zones : option (list string);
  LocationInfo_ZoneDetails : option (list ResourceSkuZoneDetails);
}.

Record ResourceSku : Type := {
  ResourceSku_Name : option string;
  ResourceSku_Capabilities : option (list ResourceSkuCapabilities);
  ResourceSku_LocationInfo : option (list ResourceSkuLocationInfo);
}.

End skus.

Module validation.
Import clusterv1alpha1 azure skus.

Definition CapabilityPremiumIO : string := "PremiumIO".
Definition CapabilityUltraSSD : string := "UltraSSDAvailable".
Definition CapabilityValueTrue : string := "True".

(** The values of [compute.StorageAccountTypes] that the provider
    names. *)
Definition StorageAccountTypesStandardLRS : compute.StorageAccountTypes := "Standard_LRS".
Definition StorageAccountTypesStandardSSDLRS : compute.StorageAccountTypes := "StandardSSD_LRS".
Definition StorageAccountTypesPremiumLRS : compute.StorageAccountTypes := "Premium_LRS".
Definition StorageAccountTypesUltraSSDLRS : compute.StorageAccountTypes := "UltraSSD_LRS".

Definition osDiskSKUs : gmap compute.StorageAccountTypes string :=
  list_to_map [
    (StorageAccountTypesStandardLRS, "");
    (StorageAccountTypesStandardSSDLRS, "");
    (StorageAccountTypesPremiumLRS, "")
  ].

Definition dataDiskSKUs : gmap compute.StorageAccountTypes string :=
  list_to_map [
    (StorageAccountTypesStandardLRS, "");
    (StorageAccountTypesStandardSSDLRS, "");
    (StorageAccountTypesPremiumLRS, "");
    (StorageAccountTypesUltraSSDLRS, "")
  ].

Definition nil_dereference : string := "invalid memory address or nil pointer dereference".

(** The loop over capabilities that looks for one named [name] with
    the value [CapabilityValueTrue]:
    [if *capability.Name == name && *capability.Value ==
    CapabilityValueTrue { found = true; break }].  The value is read
    only when the name is the one looked for. *)
Fixpoint has_capability (name : string) (capabilities : list ResourceSkuCapabilities)
    : Outcome bool :=
  match capabilities with
  | [] => Returned false
  | capability :: capabilities' =>
      match Capability_Name capability with
      | None => Panicked nil_dereference
      | Some n =>
          if String.eqb n name then
            match Capability_Value capability with
            | None => Panicked nil_dereference
            | Some v =>
                if String.eqb v CapabilityValueTrue then Returned true
                else has_capability name capabilities'
            end
          else has_capability name capabilities'
      end
  end.

(** The loop over the zone details for one zone; [found] is the
    variable of that name, which the loop sets and never resets.  The
    loop goes through all the details, also after it has found one. *)
Fixpoint zone_details_support (zone : string) (zoneDetails : list ResourceSkuZoneDetails)
    (found : bool) : Outcome bool :=
  match zoneDetails with
  | [] => Returned found
  | details :: zoneDetails' =>
      match ZoneDetails_Name details with
      | None => Panicked nil_dereference
      | Some names =>
          let matchesZone := existsb (String.eqb zone) names in
          if matchesZone then
            match ZoneDetails_Capabilities details with
            | None => Panicked nil_dereference
            | Some capabilities =>
                match has_capability CapabilityUltraSSD capabilities with
                | Panicked msg => Panicked msg
                | Returned here => zone_details_support zone zoneDetails' (found || here)
                end
            end
          else zone_details_support zone zoneDetails' found
      end
  end.

(** The loop over the zones of the configuration. *)
Fixpoint zones_support (zones : list string) (zoneDetails : list ResourceSkuZoneDetails)
    : Outcome (option error) :=
  match zones with
  | [] => Returned None
  | zone :: zones' =>
      match zone_details_support zone zoneDetails false with
      | Panicked msg => Panicked msg
      | Returned false =>
          Returned (Some (errors_New "VM SKU '%s' does not support disk SKU '%s' in zone '%s'"))
      | Returned true => zones_support zones' zoneDetails
      end
  end.

(** [if !found { return fmt.Errorf(...) }] after the loop over the
    capabilities of the SKU. *)
Definition capability_required (name : string) (capabilities : list ResourceSkuCapabilities)
    : Outcome (option error) :=
  match has_capability name capabilities with
  | Panicked msg => Panicked msg
  | Returned true => Returned None
  | Returned false =>
      Returned (Some (errors_New "VM SKU '%s' does not support disk SKU '%s'"))
  end.

(** [supportsDiskSKU] *)
Definition supportsDiskSKU (vmSKU : ResourceSku) (diskSKU : compute.StorageAccountTypes)
    (zones : list string) : Outcome (option error) :=
  match ResourceSku_Name vmSKU, ResourceSku_Capabilities vmSKU with
  | Some _, Some capabilities =>
      if String.eqb diskSKU StorageAccountTypesPremiumLRS then
        capability_required CapabilityPremiumIO capabilities
      else if String.eqb diskSKU StorageAccountTypesUltraSSDLRS then
        match ResourceSku_LocationInfo vmSKU with
        | None | Some [] => capability_required CapabilityUltraSSD capabilities
        | Some (locationInfo :: _) =>
            match LocationInfo_Zones locationInfo with
            | None | Some [] => capability_required CapabilityUltraSSD capabilities
            | Some (_ :: _) =>
                match LocationInfo_ZoneDetails locationInfo with
                | None => Returned None
                | Some zoneDetails => zones_support zones zoneDetails
                end
            end
        end
      else Returned None
  | _, _ => Returned (Some (errors_New "invalid VM SKU object"))
  end.

(** *** The calls of [Validate]

    [Validate] asks the remote service through the constructor of the
    client and its listing, which [Op] has, and through three functions
    of the provider package that are declared outside the sources and
    are opaque here: the oracle decides what they return.  Each is
    asked at most once in a run, so an oracle without a state covers
    every service. *)
Inductive Lookup : Type :=
| provider_call (o : Op)
| getVirtualNetwork (c : config)
| getSubnet (c : config)
| getSKU (c : config).

Definition LookupVal (q : Lookup) : Type :=
  match q with
  | provider_call o => OpVal o
  | getVirtualNetwork _ => unit
  | getSubnet _ => unit
  | getSKU _ => ResourceSku
  end.

(** A validation: it is done, panics, or asks and goes on with the
    answer. *)
Inductive Check (A : Type) : Type :=
| Done (a : A)
| Fault (msg : string)
| Ask (q : Lookup) (k : Err (LookupVal q) -> Check A).
Arguments Done {A} a.
Arguments Fault {A} msg.
Arguments Ask {A} q k.

Fixpoint check_bind {A B} (p : Check A) (f : A -> Check B) : Check B :=
  match p with
  | Done a => f a
  | Fault msg => Fault msg
  | Ask q k => Ask q (fun r => check_bind (k r) f)
  end.

(** [v, err := q(...); if err != nil { return onerr(err) }] *)
Definition asking {A} (q : Lookup) (onerr : error -> A) (k : LookupVal q -> Check A)
    : Check A :=
  Ask q (fun r => match r with
                  | Ok v => k v
                  | Error err => Done (onerr err)
                  end).

Definition check_outcome {A} (o : Outcome A) : Check A :=
  match o with
  | Returned a => Done a
  | Panicked msg => Fault msg
  end.

Definition Oracle : Type := forall q : Lookup, Err (LookupVal q).

(** [interrogate answers p]: what was asked, in order, and how the
    validation ended. *)
Fixpoint interrogate {A} (answers : Oracle) (p : Check A) : list Lookup * Outcome A :=
  match p with
  | Done a => ([], Returned a)
  | Fault msg => ([], Panicked msg)
  | Ask q k =>
      let r := interrogate answers (k (answers q)) in
      (q :: r.1, r.2)
  end.

(** The part of [validateDiskSKUs] on the SKU of the data disk. *)
Definition validateDiskSKUs_data (c : config) (sku : ResourceSku) : Check (option error) :=
  match DataDiskSKU c with
  | None => Done None
  | Some dataDiskSKU =>
      match dataDiskSKUs !! dataDiskSKU with
      | None => Done (Some (errors_New "invalid data disk SKU '%s'"))
      | Some _ =>
          if String.eqb dataDiskSKU StorageAccountTypesUltraSSDLRS
             && (match AssignAvailabilitySet c with
                 | Some assign => assign
                 | None => false
                 end
                 || negb (String.eqb (AvailabilitySet c) ""))
          then Done (Some (errors_New "data disk SKU '%s' does not support availability sets"))
          else check_outcome (supportsDiskSKU sku dataDiskSKU (Zones c))
      end
  end.

(** [validateDiskSKUs] *)
Definition validateDiskSKUs (c : config) : Check (option error) :=
  if bool_decide (is_Some (OSDiskSKU c)) || bool_decide (is_Some (DataDiskSKU c)) then
    asking (getSKU c) (fun err => Some (Errorf "failed to get VM SKU: %w" err)) (fun sku =>
    match OSDiskSKU c with
    | None => validateDiskSKUs_data c sku
    | Some osDiskSKU =>
        match osDiskSKUs !! osDiskSKU with
        | None => Done (Some (errors_New "invalid OS disk SKU '%s'"))
        | Some _ =>
            check_bind (check_outcome (supportsDiskSKU sku osDiskSKU (Zones c))) (fun e =>
            match e with
            | Some err => Done (Some err)
            | None => validateDiskSKUs_data c sku
            end)
        end
    end)
  else Done None.

(** The texts of [util.ErrIPv6OnlyUnsupported] and of
    [util.ErrUnknownNetworkFamily] are declared outside the sources;
    the names of the constants stand for them. *)
Definition util_ErrIPv6OnlyUnsupported : string := "util.ErrIPv6OnlyUnsupported".
Definition util_ErrUnknownNetworkFamily : string := "util.ErrUnknownNetworkFamily".

(** The calls of [Validate] to the remote service, after the tests of
    the configuration. *)
Definition Validate_remote (c : config)
    (providerConfig : providerconfigtypes.Config azuretypes.RawConfig)
    : Check (option error) :=
  asking (provider_call (getVMClient c))
    (fun err => Some (Errorf "failed to (create) vm client: %v" err)) (fun _ =>
  asking (provider_call vmClient_ListAll)
    (fun err => Some (Errorf "failed to list all: %v" err)) (fun _ =>
  asking (getVirtualNetwork c)
    (fun err => Some (Errorf "failed to get virtual network: %v" err)) (fun _ =>
  asking (getSubnet c)
    (fun err => Some (Errorf "failed to get subnet: %v" err)) (fun _ =>
  check_bind (validateDiskSKUs c) (fun e =>
  match e with
  | Some err => Done (Some (Errorf "failed to validate disk SKUs: %w" err))
  | None =>
      match getOSImageReference c (providerconfigtypes.OperatingSystem_of providerConfig) with
      | Ok _ => Done None
      | Error err => Done (Some err)
      end
  end))))).

(** [provider.Validate] *)
Definition Validate (p : provider) (spec : MachineSpec) : Check (option error) :=
  match getConfig p (ProviderSpec_of spec) with
  | Error err => Done (Some (Errorf "failed to parse config: %v" err))
  | Ok (c, providerConfig) =>
      if String.eqb (SubscriptionID c) "" then Done (Some (errors_New "subscriptionID is missing"))
      else if String.eqb (TenantID c) "" then Done (Some (errors_New "tenantID is missing"))
      else if String.eqb (ClientID c) "" then Done (Some (errors_New "clientID is missing"))
      else if String.eqb (ClientSecret c) "" then
        Done (Some (errors_New "clientSecret is missing"))
      else if String.eqb (ResourceGroup c) "" then
        Done (Some (errors_New "resourceGroup is missing"))
      else if String.eqb (VMSize c) "" then Done (Some (errors_New "vmSize is missing"))
      else if String.eqb (VNetName c) "" then Done (Some (errors_New "vnetName is missing"))
      else if String.eqb (SubnetName c) "" then Done (Some (errors_New "subnetName is missing"))
      else
        match providerconfigtypes.GetIPFamily (providerconfigtypes.Network providerConfig) with
        | util.Unspecified | util.IPv4 => Validate_remote c providerConfig
        | util.IPv6 => Done (Some (errors_New util_ErrIPv6OnlyUnsupported))
        | util.DualStack => Validate_remote c providerConfig
        | util.OtherFamily _ => Done (Some (errors_New util_ErrUnknownNetworkFamily))
        end
  end.

(** The fields [Validate] requires, in the order in which it tests
    them, each with the error for its absence. *)
Definition required_fields (c : config) : list (string * string) :=
  [ (SubscriptionID c, "subscriptionID is missing");
    (TenantID c, "tenantID is missing");
    (ClientID c, "clientID is missing");
    (ClientSecret c, "clientSecret is missing");
    (ResourceGroup c, "resourceGroup is missing");
    (VMSize c, "vmSize is missing");
    (VNetName c, "vnetName is missing");
    (SubnetName c, "subnetName is missing") ].

(** The first required field that is empty, if there is one. *)
Definition first_missing (c : config) : option string :=
  snd <$> List.find (fun field => String.eqb field.1 "") (required_fields c).

(** The IP families [Validate] lets through. *)
Definition supported_family (f : util.IPFamily) : bool :=
  match f with
  | util.Unspecified | util.IPv4 | util.DualStack => true
  | _ => false
  end.

(** A SKU object all of whose pointers are set. *)
Definition capabilities_set (capabilities : list ResourceSkuCapabilities) : Prop :=
  Forall (fun capability =>
            is_Some (Capability_Name capability) /\ is_Some (Capability_Value capability))
         capabilities.

(** A capability of the name [name] with the value
    [CapabilityValueTrue]. *)
Definition grants (name : string) (capability : ResourceSkuCapabilities) : Prop :=
  Capability_Name capability = Some name
  /\ Capability_Value capability = Some CapabilityValueTrue.

(** Zone details all of whose pointers are set. *)
Definition zone_details_set (zoneDetails : list ResourceSkuZoneDetails) : Prop :=
  Forall (fun details =>
            is_Some (ZoneDetails_Name details)
            /\ exists capabilities,
                 ZoneDetails_Capabilities details = Some capabilities
                 /\ capabilities_set capabilities)
         zoneDetails.

(** Zone details that name the zone [zone] and grant it the
    capability [CapabilityUltraSSD]. *)
Definition zone_granted (zone : string) (details : ResourceSkuZoneDetails) : Prop :=
  exists names capabilities,
    ZoneDetails_Name details = Some names
    /\ zone ∈ names
    /\ ZoneDetails_Capabilities details = Some capabilities
    /\ Exists (grants CapabilityUltraSSD) capabilities.

(** The first location of the SKU when it lists zones: the test of
    [supportsDiskSKU] for a SKU with zone information. *)
Definition zonal (vmSKU : ResourceSku) : option ResourceSkuLocationInfo :=
  match ResourceSku_LocationInfo vmSKU with
  | Some (locationInfo :: _) =>
      match LocationInfo_Zones locationInfo with
      | Some (_ :: _) => Some locationInfo
      | _ => None
      end
  | _ => None
  end.

End validation.

(** ** What an operation keeps to *)

Module conduct.
Import clusterv1alpha1 azure.

(** [keeps Inv P p]: on every path of [p], whatever the answers,
    every call is in [P], and every change of the record that [p] asks
    for takes a record in [Inv] to a record in [Inv], from which [p]
    goes on keeping to the same. *)
Fixpoint keeps {A} (Inv : Machine -> Prop) (P : Op -> Prop) (p : Prog A) : Prop :=
  match p with
  | Ret _ | Panic _ => True
  | Call o k => P o /\ forall r, keeps Inv P (k r)
  | Update modify k =>
      (forall m, Inv m -> Inv (modify m) /\ keeps Inv P (k (Ok (modify m))))
      /\ forall err, keeps Inv P (k (Error err))
  end.

(** The calls of a trace are in [P]. *)
Definition calls_in (P : Op -> Prop) (t : list Event) : Prop :=
  Forall (fun e => match e with
                   | Called o _ => P o
                   | _ => True
                   end) t.

(** A record that is the Machine [m] but for its finalizers, which
    are those of [m] and possibly more behind them. *)
Definition grown_from (m m' : Machine) : Prop :=
  Name m' = Name m /\ UID m' = UID m /\ Spec m' = Spec m
  /\ Finalizers m `prefix_of` Finalizers m'.

(** The calls that look up an interface and its private addresses. *)
Definition private_lookup (o : Op) : bool :=
  match o with
  | getInterfacesClient _ | ifClient_Get _ _
  | getIPConfigClient _ | ipConfigClient_Get _ _ _ => true
  | _ => false
  end.

(** A call that deletes nothing, and that tags what it writes with
    [uid]. *)
Definition creates_for (uid : string) (o : Op) : Prop :=
  deleted o = None /\ carries uid o.

(** What a call that asks for a virtual machine asks for, when it is
    made by [Create] for the Machine [m] under the configuration [c]
    of the provider configuration [providerCfg]: the virtual machine is
    asked for in the resource group of the configuration under the name
    of the Machine, with the storage profile of [getStorageProfile],
    and it is the one [Create] makes up for a record that is the
    Machine but for its finalizers. *)
Definition asks_for_vm (m : Machine) (c : config)
    (providerCfg : providerconfigtypes.Config azuretypes.RawConfig) (o : Op) : Prop :=
  match o with
  | vmClient_CreateOrUpdate resourceGroup vmName vmSpec =>
      resourceGroup = ResourceGroup c
      /\ vmName = Name m
      /\ exists machine userdata key_PublicKey iface storageProfile,
           grown_from m machine
           /\ getStorageProfile c providerCfg = Ok storageProfile
           /\ vmSpec = Create_vmSpec c providerCfg machine userdata key_PublicKey iface
                         storageProfile
  | _ => True
  end.

End conduct.

(** ** A simulated service

    A small cloud to run the operations against: it keeps the virtual
    machines it was asked to create, finds and deletes them by their
    correlation tag, and fails the calls [cloud_fails] selects.  It is
    used for the concrete scenarios only; the general theorems are about
    every handler. *)

Module simulation.
Import clusterv1alpha1 azure.

Record cloud : Type := {
  cloud_vms : list compute.VirtualMachine;
  cloud_disks : list compute.Disk;
  cloud_view : compute.VirtualMachineInstanceView;
  cloud_fails : Op -> bool;
}.

Definition named (name : string) (vm : compute.VirtualMachine) : bool :=
  match compute.Name vm with
  | Some n => String.eqb n name
  | None => false
  end.

(** Create-or-update by name: a machine that exists keeps what the new
    specification leaves out. *)
Definition upsert_vm (name : string) (vmSpec : compute.VirtualMachine)
    (vms : list compute.VirtualMachine) : list compute.VirtualMachine :=
  match List.find (named name) vms with
  | Some old =>
      map (fun vm =>
             if named name vm then
               {| compute.ID := compute.ID old;
                  compute.Name := Some name;
                  compute.Location := compute.Location vmSpec;
                  compute.Plan_of := compute.Plan_of old;
                  compute.VirtualMachineProperties_of :=
                    match compute.VirtualMachineProperties_of vmSpec with
                    | Some props => Some props
                    | None => compute.VirtualMachineProperties_of old
                    end;
                  compute.Tags := compute.Tags vmSpec;
                  compute.Zones := compute.Zones old |}
             else vm) vms
  | None =>
      vms ++ [ {| compute.ID := Some ("/virtualMachines/" +:+ name);
                  compute.Name := Some name;
                  compute.Location := compute.Location vmSpec;
                  compute.Plan_of := compute.Plan_of vmSpec;
                  compute.VirtualMachineProperties_of :=
                    compute.VirtualMachineProperties_of vmSpec;
                  compute.Tags := compute.Tags vmSpec;
                  compute.Zones := compute.Zones vmSpec |} ]
  end.

Definition with_vms (s : cloud) (vms : list compute.VirtualMachine) : cloud :=
  {| cloud_vms := vms; cloud_disks := cloud_disks s;
     cloud_view := cloud_view s; cloud_fails := cloud_fails s |}.

Definition with_disks (s : cloud) (disks : list compute.Disk) : cloud :=
  {| cloud_vms := cloud_vms s; cloud_disks := disks;
     cloud_view := cloud_view s; cloud_fails := cloud_fails s |}.

Definition disk_named (name : string) (disk : compute.Disk) : bool :=
  match compute.Disk_Name disk with
  | Some n => String.eqb n name
  | None => false
  end.

Definition cloud_answer (o : Op) (s : cloud) : Err (OpVal o) * cloud :=
  if cloud_fails s o then (Error (Remote "service unavailable"), s)
  else
    match o return Err (OpVal o) * cloud with
    | getVMClient _ | getInterfacesClient _ | getIPClient _
    | getIPConfigClient _ | getDisksClient _ => (Ok tt, s)
    | ssh_NewKey => (Ok "ssh-rsa AAAA", s)
    | createOrUpdatePublicIPAddress ipName _ _ _ _ _ =>
        (Ok {| network.PublicIPAddress_ID := Some ("/publicIPAddresses/" +:+ ipName);
               network.IPConfiguration := Some "ipconfig";
               network.IPAddress := Some "203.0.113.7" |}, s)
    | createOrUpdateNetworkInterface ifName _ _ _ _ _ =>
        (Ok {| network.Interface_ID := Some ("/networkInterfaces/" +:+ ifName);
               network.IPConfigurations := None |}, s)
    | deleteVMsByMachineUID _ uid =>
        (Ok tt, with_vms s
                  (List.filter (fun vm => negb (tagged_with (compute.Tags vm) uid))
                     (cloud_vms s)))
    | deleteDisksByMachineUID _ uid =>
        (Ok tt, with_disks s
                  (List.filter (fun disk => negb (tagged_with (compute.Disk_Tags disk) uid))
                     (cloud_disks s)))
    | deleteInterfacesByMachineUID _ _
    | deleteIPAddressesByMachineUID _ _ => (Ok tt, s)
    | getDisksByMachineUID _ uid =>
        (Ok (List.filter (fun disk => tagged_with (compute.Disk_Tags disk) uid)
               (cloud_disks s)), s)
    | vmClient_ListAll =>
        (Ok (match cloud_vms s with
             | [] => []
             | vms => [(vms, None)]
             end), s)
    | vmClient_InstanceView _ _ => (Ok (cloud_view s), s)
    | vmClient_CreateOrUpdate _ vmName vmSpec =>
        (Ok tt, with_vms s (upsert_vm vmName vmSpec (cloud_vms s)))
    | vmFuture_WaitForCompletionRef => (Ok tt, s)
    | vmFuture_Result =>
        match last (cloud_vms s) with
        | Some vm => (Ok vm, s)
        | None => (Error (Remote "no result"), s)
        end
    | vmClient_Get _ vmName =>
        match List.find (named vmName) (cloud_vms s) with
        | Some vm => (Ok vm, s)
        | None => (Error (Remote "ResourceNotFound"), s)
        end
    | ifClient_Get _ _ =>
        (Ok {| network.Interface_ID := None;
               network.IPConfigurations := Some
                 [ {| network.IPConfiguration_Name := Some "ip-config-1";
                      network.IPConfiguration_ID := None;
                      network.PrivateIPAddress := Some "10.0.0.4" |} ] |}, s)
    | ipClient_Get _ addrName =>
        (Ok {| network.PublicIPAddress_ID := Some ("/publicIPAddresses/" +:+ addrName);
               network.IPConfiguration := Some "ipconfig";
               network.IPAddress := Some "203.0.113.7" |}, s)
    | ipConfigClient_Get _ _ ipconfigName =>
        (Ok {| network.IPConfiguration_Name := Some ipconfigName;
               network.IPConfiguration_ID := Some ("/ipConfigurations/" +:+ ipconfigName);
               network.PrivateIPAddress := Some "10.0.0.4" |}, s)
    | disksClient_CreateOrUpdate _ diskName disk =>
        (Ok tt, with_disks s
                  (map (fun old => if disk_named diskName old then disk else old)
                     (cloud_disks s)))
    | diskFuture_WaitForCompletionRef => (Ok tt, s)
    end.

(** The simulated service; its record store accepts every change. *)
Definition the_cloud : Handler cloud :=
  {| answer := cloud_answer; persist := fun _ s => (None, s) |}.

Definition no_failures : Op -> bool := fun _ => false.

(** The instance view of a machine that is up. *)
Definition running_view : compute.VirtualMachineInstanceView :=
  {| compute.Statuses := Some
       [ {| compute.Code := Some "ProvisioningState/succeeded" |};
         {| compute.Code := Some "PowerState/running" |} ] |}.

Definition empty_cloud : cloud :=
  {| cloud_vms := []; cloud_disks := [];
     cloud_view := running_view; cloud_fails := no_failures |}.

(** The failure of one kind of call. *)
Definition interface_lookup_fails (o : Op) : bool :=
  match o with ifClient_Get _ _ => true | _ => false end.

Definition disk_deletion_fails (o : Op) : bool :=
  match o with deleteDisksByMachineUID _ _ => true | _ => false end.

(** A provider without secrets and with an empty environment. *)
Definition example_provider : provider :=
  {| configVarResolver :=
       {| providerconfig.secrets := fun _ => None; providerconfig.environ := ∅ |} |}.

Definition literal (v : string) : providerconfigtypes.ConfigVarString :=
  {| providerconfigtypes.Value := v; providerconfigtypes.SecretKeyRef_of := None |}.

Definition example_rawConfig : azuretypes.RawConfig :=
  {| azuretypes.SubscriptionID := literal "sub";
     azuretypes.TenantID := literal "tenant";
     azuretypes.ClientID := literal "client";
     azuretypes.ClientSecret := literal "secret";
     azuretypes.Location := literal "westeurope";
     azuretypes.ResourceGroup := literal "rg";
     azuretypes.VNetResourceGroup := literal "";
     azuretypes.VMSize := literal "Standard_B2s";
     azuretypes.VNetName := literal "vnet";
     azuretypes.SubnetName := literal "subnet";
     azuretypes.LoadBalancerSku := literal "";
     azuretypes.RouteTableName := literal "";
     azuretypes.AvailabilitySet := literal "";
     azuretypes.AssignAvailabilitySet := None;
     azuretypes.SecurityGroupName := literal "";
     azuretypes.Zones := [];
     azuretypes.ImagePlan_of := None;
     azuretypes.ImageReference_of := None;
     azuretypes.ImageID := literal "";
     azuretypes.OSDiskSize := 0;
     azuretypes.OSDiskSKU := None;
     azuretypes.DataDiskSize := 0;
     azuretypes.DataDiskSKU := None;
     azuretypes.AssignPublicIP :=
       {| providerconfigtypes.BoolValue := Some true;
          providerconfigtypes.BoolSecretKeyRef_of := None |};
     azuretypes.Tags := ∅ |}.

(** The provider specification of a dual-stack Ubuntu machine that
    asks for a public IP and names no availability set. *)
Definition example_pconfig : providerconfigtypes.Config azuretypes.RawConfig :=
  {| providerconfigtypes.OperatingSystem_of := providerconfigtypes.OperatingSystemUbuntu;
     providerconfigtypes.OperatingSystemSpec_Raw := Some "{}";
     providerconfigtypes.CloudProviderSpec := Ok example_rawConfig;
     providerconfigtypes.Network :=
       {| providerconfigtypes.GetIPFamily := util.DualStack |} |}.

Definition example_spec : MachineSpec :=
  {| ProviderSpec_of := {| Value := Some (Ok example_pconfig) |} |}.

Definition example_machine (finalizers : list string) : Machine :=
  {| Name := "worker-1"; UID := "uid-1"; Finalizers := finalizers; Spec := example_spec |}.

(** A Machine without a provider specification. *)
Definition unconfigured_machine : Machine :=
  {| Name := "worker-0"; UID := "uid-0"; Finalizers := [];
     Spec := {| ProviderSpec_of := {| Value := None |} |} |}.

(** What [getConfig] resolves [example_rawConfig] to, with the
    subscription [sub]. *)
Definition resolved_config (sub : string) : config :=
  {| SubscriptionID := sub;
     TenantID := "tenant";
     ClientID := "client";
     ClientSecret := "secret";
     Location := "westeurope";
     ResourceGroup := "rg";
     VNetResourceGroup := "rg";
     VMSize := "Standard_B2s";
     VNetName := "vnet";
     SubnetName := "subnet";
     LoadBalancerSku := "";
     RouteTableName := "";
     AvailabilitySet := "";
     AssignAvailabilitySet := None;
     SecurityGroupName := "";
     ImageID := "";
     Zones := [];
     ImagePlan := None;
     ImageReference := None;
     OSDiskSize := 0;
     OSDiskSKU := None;
     DataDiskSize := 0;
     DataDiskSKU := None;
     AssignPublicIP := true;
     Tags := ∅ |}.

Definition example_config : config := resolved_config "sub".

(** A provider that sees a secret holding the subscription, and an
    environment in which the fallback variable of the subscription is
    set as well. *)
Definition subscription_secret : providerconfigtypes.SecretKeyRef :=
  {| providerconfigtypes.Namespace := "kube-system";
     providerconfigtypes.SecretName := "machine-controller-azure";
     providerconfigtypes.Key := "subscriptionID" |}.

Definition secret_provider : provider :=
  {| configVarResolver :=
       {| providerconfig.secrets := fun ref =>
            if decide (ref = subscription_secret) then Some "sub-from-secret" else None;
          providerconfig.environ := {[ envSubscriptionID := "sub-from-env" ]} |} |}.

(** [example_rawConfig] with the subscription given by the secret and
    no literal. *)
Definition secret_rawConfig : azuretypes.RawConfig :=
  {| azuretypes.SubscriptionID :=
       {| providerconfigtypes.Value := "";
          providerconfigtypes.SecretKeyRef_of := Some subscription_secret |};
     azuretypes.TenantID := azuretypes.TenantID example_rawConfig;
     azuretypes.ClientID := azuretypes.ClientID example_rawConfig;
     azuretypes.ClientSecret := azuretypes.ClientSecret example_rawConfig;
     azuretypes.Location := azuretypes.Location example_rawConfig;
     azuretypes.ResourceGroup := azuretypes.ResourceGroup example_rawConfig;
     azuretypes.VNetResourceGroup := azuretypes.VNetResourceGroup example_rawConfig;
     azuretypes.VMSize := azuretypes.VMSize example_rawConfig;
     azuretypes.VNetName := azuretypes.VNetName example_rawConfig;
     azuretypes.SubnetName := azuretypes.SubnetName example_rawConfig;
     azuretypes.LoadBalancerSku := azuretypes.LoadBalancerSku example_rawConfig;
     azuretypes.RouteTableName := azuretypes.RouteTableName example_rawConfig;
     azuretypes.AvailabilitySet := azuretypes.AvailabilitySet example_rawConfig;
     azuretypes.AssignAvailabilitySet := None;
     azuretypes.SecurityGroupName := azuretypes.SecurityGroupName example_rawConfig;
     azuretypes.Zones := [];
     azuretypes.ImagePlan_of := None;
     azuretypes.ImageReference_of := None;
     azuretypes.ImageID := azuretypes.ImageID example_rawConfig;
     azuretypes.OSDiskSize := 0;
     azuretypes.OSDiskSKU := None;
     azuretypes.DataDiskSize := 0;
     azuretypes.DataDiskSKU := None;
     azuretypes.AssignPublicIP := azuretypes.AssignPublicIP example_rawConfig;
     azuretypes.Tags := ∅ |}.

Definition secret_pconfig : providerconfigtypes.Config azuretypes.RawConfig :=
  {| providerconfigtypes.OperatingSystem_of := providerconfigtypes.OperatingSystemUbuntu;
     providerconfigtypes.OperatingSystemSpec_Raw := Some "{}";
     providerconfigtypes.CloudProviderSpec := Ok secret_rawConfig;
     providerconfigtypes.Network :=
       {| providerconfigtypes.GetIPFamily := util.IPv4 |} |}.

(** A cloud that holds the virtual machine of [example_machine] and
    reports the instance view [view]. *)
Definition example_vm : compute.VirtualMachine :=
  {| compute.ID := Some "/virtualMachines/worker-1";
     compute.Name := Some "worker-1";
     compute.Location := Some "westeurope";
     compute.Plan_of := None;
     compute.VirtualMachineProperties_of := Some
       {| compute.HardwareProfile_VMSize := Some "Standard_B2s";
          compute.NetworkProfile_of := Some
            {| compute.NetworkInterfaces := Some
                 [ {| compute.NetworkInterfaceReference_ID :=
                        Some "/networkInterfaces/worker-1-netiface";
                      compute.Primary := Some true |} ] |};
          compute.OsProfile := None;
          compute.StorageProfile_of := None;
          compute.AvailabilitySet := None |};
     compute.Tags := Some {[ machineUIDTag := Some "uid-1" ]};
     compute.Zones := None |}.

Definition example_disk : compute.Disk :=
  {| compute.Disk_Name := Some "worker-1-osdisk";
     compute.Disk_Tags := Some {[ machineUIDTag := Some "uid-1" ]} |}.

Definition cloud_with_vm (view : compute.VirtualMachineInstanceView)
    (fails : Op -> bool) : cloud :=
  {| cloud_vms := [example_vm]; cloud_disks := [example_disk];
     cloud_view := view; cloud_fails := fails |}.

(** [Create] of the dual-stack machine, without finalizers, against
    the empty cloud. *)
Definition dual_stack_Create : Run (Err azureVM) cloud :=
  run the_cloud (Create example_provider (example_machine []) "userdata")
    (example_machine []) empty_cloud.

(** [MigrateUID] to the UID "uid-2" of a Machine that carries the
    five finalizers, against a cloud that holds its machine and disk;
    the same call once more, on what the first left; and the call for a
    Machine without finalizers. *)
Definition all_finalizers : list string :=
  [finalizerPublicIP; finalizerPublicIPv6; finalizerNIC; finalizerDisks; finalizerVM].

(** [Create] of the same Machine, to compare the calls. *)
Definition Create_before_MigrateUID : Run (Err azureVM) cloud :=
  run the_cloud (Create example_provider (example_machine []) "userdata")
    (example_machine []) empty_cloud.

Definition first_MigrateUID : Run (option error) cloud :=
  run the_cloud (MigrateUID example_provider (example_machine all_finalizers) "uid-2")
    (example_machine all_finalizers) (cloud_with_vm running_view no_failures).

Definition second_MigrateUID : Run (option error) cloud :=
  run the_cloud (MigrateUID example_provider (machine first_MigrateUID) "uid-2")
    (machine first_MigrateUID) (service first_MigrateUID).

Definition bare_MigrateUID : Run (option error) cloud :=
  run the_cloud (MigrateUID example_provider (example_machine []) "uid-2")
    (example_machine []) (cloud_with_vm running_view no_failures).

(** [Cleanup] of a Machine that carries the four finalizers of a
    created machine, against a cloud that holds its machine and disk
    and fails the deletion of disks; and [Cleanup] once more, on what
    the first left, the service being healthy again. *)
Definition created_finalizers : list string :=
  [finalizerPublicIP; finalizerNIC; finalizerDisks; finalizerVM].

Definition interrupted_Cleanup : Run (bool * option error) cloud :=
  run the_cloud (Cleanup example_provider (example_machine created_finalizers))
    (example_machine created_finalizers) (cloud_with_vm running_view disk_deletion_fails).

Definition healthy (s : cloud) : cloud :=
  {| cloud_vms := cloud_vms s; cloud_disks := cloud_disks s;
     cloud_view := cloud_view s; cloud_fails := no_failures |}.

Definition resumed_Cleanup : Run (bool * option error) cloud :=
  run the_cloud (Cleanup example_provider (machine interrupted_Cleanup))
    (machine interrupted_Cleanup) (healthy (service interrupted_Cleanup)).

(** [Cleanup] of the same Machine when its virtual machine was deleted
    by hand and its disk is still there. *)
Definition vanished_cloud : cloud :=
  {| cloud_vms := []; cloud_disks := [example_disk];
     cloud_view := running_view; cloud_fails := no_failures |}.

Definition vanished_Cleanup : Run (bool * option error) cloud :=
  run the_cloud (Cleanup example_provider (example_machine created_finalizers))
    (example_machine created_finalizers) vanished_cloud.

(** A kubeconfig with one cluster. *)
Definition example_kubeconfig : helper.Config :=
  {| helper.Clusters :=
       {[ "prod" := Some {| helper.Server := "https://10.0.0.1:6443";
                            helper.CertificateAuthorityData := "-----BEGIN CERTIFICATE-----" |} ]} |}.

(** A kubeconfig whose only entry is a nil pointer. *)
Definition nil_entry_kubeconfig : helper.Config :=
  {| helper.Clusters := {[ "prod" := None ]} |}.

End simulation.

(** ** Example values *)

Module examples.
Import clusterv1alpha1 azure.

(** An object without annotations and labels. *)
Definition fresh_object : metav1.Object :=
  {| metav1.Annotations := None; metav1.Labels := None |}.

Definition feature_gates : gmap string bool :=
  {[ "RotateKubeletServerCertificate" := true ]}.

Definition kubelet_flags : gmap consts.KubeletFlags string :=
  {[ "ExternalCloudProvider" := "true" ]}.

(** Annotations with one setting of the kubelet. *)
Definition config_annotations : gmap string string :=
  {[ "v1.kubelet-config.machine-controller.kubermatic.io/KubeReserved" := "cpu=200m" ]}.

(** Annotations with a feature gate whose value is no boolean. *)
Definition gate_annotations : gmap string string :=
  {[ "v1.kubelet-featuregates.machine-controller.kubermatic.io/NodeSwap" := "yes" ]}.

(** The provider specification of [simulation.example_pconfig] for a
    Flatcar machine. *)
Definition flatcar_pconfig : providerconfigtypes.Config azuretypes.RawConfig :=
  {| providerconfigtypes.OperatingSystem_of := providerconfigtypes.OperatingSystemFlatcar;
     providerconfigtypes.OperatingSystemSpec_Raw := Some "{}";
     providerconfigtypes.CloudProviderSpec := Ok simulation.example_rawConfig;
     providerconfigtypes.Network :=
       {| providerconfigtypes.GetIPFamily := util.IPv4 |} |}.

Definition flatcar_profile : compute.StorageProfile :=
  {| compute.ImageReference_of := Some
       {| compute.ImageReference_ID := None;
          compute.Publisher := Some "kinvolk";
          compute.Offer := Some "flatcar-container-linux";
          compute.Sku := Some "stable";
          compute.Version := Some "2905.2.5" |};
     compute.OsDisk := None;
     compute.DataDisks := None |}.

(** The SKU of a size of virtual machine that lists zones 1 and 2 and
    grants ultra disks in zone 1 only. *)
Definition zonal_sku : skus.ResourceSku :=
  {| skus.ResourceSku_Name := Some "Standard_D2s_v3";
     skus.ResourceSku_Capabilities := Some
       [ {| skus.Capability_Name := Some "PremiumIO";
            skus.Capability_Value := Some "True" |} ];
     skus.ResourceSku_LocationInfo := Some
       [ {| skus.LocationInfo_Zones := Some ["1"; "2"];
            skus.LocationInfo_ZoneDetails := Some
              [ {| skus.ZoneDetails_Name := Some ["1"];
                   skus.ZoneDetails_Capabilities := Some
                     [ {| skus.Capability_Name := Some "UltraSSDAvailable";
                          skus.Capability_Value := Some "True" |} ] |} ] |} ] |}.

(** A remote service that answers every question of [Validate]. *)
Definition agreeable : validation.Oracle :=
  fun q =>
    match q return Err (validation.LookupVal q) with
    | validation.provider_call o => (simulation.cloud_answer o simulation.empty_cloud).1
    | validation.getVirtualNetwork _ => Ok tt
    | validation.getSubnet _ => Ok tt
    | validation.getSKU _ => Ok zonal_sku
    end.

(** [json.Marshal] left out: a marshaller that returns nothing. *)
Definition no_Marshal : helper.dockerConfig -> Err string :=
  fun _ => Ok "".

(** A Flatcar Machine without finalizers, and [Create] for it against
    the simulated service. *)
Definition flatcar_machine : Machine :=
  {| Name := "worker-2"; UID := "uid-7"; Finalizers := [];
     Spec := {| ProviderSpec_of := {| Value := Some (Ok examples.flatcar_pconfig) |} |} |}.

Definition flatcar_Create : Run (Err azureVM) simulation.cloud :=
  run simulation.the_cloud (Create simulation.example_provider flatcar_machine "userdata")
    flatcar_machine simulation.empty_cloud.

(** The virtual machine [Create] asks for in that run. *)
Definition flatcar_vmSpec : compute.VirtualMachine :=
  Create_vmSpec simulation.example_config examples.flatcar_pconfig flatcar_machine
    "userdata" "ssh-rsa AAAA"
    {| network.Interface_ID := Some "/networkInterfaces/worker-2-netiface";
       network.IPConfigurations := None |}
    examples.flatcar_profile.

End examples.

(** * Properties *)

Import clusterv1alpha1 azure.

(** ** [AddDefaults] *)

(** C10. [AddDefaults] is pure: against every service and record
    store it returns the specification it was given and no error, it
    makes no call, and it leaves the Machine record and the service as
    they were.  It is idempotent: applying it to its own result runs
    and returns exactly as applying it once. *)
Theorem AddDefaults_pure_idempotent {S} (h : Handler S) (p : provider) (spec : MachineSpec)
    (m : Machine) (s : S) :
  let r := run h (AddDefaults p spec) m s in
  outcome r = Returned (Ok spec)
  /\ trace r = []
  /\ machine r = m
  /\ service r = s
  /\ run h (AddDefaults_twice p spec) m s = r.
Proof. repeat split. Qed.

(** ** [strings.Replace] *)

Lemma strip_prefix_app (p rest : string) :
  strings.strip_prefix p (p +:+ rest) = Some rest.
Proof.
  induction p as [|a p IH]; simpl; [reflexivity|].
  rewrite Ascii.eqb_refl. exact IH.
Qed.

Lemma strip_prefix_Some (p s rest : string) :
  strings.strip_prefix p s = Some rest -> s = p +:+ rest.
Proof.
  revert s. induction p as [|a p IH]; intros s H; simpl in *.
  - destruct s; injection H as <-; reflexivity.
  - destruct s as [|b s]; [discriminate|].
    destruct (Ascii.eqb a b) eqn:E; [|discriminate].
    apply Ascii.eqb_eq in E. subst b.
    change (String a p +:+ rest) with (String a (p +:+ rest)).
    f_equal. apply IH, H.
Qed.

(** Skipping the rest of a match goes on behind it. *)
Lemma replace_from_skip (old new p rest : string) :
  strings.replace_from old new (String.length p) (p +:+ rest)
  = strings.replace_from old new 0 rest.
Proof.
  induction p as [|a p IH]; simpl.
  - destruct rest; reflexivity.
  - exact IH.
Qed.

(** A match at the head of the input is replaced and the scan goes on
    behind it: matches do not overlap. *)
Lemma ReplaceAll_match (old new rest : string) :
  old <> "" ->
  strings.ReplaceAll (old +:+ rest) old new = new +:+ strings.ReplaceAll rest old new.
Proof.
  intros Hne. unfold strings.ReplaceAll.
  destruct old as [|a old]; [congruence|].
  change (String a old +:+ rest) with (String a (old +:+ rest)).
  cbn [strings.replace_from].
  change (String a (old +:+ rest)) with (String a old +:+ rest).
  rewrite strip_prefix_app.
  f_equal.
  replace (String.length (String a old) - 1) with (String.length old)
    by (simpl; lia).
  apply replace_from_skip.
Qed.

(** A byte that starts no match is kept. *)
Lemma ReplaceAll_keep (old new : string) (c : ascii) (s : string) :
  strings.strip_prefix old (String c s) = None ->
  strings.ReplaceAll (String c s) old new = String c (strings.ReplaceAll s old new).
Proof. intros H. unfold strings.ReplaceAll. simpl. simpl in H. rewrite H. reflexivity. Qed.

Example ReplaceAll_server :
  strings.ReplaceAll "https://10.0.0.1:6443" "https://" "" = "10.0.0.1:6443".
Proof. reflexivity. Qed.

Example ReplaceAll_twice :
  strings.ReplaceAll "https://a.https://b" "https://" "" = "a.b".
Proof. reflexivity. Qed.

(** A string that holds no match is left as it is. *)
Lemma Contains_cons (c : ascii) (s old : string) :
  strings.Contains (String c s) old = false ->
  strings.strip_prefix old (String c s) = None /\ strings.Contains s old = false.
Proof.
  cbn [strings.Contains]. destruct (strings.strip_prefix old (String c s)); [discriminate|].
  auto.
Qed.

Lemma ReplaceAll_absent (s old new : string) :
  strings.Contains s old = false -> strings.ReplaceAll s old new = s.
Proof.
  induction s as [|c s IH]; intros H.
  - reflexivity.
  - apply Contains_cons in H as [Hp Hs].
    rewrite ReplaceAll_keep by exact Hp. by rewrite IH.
Qed.

(** ** Every occurrence removed *)

Lemma append_assoc (s1 s2 s3 : string) : (s1 +:+ s2) +:+ s3 = s1 +:+ (s2 +:+ s3).
Proof.
  induction s1 as [|c s1 IH]; [reflexivity|].
  change (String c ((s1 +:+ s2) +:+ s3) = String c (s1 +:+ (s2 +:+ s3))). by rewrite IH.
Qed.

Lemma length_append (s1 s2 : string) :
  String.length (s1 +:+ s2) = String.length s1 + String.length s2.
Proof.
  induction s1 as [|c s1 IH]; [reflexivity|].
  change (S (String.length (s1 +:+ s2)) = S (String.length s1 + String.length s2)).
  by rewrite IH.
Qed.

Lemma append_cons (c : ascii) (s x : string) : String c s +:+ x = String c (s +:+ x).
Proof. reflexivity. Qed.

Lemma append_nil (x : string) : "" +:+ x = x.
Proof. reflexivity. Qed.

Lemma strip_prefix_app_r (p s rest x : string) :
  strings.strip_prefix p s = Some rest ->
  strings.strip_prefix p (s +:+ x) = Some (rest +:+ x).
Proof.
  intros H. apply strip_prefix_Some in H. subst s.
  rewrite append_assoc. apply strip_prefix_app.
Qed.

Lemma Contains_empty (old : string) : old <> "" -> strings.Contains "" old = false.
Proof. by destruct old. Qed.

Lemma Join_cons (c : ascii) (piece : string) (pieces : list string) (sep : string) :
  strings.Join (String c piece :: pieces) sep = String c (strings.Join (piece :: pieces) sep).
Proof. by destruct pieces. Qed.

Lemma Join_behind (piece : string) (pieces : list string) (sep : string) :
  pieces <> [] ->
  strings.Join (piece :: pieces) sep = piece +:+ sep +:+ strings.Join pieces sep.
Proof. by destruct pieces. Qed.

(** The scan of [strings.Replace] cuts its input into pieces without a
    match. *)
Lemma ReplaceAll_pieces (old : string) (n : nat) (s : string) :
  old <> "" -> String.length s <= n ->
  exists pieces,
    pieces <> []
    /\ s = strings.Join pieces old
    /\ Forall (fun piece => strings.Contains piece old = false) pieces
    /\ strings.ReplaceAll s old "" = strings.Join pieces "".
Proof.
  intros Hne. revert s. induction n as [|n IH]; intros s Hlen.
  - destruct s; [|simpl in Hlen; lia].
    exists [""]. split_and!; try done.
    apply Forall_cons. split; [by apply Contains_empty | by apply Forall_nil].
  - destruct s as [|c s].
    { exists [""]. split_and!; try done.
      apply Forall_cons. split; [by apply Contains_empty | by apply Forall_nil]. }
    destruct (strings.strip_prefix old (String c s)) as [rest|] eqn:E.
    + apply strip_prefix_Some in E.
      assert (Hrest : String.length rest <= n).
      { apply (f_equal String.length) in E. rewrite length_append in E.
        destruct old; [done|]. simpl in *. lia. }
      destruct (IH rest Hrest) as (pieces & Hp & Hs & Hall & Hr).
      exists ("" :: pieces). split_and!; [done | | |].
      * rewrite Join_behind by done. rewrite E. simpl. by rewrite <- Hs.
      * apply Forall_cons. split; [by apply Contains_empty | done].
      * rewrite Join_behind by done. rewrite E, ReplaceAll_match by done.
        simpl. exact Hr.
    + destruct (IH s ltac:(simpl in Hlen; lia)) as (pieces & Hp & Hs & Hall & Hr).
      destruct pieces as [|piece pieces]; [done|].
      exists (String c piece :: pieces). split_and!; [done | | |].
      * rewrite Join_cons. by rewrite <- Hs.
      * apply Forall_cons in Hall as [Hpiece Hall].
        apply Forall_cons. split; [|done].
        cbn [strings.Contains].
        destruct (strings.strip_prefix old (String c piece)) as [rest|] eqn:E'; [|done].
        exfalso.
        destruct pieces as [|piece' pieces].
        -- simpl in Hs. subst s. by rewrite E in E'.
        -- rewrite Join_behind in Hs by done. subst s.
           apply (strip_prefix_app_r _ _ _ (old +:+ strings.Join (piece' :: pieces) old)) in E'.
           change (String c piece +:+ old +:+ strings.Join (piece' :: pieces) old)
             with (String c (piece +:+ old +:+ strings.Join (piece' :: pieces) old)) in E'.
           by rewrite E in E'.
      * rewrite ReplaceAll_keep by done. rewrite Join_cons. by rewrite Hr.
Qed.

Lemma ReplaceAll_occurrences_removed (old s : string) :
  old <> "" -> strings.occurrences_removed old s (strings.ReplaceAll s old "").
Proof.
  intros Hne.
  destruct (ReplaceAll_pieces old (String.length s) s Hne (le_n _))
    as (pieces & _ & Hs & Hall & Hr).
  by exists pieces.
Qed.

(** No match of "https://" starts in a piece that holds none and ends
    in the match behind it: no end of "https://" is a start of it. *)
Lemma scheme_starts_behind (c : ascii) (piece rest : string) :
  strings.Contains (String c piece) "https://" = false ->
  strings.strip_prefix "https://" (String c piece +:+ "https://" +:+ rest) = None.
Proof.
  intros H. apply Contains_cons in H as [H _].
  destruct piece as [|c2 [|c3 [|c4 [|c5 [|c6 [|c7 [|c8 piece]]]]]]];
    rewrite ?append_cons, ?append_nil; cbn [strings.strip_prefix] in H |- *;
    repeat match goal with
           | |- context [Ascii.eqb ?a ?b] =>
               destruct (Ascii.eqb_spec a b) as [Heq|Hne];
               [try discriminate Heq; subst|try congruence];
               cbn [strings.strip_prefix] in H |- *; try done
           end.
Qed.

Lemma ReplaceAll_piece (piece rest : string) :
  strings.Contains piece "https://" = false ->
  strings.ReplaceAll (piece +:+ "https://" +:+ rest) "https://" ""
  = piece +:+ strings.ReplaceAll rest "https://" "".
Proof.
  induction piece as [|c piece IH]; intros H.
  - rewrite !append_nil. by rewrite ReplaceAll_match.
  - pose proof (scheme_starts_behind c piece rest H) as Hnone.
    apply Contains_cons in H as [_ H].
    change (String c piece +:+ "https://" +:+ rest)
      with (String c (piece +:+ "https://" +:+ rest)) in Hnone |- *.
    rewrite ReplaceAll_keep by exact Hnone. by rewrite IH.
Qed.

(** With every occurrence of "https://" removed, a string is what
    [strings.Replace] makes of it and nothing else. *)
Lemma occurrences_removed_ReplaceAll (s r : string) :
  strings.occurrences_removed "https://" s r -> r = strings.ReplaceAll s "https://" "".
Proof.
  intros (pieces & -> & Hall & ->).
  induction Hall as [|piece pieces Hpiece Hall IH]; [reflexivity|].
  destruct pieces as [|piece' pieces].
  - simpl. by rewrite ReplaceAll_absent.
  - rewrite (Join_behind piece _ ""), (Join_behind piece _ "https://") by done.
    rewrite append_nil, ReplaceAll_piece by done.
    by rewrite <- IH.
Qed.

(** ** [GetServerAddressFromKubeconfig] *)

Lemma map_size_1 {A} (m : gmap string A) :
  size m = 1 -> exists i x, m = {[i := x]}.
Proof.
  intros H.
  pose proof (length_map_to_list m) as Hlen. rewrite H in Hlen.
  destruct (map_to_list m) as [|[i x] [|? ?]] eqn:E; simpl in Hlen; try discriminate.
  exists i, x.
  rewrite <- (list_to_map_to_list m), E. reflexivity.
Qed.

(** C9. For a kubeconfig that is not nil and whatever order the range
    over [Clusters] takes: the function returns an error exactly when
    the map does not hold exactly one entry.  With exactly one entry
    that is not nil it returns, with no error, the [Server] of that
    entry with every occurrence of "https://" removed: the server is
    made of pieces that hold no "https://" with one "https://" between
    each piece and the next, the address returned is the pieces one
    behind the other, and it is the only string of which this can be
    said.  With one entry that is nil it panics.  The outcome is the
    same for every order, and the error "no server address found"
    after the loop is never returned.  A nil kubeconfig makes the
    function panic. *)
Theorem GetServerAddressFromKubeconfig_spec
    (kubeconfig : helper.Config) (order : list (string * option helper.Cluster)) :
  helper.range_order kubeconfig order ->
  let r := helper.GetServerAddressFromKubeconfig_ranging (Some kubeconfig) order in
  ((exists err, r = Returned (Error err)) <-> size (helper.Clusters kubeconfig) <> 1)
  /\ (size (helper.Clusters kubeconfig) = 1 ->
      exists name entry,
        helper.Clusters kubeconfig = {[name := entry]}
        /\ match entry with
           | Some cluster =>
               exists address,
                 r = Returned (Ok address)
                 /\ strings.occurrences_removed "https://" (helper.Server cluster) address
                 /\ forall address',
                      strings.occurrences_removed "https://" (helper.Server cluster) address' ->
                      address' = address
           | None => r = Panicked helper.nil_dereference
           end)
  /\ r = helper.GetServerAddressFromKubeconfig (Some kubeconfig)
  /\ r <> Returned (Error (errors_New "no server address found"))
  /\ helper.GetServerAddressFromKubeconfig_ranging None order
     = Panicked helper.nil_dereference.
Proof.
  intros Horder r. subst r.
  unfold helper.GetServerAddressFromKubeconfig,
    helper.GetServerAddressFromKubeconfig_ranging, helper.range_order in *.
  cbn [helper.entries].
  destruct (Nat.eqb (size (helper.Clusters kubeconfig)) 1) eqn:E; simpl.
  - apply Nat.eqb_eq in E.
    destruct (map_size_1 _ E) as (name & entry & Hm).
    rewrite Hm in Horder |- *.
    rewrite map_to_list_singleton in Horder |- *.
    apply Permutation_singleton_r in Horder. subst order. simpl.
    split_and!; try done.
    + split; [|intros Hsize; exfalso; apply Hsize, map_size_singleton].
      intros [err Herr]. by destruct entry.
    + intros _. exists name, entry. split; [reflexivity|].
      destruct entry as [cluster|]; [|reflexivity].
      exists (strings.ReplaceAll (helper.Server cluster) "https://" "").
      split_and!; [reflexivity | by apply ReplaceAll_occurrences_removed |].
      intros address' H. by apply occurrences_removed_ReplaceAll.
    + by destruct entry.
  - apply Nat.eqb_neq in E. split_and!; try done.
    split; [done|]. intros _. by eexists.
Qed.

Lemma GetServerAddressFromKubeconfig_spec_witness :
  helper.range_order simulation.example_kubeconfig
    (map_to_list (helper.Clusters simulation.example_kubeconfig))
  /\ helper.GetServerAddressFromKubeconfig_ranging (Some simulation.example_kubeconfig)
       (map_to_list (helper.Clusters simulation.example_kubeconfig))
     = Returned (Ok "10.0.0.1:6443").
Proof.
  assert (Horder : helper.range_order simulation.example_kubeconfig
                     (map_to_list (helper.Clusters simulation.example_kubeconfig)))
    by (unfold helper.range_order; reflexivity).
  split; [exact Horder|].
  pose proof (GetServerAddressFromKubeconfig_spec simulation.example_kubeconfig
                (map_to_list (helper.Clusters simulation.example_kubeconfig)) Horder)
    as (_ & Hone & _).
  destruct (Hone (map_size_singleton _ _)) as (name & entry & Hm & Hentry).
  unfold simulation.example_kubeconfig in Hm. cbn [helper.Clusters] in Hm.
  symmetry in Hm. apply map_singleton_inj in Hm as [-> ->].
  destruct Hentry as (address & Hr & _ & Hunique). rewrite Hr. do 2 f_equal.
  symmetry. apply Hunique. exists [""; "10.0.0.1:6443"].
  split_and!; [reflexivity | | reflexivity].
  repeat (apply Forall_cons; split; [reflexivity|]). by apply Forall_nil.
Defined.

(** C9, as stated, fails on a kubeconfig whose map holds exactly one
    entry, a nil pointer: the function does not return a server
    address, it panics. *)
Lemma GetServerAddressFromKubeconfig_nil_cluster :
  size (helper.Clusters simulation.nil_entry_kubeconfig) = 1
  /\ helper.GetServerAddressFromKubeconfig (Some simulation.nil_entry_kubeconfig)
     = Panicked helper.nil_dereference
  /\ ~ exists address,
         helper.GetServerAddressFromKubeconfig (Some simulation.nil_entry_kubeconfig)
         = Returned (Ok address).
Proof.
  split; [apply map_size_singleton|].
  split; [vm_compute; reflexivity|]. intros [address H]. vm_compute in H. discriminate H.
Qed.

Example GetServerAddressFromKubeconfig_example :
  helper.GetServerAddressFromKubeconfig (Some simulation.example_kubeconfig)
  = Returned (Ok "10.0.0.1:6443").
Proof. vm_compute. reflexivity. Qed.

(** ** Configuration *)

Lemma GetConfigVarStringValue_by_precedence cvr configVar :
  providerconfig.by_precedence cvr configVar None
    (providerconfig.GetConfigVarStringValue cvr configVar).
Proof.
  unfold providerconfig.by_precedence, providerconfig.GetConfigVarStringValue.
  destruct (String.eqb_spec (providerconfigtypes.Value configVar) "") as [-> | Hne]; simpl.
  - repeat split; try congruence.
    + intros _ ref ->. reflexivity.
    + intros _ ->. reflexivity.
  - repeat split; congruence.
Qed.

Lemma GetConfigVarStringValueOrEnv_by_precedence cvr configVar envVarName :
  providerconfig.by_precedence cvr configVar (Some envVarName)
    (providerconfig.GetConfigVarStringValueOrEnv cvr configVar envVarName).
Proof.
  unfold providerconfig.by_precedence, providerconfig.GetConfigVarStringValueOrEnv,
    providerconfig.is_set, providerconfig.GetConfigVarStringValue.
  destruct (String.eqb_spec (providerconfigtypes.Value configVar) "") as [-> | Hne]; simpl.
  - destruct (providerconfigtypes.SecretKeyRef_of configVar) as [ref|] eqn:E.
    + rewrite bool_decide_eq_true_2 by eauto.
      repeat split; congruence.
    + rewrite bool_decide_eq_false_2 by (intros [? ?]; discriminate).
      repeat split; congruence.
  - repeat split; congruence.
Qed.

(** The environment is not read for a field that is set. *)
Lemma GetConfigVarStringValueOrEnv_environ secrets env env' configVar envVarName :
  providerconfig.is_set configVar = true ->
  providerconfig.GetConfigVarStringValueOrEnv
    {| providerconfig.secrets := secrets; providerconfig.environ := env |} configVar envVarName
  = providerconfig.GetConfigVarStringValueOrEnv
      {| providerconfig.secrets := secrets; providerconfig.environ := env' |} configVar envVarName.
Proof.
  intros H. unfold providerconfig.GetConfigVarStringValueOrEnv. rewrite H. reflexivity.
Qed.

(** What a successful [getConfig] resolved its string fields from. *)
Lemma getConfig_Ok p provSpec c pconfig :
  getConfig p provSpec = Ok (c, pconfig) ->
  let cvr := configVarResolver p in
  exists rawCfg vnetResourceGroup,
    Value provSpec = Some (Ok pconfig)
    /\ providerconfigtypes.CloudProviderSpec pconfig = Ok rawCfg
    /\ providerconfig.GetConfigVarStringValueOrEnv cvr
         (azuretypes.SubscriptionID rawCfg) envSubscriptionID = Ok (SubscriptionID c)
    /\ providerconfig.GetConfigVarStringValueOrEnv cvr
         (azuretypes.TenantID rawCfg) envTenantID = Ok (TenantID c)
    /\ providerconfig.GetConfigVarStringValueOrEnv cvr
         (azuretypes.ClientID rawCfg) envClientID = Ok (ClientID c)
    /\ providerconfig.GetConfigVarStringValueOrEnv cvr
         (azuretypes.ClientSecret rawCfg) envClientSecret = Ok (ClientSecret c)
    /\ providerconfig.GetConfigVarStringValue cvr
         (azuretypes.ResourceGroup rawCfg) = Ok (ResourceGroup c)
    /\ providerconfig.GetConfigVarStringValue cvr
         (azuretypes.VNetResourceGroup rawCfg) = Ok vnetResourceGroup
    /\ VNetResourceGroup c
       = (if String.eqb vnetResourceGroup "" then ResourceGroup c else vnetResourceGroup)
    /\ providerconfig.GetConfigVarStringValue cvr
         (azuretypes.Location rawCfg) = Ok (Location c)
    /\ providerconfig.GetConfigVarStringValue cvr
         (azuretypes.VMSize rawCfg) = Ok (VMSize c)
    /\ providerconfig.GetConfigVarStringValue cvr
         (azuretypes.VNetName rawCfg) = Ok (VNetName c)
    /\ providerconfig.GetConfigVarStringValue cvr
         (azuretypes.SubnetName rawCfg) = Ok (SubnetName c)
    /\ providerconfig.GetConfigVarStringValue cvr
         (azuretypes.LoadBalancerSku rawCfg) = Ok (LoadBalancerSku c)
    /\ providerconfig.GetConfigVarStringValue cvr
         (azuretypes.RouteTableName rawCfg) = Ok (RouteTableName c)
    /\ providerconfig.GetConfigVarStringValue cvr
         (azuretypes.AvailabilitySet rawCfg) = Ok (AvailabilitySet c)
    /\ providerconfig.GetConfigVarStringValue cvr
         (azuretypes.SecurityGroupName rawCfg) = Ok (SecurityGroupName c)
    /\ providerconfig.GetConfigVarStringValue cvr
         (azuretypes.ImageID rawCfg) = Ok (ImageID c).
Proof.
  intros H cvr. subst cvr. unfold getConfig in H.
  destruct (Value provSpec) as [[pc|?]|] eqn:EV; try discriminate H.
  cbn [mbind Err_mbind Err_bind] in H.
  destruct (providerconfigtypes.OperatingSystemSpec_Raw pc); try discriminate H.
  destruct (providerconfigtypes.CloudProviderSpec pc) as [rawCfg|?] eqn:ER;
    try discriminate H.
  cbn [mbind Err_mbind Err_bind] in H.
  unfold wrapping in H.
  repeat match type of H with
         | context [providerconfig.GetConfigVarStringValueOrEnv ?a ?b ?d] =>
             let E := fresh "E" in
             destruct (providerconfig.GetConfigVarStringValueOrEnv a b d) eqn:E;
             cbn [mbind Err_mbind Err_bind] in H; try discriminate H
         | context [providerconfig.GetConfigVarStringValue ?a ?b] =>
             let E := fresh "E" in
             destruct (providerconfig.GetConfigVarStringValue a b) eqn:E;
             cbn [mbind Err_mbind Err_bind] in H; try discriminate H
         | context [providerconfig.GetConfigVarBoolValue ?a ?b] =>
             let E := fresh "E" in
             destruct (providerconfig.GetConfigVarBoolValue a b) eqn:E;
             cbn [mbind Err_mbind Err_bind] in H; try discriminate H
         end.
  injection H as <- <-. eexists rawCfg, _. simpl. split_and!; try eassumption; reflexivity.
Qed.

Lemma GetConfigVarBoolValue_by_precedence cvr configVar b set :
  providerconfig.GetConfigVarBoolValue cvr configVar = Ok (b, set) ->
  providerconfig.bool_by_precedence cvr configVar (Ok b).
Proof.
  unfold providerconfig.GetConfigVarBoolValue, providerconfig.bool_by_precedence.
  intros H.
  destruct (providerconfigtypes.BoolValue configVar) as [b'|].
  - injection H as <- <-. split_and!; [by intros ? [= <-] | done | done].
  - destruct (providerconfigtypes.BoolSecretKeyRef_of configVar) as [ref|].
    + split_and!; [done | | done]. intros _ ref' [= <-].
      destruct (providerconfig.lookup_secret cvr ref) as [v|e]; [|discriminate H].
      simpl in *. destruct (providerconfig.ParseBool v) as [b'|e]; [|discriminate H].
      simpl in H. by injection H as <- <-.
    + injection H as <- <-. by split_and!.
Qed.

(** What a successful [getConfig] took the other fields from. *)
Lemma getConfig_Ok_rest p provSpec c pconfig :
  getConfig p provSpec = Ok (c, pconfig) ->
  exists rawCfg set,
    Value provSpec = Some (Ok pconfig)
    /\ is_Some (providerconfigtypes.OperatingSystemSpec_Raw pconfig)
    /\ providerconfigtypes.CloudProviderSpec pconfig = Ok rawCfg
    /\ providerconfig.GetConfigVarBoolValue (configVarResolver p)
         (azuretypes.AssignPublicIP rawCfg) = Ok (AssignPublicIP c, set)
    /\ AssignAvailabilitySet c = azuretypes.AssignAvailabilitySet rawCfg
    /\ Zones c = azuretypes.Zones rawCfg
    /\ Tags c = azuretypes.Tags rawCfg
    /\ OSDiskSize c = azuretypes.OSDiskSize rawCfg
    /\ DataDiskSize c = azuretypes.DataDiskSize rawCfg
    /\ OSDiskSKU c = azuretypes.OSDiskSKU rawCfg
    /\ DataDiskSKU c = azuretypes.DataDiskSKU rawCfg.
Proof.
  intros H. unfold getConfig in H.
  destruct (Value provSpec) as [[pc|?]|] eqn:EV; try discriminate H.
  cbn [mbind Err_mbind Err_bind] in H.
  destruct (providerconfigtypes.OperatingSystemSpec_Raw pc) eqn:EO; try discriminate H.
  destruct (providerconfigtypes.CloudProviderSpec pc) as [rawCfg|?] eqn:ER;
    try discriminate H.
  cbn [mbind Err_mbind Err_bind] in H.
  unfold wrapping in H.
  repeat match type of H with
         | context [providerconfig.GetConfigVarStringValueOrEnv ?a ?b ?d] =>
             let E := fresh "E" in
             destruct (providerconfig.GetConfigVarStringValueOrEnv a b d) eqn:E;
             cbn [mbind Err_mbind Err_bind] in H; try discriminate H
         | context [providerconfig.GetConfigVarStringValue ?a ?b] =>
             let E := fresh "E" in
             destruct (providerconfig.GetConfigVarStringValue a b) eqn:E;
             cbn [mbind Err_mbind Err_bind] in H; try discriminate H
         | context [providerconfig.GetConfigVarBoolValue ?a ?b] =>
             let E := fresh "E" in
             destruct (providerconfig.GetConfigVarBoolValue a b) as [[b' set]|] eqn:E;
             cbn [mbind Err_mbind Err_bind] in H; try discriminate H
         end.
  injection H as <- <-. exists rawCfg, set. simpl.
  split_and!; try eassumption; try reflexivity.
  - by rewrite EO.
  - unfold storageTypePtr. by destruct (azuretypes.OSDiskSKU rawCfg).
  - unfold storageTypePtr. by destruct (azuretypes.DataDiskSKU rawCfg).
Qed.



(** The secret wins over the environment variable that is set. *)
Example secret_before_environment :
  providerconfig.Getenv (configVarResolver simulation.secret_provider) envSubscriptionID
  = "sub-from-env"
  /\ providerconfig.GetConfigVarStringValueOrEnv (configVarResolver simulation.secret_provider)
       (azuretypes.SubscriptionID simulation.secret_rawConfig) envSubscriptionID
     = Ok "sub-from-secret".
Proof. split; vm_compute; reflexivity. Qed.

(** ** [Create] with a configuration that does not resolve *)

(** C6. When the provider configuration of the Machine does not
    resolve, [Create] returns a [TerminalError] whose reason is
    [InvalidConfiguration]; it has made no call to the remote service
    and no change to the Machine record. *)
Theorem Create_invalid_configuration {S} (h : Handler S) (p : provider) (m : Machine)
    (userdata : string) (s : S) (err : error) :
  getConfig p (ProviderSpec_of (Spec m)) = Error err ->
  let r := run h (Create p m userdata) m s in
  outcome r = Returned (Error (TerminalError common.InvalidConfigurationMachineError
                                 "failed to parse MachineSpec, due to %v" err))
  /\ trace r = []
  /\ machine r = m
  /\ service r = s.
Proof.
  intros H. unfold Create. rewrite H. simpl. auto.
Qed.

Lemma Create_invalid_configuration_witness :
  getConfig simulation.example_provider
    (ProviderSpec_of (Spec simulation.unconfigured_machine))
  = Error (errors_New "machine.spec.providerconfig.value is nil")
  /\ trace (run simulation.the_cloud
             (Create simulation.example_provider simulation.unconfigured_machine "userdata")
             simulation.unconfigured_machine simulation.empty_cloud) = [].
Proof.
  split; [reflexivity|].
  apply (Create_invalid_configuration simulation.the_cloud simulation.example_provider
           simulation.unconfigured_machine "userdata" simulation.empty_cloud
           (errors_New "machine.spec.providerconfig.value is nil")).
  reflexivity.
Defined.

(** ** The status of an instance *)

(** Every instance view but the one with an empty, non-nil list of
    statuses is mapped to one of the four values without an error. *)
Lemma instanceViewStatus_total (iv : compute.VirtualMachineInstanceView) :
  compute.Statuses iv <> Some [] ->
  exists st, instanceViewStatus iv = Returned (st, None).
Proof.
  intros H. unfold instanceViewStatus.
  destruct (compute.Statuses iv) as [[|s1 [|s2 l]]|]; try congruence; simpl;
    repeat match goal with
           | |- context [match ?x with _ => _ end] => destruct x
           end; eauto.
Qed.

(** A code that is not recognised is mapped to [StatusUnknown]. *)
Lemma instanceViewStatus_unrecognised (s1 s2 : compute.InstanceViewStatus)
    (l : list compute.InstanceViewStatus) (code : string) :
  compute.Code s2 = Some code ->
  code <> "PowerState/running" -> code <> "PowerState/starting" ->
  instanceViewStatus {| compute.Statuses := Some (s1 :: s2 :: l) |}
  = Returned (instance.StatusUnknown, None).
Proof.
  intros Hc H1 H2. unfold instanceViewStatus. simpl. rewrite Hc.
  destruct (String.eqb_spec code ""); [reflexivity|].
  destruct (String.eqb_spec code "PowerState/running"); [congruence|].
  destruct (String.eqb_spec code "PowerState/starting"); [congruence|].
  reflexivity.
Qed.

Lemma instanceViewStatus_unrecognised_single (s1 : compute.InstanceViewStatus)
    (code : string) :
  compute.Code s1 = Some code ->
  code <> "ProvisioningState/deleting" ->
  instanceViewStatus {| compute.Statuses := Some [s1] |}
  = Returned (instance.StatusUnknown, None).
Proof.
  intros Hc H1. unfold instanceViewStatus. simpl. rewrite Hc.
  destruct (String.eqb_spec code ""); [reflexivity|].
  destruct (String.eqb_spec code "ProvisioningState/deleting"); [congruence|].
  reflexivity.
Qed.

(** C3, at the input the code fails on.  For an instance view whose
    list of statuses is empty and not nil, [getVMStatus] takes the
    branch for fewer than two entries and reads the first one: it
    panics, and so does [Get] for a machine that exists. *)
Theorem getVMStatus_empty_status_list_panics :
  instanceViewStatus {| compute.Statuses := Some [] |}
  = Panicked "index out of range [0] with length 0"
  /\ outcome (run simulation.the_cloud
               (Get simulation.example_provider (simulation.example_machine []))
               (simulation.example_machine [])
               (simulation.cloud_with_vm {| compute.Statuses := Some [] |}
                  simulation.no_failures))
     = Panicked "index out of range [0] with length 0".
Proof. split; vm_compute; reflexivity. Qed.

(** ** Runs *)

Lemma run_bind {S A B} (h : Handler S) (p : Prog A) (f : A -> Prog B) (m : Machine) (s : S) :
  run h (bind p f) m s = then_run (run h p m s) (fun a m' s' => run h (f a) m' s').
Proof.
  revert m s. induction p as [a|msg|o k IH|g k IH]; intros m s; simpl.
  - unfold then_run; simpl. destruct (run h (f a) m s); reflexivity.
  - reflexivity.
  - destruct (answer h o s) as [r s']. rewrite IH.
    unfold then_run, after; simpl.
    destruct (outcome (run h (k r) m s')); reflexivity.
  - destruct (persist h (g m) s) as [[err|] s']; rewrite IH;
      unfold then_run, after; simpl;
      match goal with
      | |- context [outcome ?r] => destruct (outcome r); reflexivity
      end.
Qed.

Lemma run_mbind {S A B} (h : Handler S) (p : Prog A) (f : A -> Prog B) (m : Machine) (s : S) :
  run h (p ≫= f) m s = then_run (run h p m s) (fun a m' s' => run h (f a) m' s').
Proof. apply run_bind. Qed.

(** A call followed by the test of its error. *)
Lemma run_try_call {S A} (h : Handler S) (o : Op) (onerr : error -> A)
    (k : OpVal o -> Prog A) (m : Machine) (s : S) :
  run h (try (call o) onerr k) m s
  = match answer h o s with
    | (Ok a, s') => after (Called o true) (run h (k a) m s')
    | (Error e, s') =>
        after (Called o false)
          {| outcome := Returned (onerr e); machine := m; service := s'; trace := [] |}
    end.
Proof.
  unfold try, call. simpl. destruct (answer h o s) as [[a|e] s']; reflexivity.
Qed.

(** An update of the record followed by the test of its error. *)
Lemma run_try_update {S A} (h : Handler S) (f : Machine -> Machine) (onerr : error -> A)
    (k : Machine -> Prog A) (m : Machine) (s : S) :
  run h (try (data_Update f) onerr k) m s
  = match persist h (f m) s with
    | (None, s') => after (Committed (Finalizers (f m))) (run h (k (f m)) (f m) s')
    | (Some e, s') =>
        after UpdateFailed
          {| outcome := Returned (onerr e); machine := m; service := s'; trace := [] |}
    end.
Proof.
  unfold try, data_Update. simpl. destruct (persist h (f m) s) as [[e|] s']; reflexivity.
Qed.

Lemma run_try {S A B} (h : Handler S) (p : Prog (Err A)) (onerr : error -> B)
    (k : A -> Prog B) (m : Machine) (s : S) :
  run h (try p onerr k) m s
  = then_run (run h p m s)
      (fun r m' s' =>
         match r with
         | Ok a => run h (k a) m' s'
         | Error e => {| outcome := Returned (onerr e); machine := m'; service := s'; trace := [] |}
         end).
Proof.
  unfold try. rewrite run_mbind. unfold then_run.
  destruct (outcome (run h p m s)) as [[a|e]|msg]; reflexivity.
Qed.

(** *** Programs that only call *)

Lemma calls_only_bind {A B} (allowed : Op -> bool) (p : Prog A) (f : A -> Prog B) :
  calls_only allowed p -> (forall a, calls_only allowed (f a)) ->
  calls_only allowed (bind p f).
Proof.
  intros Hp Hf. induction p as [a|msg|o k IH|g k IH]; simpl in *; try done.
  destruct Hp as [Ho Hk]. split; [exact Ho|]. intros r. apply IH, Hk.
Qed.

Lemma calls_only_try {A B} (allowed : Op -> bool) (p : Prog (Err A)) (onerr : error -> B)
    (k : A -> Prog B) :
  calls_only allowed p -> (forall a, calls_only allowed (k a)) ->
  calls_only allowed (try p onerr k).
Proof.
  intros Hp Hk. unfold try. apply calls_only_bind; [exact Hp|].
  intros [a|e]; [apply Hk | exact I].
Qed.

Lemma calls_only_call (allowed : Op -> bool) (o : Op) :
  allowed o = true -> calls_only allowed (call o).
Proof. intros H. simpl. split; [exact H | intros; exact I]. Qed.

(** A program that only calls leaves the record as it is, and its
    trace shows calls in [allowed] only. *)
Lemma calls_only_run {S A} (h : Handler S) (allowed : Op -> bool) (p : Prog A)
    (m : Machine) (s : S) :
  calls_only allowed p ->
  machine (run h p m s) = m /\ Forall (call_of allowed) (trace (run h p m s)).
Proof.
  revert s. induction p as [a|msg|o k IH|g k IH]; intros s Hp; simpl in *.
  - split; [reflexivity | constructor].
  - split; [reflexivity | constructor].
  - destruct Hp as [Ho Hk]. destruct (answer h o s) as [r s'].
    destruct (IH r s' (Hk r)) as [Hm Ht]. simpl. split; [exact Hm|].
    constructor; [exact Ho | exact Ht].
  - contradiction.
Qed.

(** *** Programs that always return *)

Lemma always_bind {A B} (Q : A -> Prop) (P : B -> Prop) (p : Prog A) (f : A -> Prog B) :
  always Q p -> (forall a, Q a -> always P (f a)) -> always P (bind p f).
Proof.
  intros Hp Hf. induction p as [a|msg|o k IH|g k IH]; simpl in *; try done.
  - apply Hf, Hp.
  - intros r. apply IH, Hp.
  - intros r. apply IH, Hp.
Qed.

Lemma always_try {A B} (P : B -> Prop) (p : Prog (Err A)) (onerr : error -> B)
    (k : A -> Prog B) :
  always (fun _ => True) p -> (forall e, P (onerr e)) -> (forall a, always P (k a)) ->
  always P (try p onerr k).
Proof.
  intros Hp He Hk. unfold try. eapply always_bind; [exact Hp|].
  intros [a|e] _; [apply Hk | apply He].
Qed.

Lemma always_call (o : Op) : always (fun _ => True) (call o).
Proof. simpl. auto. Qed.

Lemma always_run {S A} (h : Handler S) (P : A -> Prop) (p : Prog A) (m : Machine) (s : S) :
  always P p -> exists a, outcome (run h p m s) = Returned a /\ P a.
Proof.
  revert m s. induction p as [a|msg|o k IH|g k IH]; intros m s Hp; simpl in *; try done.
  - eauto.
  - destruct (answer h o s) as [r s']. simpl. apply IH, Hp.
  - destruct (persist h (g m) s) as [[e|] s']; simpl; apply IH, Hp.
Qed.

(** ** The addresses of an instance *)

Lemma Split_nonempty (s : string) (sep : ascii) : strings.Split s sep <> [].
Proof.
  induction s as [|c s IH]; simpl; [discriminate|].
  destruct (Ascii.eqb c sep); [discriminate|].
  destruct (strings.Split s sep); discriminate.
Qed.

Lemma last_segment_Some (id : string) :
  exists name, last (strings.Split id "/"%char) = Some name /\ last_segment id = Ret name.
Proof.
  unfold last_segment.
  destruct (last (strings.Split id "/"%char)) as [name|] eqn:E; [eauto|].
  apply last_None in E. exfalso. eapply Split_nonempty, E.
Qed.

Lemma always_last_segment (id : string) : always (fun _ => True) (last_segment id).
Proof. destruct (last_segment_Some id) as (name & _ & ->). exact I. Qed.

Lemma calls_only_last_segment allowed (id : string) : calls_only allowed (last_segment id).
Proof. destruct (last_segment_Some id) as (name & _ & ->). exact I. Qed.

Create HintDb prog discriminated.
#[local] Hint Resolve always_call always_last_segment calls_only_last_segment : prog.

(** One tactic for the routine part of [always] and [calls_only]
    goals: cases of the program, the test of an error after a call, and
    the sub-programs that the hint database [prog] knows. *)
Ltac prog_step :=
  match goal with
  | |- True => exact I
  | |- always _ (Ret _) => cbn [always]
  | |- calls_only _ (Ret _) => exact I
  | |- calls_only _ (Panic _) => exact I
  | |- always _ (try _ _ _) => apply always_try; [| intros |intros]
  | |- calls_only _ (try _ _ _) => apply calls_only_try; [|intros]
  | |- calls_only _ (call _) => apply calls_only_call; reflexivity
  | |- always _ (match ?x with _ => _ end) => destruct x eqn:?
  | |- calls_only _ (match ?x with _ => _ end) => destruct x eqn:?
  | |- always _ (if ?x then _ else _) => destruct x eqn:?
  | |- calls_only _ (if ?x then _ else _) => destruct x eqn:?
  | |- always _ (mbind _ (last_segment ?id)) =>
      destruct (last_segment_Some id) as (? & _ & ->); cbn [mbind Prog_mbind bind]
  | |- calls_only _ (mbind _ (last_segment ?id)) =>
      destruct (last_segment_Some id) as (? & _ & ->); cbn [mbind Prog_mbind bind]
  | |- always _ (mbind _ _) => eapply always_bind; [|intros]
  | |- calls_only _ (mbind _ _) => apply calls_only_bind; [|intros]
  | |- always _ _ => solve [eauto with prog]
  | |- calls_only _ _ => solve [eauto with prog]
  end.

Ltac prog_solve := repeat prog_step.

Lemma always_getIPAddressStrings c addrName :
  always (fun _ => True) (getIPAddressStrings c addrName).
Proof. unfold getIPAddressStrings. prog_solve. Qed.

Lemma calls_only_getIPAddressStrings c addrName :
  calls_only reads (getIPAddressStrings c addrName).
Proof. unfold getIPAddressStrings. prog_solve. Qed.

Lemma always_getInternalIPAddresses c inetface ipconfigName :
  always (fun _ => True) (getInternalIPAddresses c inetface ipconfigName).
Proof. unfold getInternalIPAddresses. prog_solve. Qed.

Lemma calls_only_getInternalIPAddresses c inetface ipconfigName :
  calls_only reads (getInternalIPAddresses c inetface ipconfigName).
Proof. unfold getInternalIPAddresses. prog_solve. Qed.

#[local] Hint Resolve always_getIPAddressStrings calls_only_getIPAddressStrings
  always_getInternalIPAddresses calls_only_getInternalIPAddresses : prog.

Lemma always_getNICIPAddresses_confs c ifaceName confs ipAddresses :
  always (fun _ => True) (getNICIPAddresses_confs c ifaceName confs ipAddresses).
Proof.
  revert ipAddresses. induction confs as [|conf confs IH]; intros ipAddresses; [exact I|].
  cbn [getNICIPAddresses_confs]. prog_solve.
Qed.

Lemma calls_only_getNICIPAddresses_confs c ifaceName confs ipAddresses :
  calls_only reads (getNICIPAddresses_confs c ifaceName confs ipAddresses).
Proof.
  revert ipAddresses. induction confs as [|conf confs IH]; intros ipAddresses; [exact I|].
  cbn [getNICIPAddresses_confs]. prog_solve.
Qed.

#[local] Hint Resolve always_getNICIPAddresses_confs calls_only_getNICIPAddresses_confs : prog.

(** The lookup of the addresses of an interface returns, with the
    addresses or with an error, and only reads. *)
Lemma always_getNICIPAddresses c ifaceName :
  always (fun _ => True) (getNICIPAddresses c ifaceName).
Proof. unfold getNICIPAddresses. prog_solve. Qed.

Lemma calls_only_getNICIPAddresses c ifaceName :
  calls_only reads (getNICIPAddresses c ifaceName).
Proof. unfold getNICIPAddresses. prog_solve. Qed.

#[local] Hint Resolve always_getNICIPAddresses calls_only_getNICIPAddresses : prog.

Lemma interfaces_of_Some vm ifaces :
  interfaces_of vm = Some ifaces ->
  exists props profile,
    compute.VirtualMachineProperties_of vm = Some props
    /\ compute.NetworkProfile_of props = Some profile
    /\ compute.NetworkInterfaces profile = Some ifaces.
Proof.
  unfold interfaces_of. intros H.
  destruct (compute.VirtualMachineProperties_of vm) as [props|]; [|discriminate].
  simpl in H.
  destruct (compute.NetworkProfile_of props) as [profile|] eqn:E; [|discriminate].
  simpl in H. exists props, profile. auto.
Qed.

Lemma vm_NetworkInterfaces_Some vm ifaces :
  interfaces_of vm = Some ifaces -> vm_NetworkInterfaces vm = Ret (Some ifaces).
Proof.
  intros H. destruct (interfaces_of_Some _ _ H) as (props & profile & H1 & H2 & H3).
  unfold vm_NetworkInterfaces. rewrite H1, H2, H3. reflexivity.
Qed.

Lemma has_ID_Some iface :
  has_ID iface = true ->
  exists id, compute.NetworkInterfaceReference_ID iface = Some id
             /\ Nat.eqb (String.length id) 0 = false.
Proof.
  unfold has_ID. destruct (compute.NetworkInterfaceReference_ID iface) as [id|]; [|discriminate].
  intros H. exists id. split; [reflexivity|]. by apply negb_true_iff.
Qed.

(** One turn of the loop of [getVMIPAddresses]: the lookup runs, its
    error is dropped, and the loop goes on with the map it returned. *)
Lemma getVMIPAddresses_ifaces_step c vm all iface ifaces ipAddresses id name :
  interfaces_of vm = Some all ->
  compute.NetworkInterfaceReference_ID iface = Some id ->
  Nat.eqb (String.length id) 0 = false ->
  last (strings.Split id "/"%char) = Some name ->
  getVMIPAddresses_ifaces c vm (iface :: ifaces) ipAddresses
  = bind (getNICIPAddresses c name)
      (fun r => getVMIPAddresses_ifaces c vm ifaces (addresses_of r)).
Proof.
  intros Hvm Hid Hlen Hname. cbn [getVMIPAddresses_ifaces].
  rewrite Hid, Hlen. unfold last_segment. rewrite Hname.
  rewrite (vm_NetworkInterfaces_Some _ _ Hvm). reflexivity.
Qed.

Lemma always_getVMIPAddresses_ifaces c vm all ifaces ipAddresses :
  interfaces_of vm = Some all ->
  forallb has_ID ifaces = true ->
  always (fun r => exists a, r = Ok a) (getVMIPAddresses_ifaces c vm ifaces ipAddresses).
Proof.
  intros Hvm. revert ipAddresses.
  induction ifaces as [|iface ifaces IH]; intros ipAddresses Hids.
  - simpl. eauto.
  - simpl in Hids. apply andb_true_iff in Hids as [Hid Hids].
    destruct (has_ID_Some _ Hid) as (id & Hsome & Hlen).
    destruct (last_segment_Some id) as (name & Hname & _).
    rewrite (getVMIPAddresses_ifaces_step c vm all iface ifaces ipAddresses id name)
      by assumption.
    eapply always_bind; [apply always_getNICIPAddresses|].
    intros r _. apply IH, Hids.
Qed.

Lemma getVMIPAddresses_loop c vm ifaces :
  interfaces_of vm = Some ifaces ->
  getVMIPAddresses c vm = getVMIPAddresses_ifaces c vm ifaces (Some ∅).
Proof.
  intros H. destruct (interfaces_of_Some _ _ H) as (props & profile & H1 & H2 & H3).
  unfold getVMIPAddresses. rewrite H1, H2, H3. reflexivity.
Qed.

(** C8. For a virtual machine that has the list of its interfaces,
    each with an identifier, [getVMIPAddresses] never returns an error,
    whatever the lookups of the interfaces return: it returns a map or
    nil, and a nil error.  With one interface, its run is the run of
    the lookup followed by the return of what is left of its result
    once the error is dropped: nil, with a nil error, when the lookup
    failed. *)
Theorem getVMIPAddresses_drops_lookup_errors {S} (h : Handler S) (c : config)
    (vm : compute.VirtualMachine) (ifaces : list compute.NetworkInterfaceReference)
    (m : Machine) (s : S) :
  interfaces_of vm = Some ifaces ->
  forallb has_ID ifaces = true ->
  (exists ipAddresses,
     outcome (run h (getVMIPAddresses c vm) m s) = Returned (Ok ipAddresses))
  /\ (forall iface id, ifaces = [iface] ->
      compute.NetworkInterfaceReference_ID iface = Some id ->
      exists name,
        last (strings.Split id "/"%char) = Some name
        /\ run h (getVMIPAddresses c vm) m s
           = then_run (run h (getNICIPAddresses c name) m s)
               (fun r m' s' =>
                  {| outcome := Returned (Ok (addresses_of r));
                     machine := m'; service := s'; trace := [] |})).
Proof.
  intros Hvm Hids. rewrite (getVMIPAddresses_loop c vm ifaces Hvm). split.
  - destruct (always_run h _ _ m s
                (always_getVMIPAddresses_ifaces c vm ifaces ifaces (Some ∅) Hvm Hids))
      as (r & Hr & a & ->).
    eauto.
  - intros iface id -> Hid.
    simpl in Hids. apply andb_true_iff in Hids as [Hhas _].
    destruct (has_ID_Some _ Hhas) as (id' & Hid' & Hlen).
    rewrite Hid in Hid'. injection Hid' as <-.
    destruct (last_segment_Some id) as (name & Hname & _).
    exists name. split; [exact Hname|].
    rewrite (getVMIPAddresses_ifaces_step c vm [iface] iface [] (Some ∅) id name)
      by assumption.
    rewrite run_bind. reflexivity.
Qed.

Lemma getVMIPAddresses_drops_lookup_errors_witness :
  interfaces_of simulation.example_vm
  = Some [ {| compute.NetworkInterfaceReference_ID :=
                Some "/networkInterfaces/worker-1-netiface";
              compute.Primary := Some true |} ]
  /\ exists ipAddresses,
       outcome (run simulation.the_cloud
                  (getVMIPAddresses simulation.example_config simulation.example_vm)
                  (simulation.example_machine [])
                  (simulation.cloud_with_vm simulation.running_view
                     simulation.interface_lookup_fails))
       = Returned (Ok ipAddresses).
Proof.
  split; [reflexivity|].
  apply (getVMIPAddresses_drops_lookup_errors simulation.the_cloud simulation.example_config
           simulation.example_vm
           [ {| compute.NetworkInterfaceReference_ID :=
                  Some "/networkInterfaces/worker-1-netiface";
                compute.Primary := Some true |} ]);
    reflexivity.
Defined.

(** With a service whose interface lookup fails, the lookup of the
    addresses of the interface returns an error, and yet [Get] and
    [Create] report success, with a nil map of addresses. *)
Example Get_succeeds_without_addresses :
  let m := simulation.example_machine [] in
  let s := simulation.cloud_with_vm simulation.running_view simulation.interface_lookup_fails in
  outcome (run simulation.the_cloud
             (getNICIPAddresses simulation.example_config "worker-1-netiface") m s)
  = Returned (Error (Errorf "failed to get interface %q: %v" (Remote "service unavailable")))
  /\ outcome (run simulation.the_cloud (Get simulation.example_provider m) m s)
     = Returned (Ok {| vm := simulation.example_vm; ipAddresses := None;
                       status := instance.StatusRunning |}).
Proof. split; vm_compute; reflexivity. Qed.

Example Create_succeeds_without_addresses :
  let m := simulation.example_machine [] in
  let s := {| simulation.cloud_vms := [];
              simulation.cloud_disks := [];
              simulation.cloud_view := simulation.running_view;
              simulation.cloud_fails := simulation.interface_lookup_fails |} in
  match outcome (run simulation.the_cloud
                   (Create simulation.example_provider m "userdata") m s) with
  | Returned (Ok inst) => ipAddresses inst = None /\ status inst = instance.StatusRunning
  | _ => False
  end.
Proof. vm_compute. split; reflexivity. Qed.

(** ** The finalizer ledger during [Create] *)

Lemma calls_only_vm_NetworkInterfaces allowed vm :
  calls_only allowed (vm_NetworkInterfaces vm).
Proof. unfold vm_NetworkInterfaces. prog_solve. Qed.

#[local] Hint Resolve calls_only_vm_NetworkInterfaces : prog.

Lemma calls_only_getVMIPAddresses_ifaces c vm ifaces ipAddresses :
  calls_only reads (getVMIPAddresses_ifaces c vm ifaces ipAddresses).
Proof.
  revert ipAddresses. induction ifaces as [|iface ifaces IH]; intros ipAddresses; [exact I|].
  cbn [getVMIPAddresses_ifaces]. prog_solve.
Qed.

#[local] Hint Resolve calls_only_getVMIPAddresses_ifaces : prog.

Lemma calls_only_getVMIPAddresses c vm : calls_only reads (getVMIPAddresses c vm).
Proof. unfold getVMIPAddresses. prog_solve. Qed.

Lemma calls_only_of_outcome {A} allowed (o : Outcome A) : calls_only allowed (of_outcome o).
Proof. destruct o; exact I. Qed.

#[local] Hint Resolve calls_only_getVMIPAddresses calls_only_of_outcome : prog.

Lemma calls_only_getVMStatus c vmName : calls_only reads (getVMStatus c vmName).
Proof. unfold getVMStatus. prog_solve. Qed.

Lemma calls_only_getVMByUID c uid : calls_only reads (getVMByUID c uid).
Proof. unfold getVMByUID. prog_solve. Qed.

#[local] Hint Resolve calls_only_getVMStatus calls_only_getVMByUID : prog.

(** [Get] is read-only: whatever the service answers, it asks for no
    change of the Machine record and makes reading calls only. *)
Lemma calls_only_get p m : calls_only reads (get p m).
Proof. unfold get. prog_solve. Qed.

#[local] Hint Resolve calls_only_get : prog.

Lemma guarded_reads committed t :
  Forall (call_of reads) t -> guarded committed t.
Proof.
  induction 1 as [|e t He _ IH]; [exact I|].
  destruct e as [o ok| |]; simpl in *; try contradiction.
  split; [|exact IH].
  intros f Hf. destruct o; try discriminate He; simpl in Hf; by apply elem_of_nil in Hf.
Qed.

(** A program that only reads keeps the ledger as it is, and its calls
    need no finalizer. *)
Lemma reads_guarded {S A} (h : Handler S) (p : Prog A) (m : Machine) (s : S) committed :
  calls_only reads p ->
  machine (run h p m s) = m /\ guarded committed (trace (run h p m s)).
Proof.
  intros Hp. destruct (calls_only_run h reads p m s Hp) as [Hm Ht].
  split; [exact Hm | apply guarded_reads, Ht].
Qed.

Lemma guarded_sound committed t :
  guarded committed t ->
  forall pre o ok post f,
    t = pre ++ Called o ok :: post ->
    f ∈ guarding_finalizers o ->
    committed_before f pre
    \/ (forallb (fun e => negb (is_commit e)) pre = true
        /\ exists fs, committed = Some fs /\ f ∈ fs).
Proof.
  revert committed. induction t as [|e t IH]; intros committed Hg pre o ok post f Ht Hf.
  - destruct pre; discriminate.
  - destruct pre as [|e' pre].
    + simpl in Ht. injection Ht as -> ->. simpl in Hg. destruct Hg as [Hg _].
      right. split; [reflexivity | apply Hg, Hf].
    + simpl in Ht. injection Ht as <- ->.
      destruct e as [o' ok'|fs0|]; simpl in Hg.
      * destruct Hg as [_ Hg].
        destruct (IH _ Hg _ _ _ _ _ eq_refl Hf) as [(pre1 & fs & pre2 & -> & Hin & Hno)|[Hno Hc]].
        -- left. exists (Called o' ok' :: pre1), fs, pre2. auto.
        -- right. split; [exact Hno | exact Hc].
      * destruct (IH _ Hg _ _ _ _ _ eq_refl Hf) as [(pre1 & fs & pre2 & -> & Hin & Hno)|[Hno Hc]].
        -- left. exists (Committed fs0 :: pre1), fs, pre2. auto.
        -- left. destruct Hc as (fs & [= <-] & Hin). exists [], fs0, pre. auto.
      * destruct (IH _ Hg _ _ _ _ _ eq_refl Hf) as [(pre1 & fs & pre2 & -> & Hin & Hno)|[Hno Hc]].
        -- left. exists (UpdateFailed :: pre1), fs, pre2. auto.
        -- right. split; [exact Hno | exact Hc].
Qed.

Lemma elem_of_ensure_same (f : string) (l : list string) : f ∈ ensure f l.
Proof.
  unfold ensure. case_bool_decide; [assumption|].
  apply elem_of_app. right. by apply list_elem_of_singleton.
Qed.

Lemma elem_of_ensure_mono (f g : string) (l : list string) : g ∈ l -> g ∈ ensure f l.
Proof.
  intros H. unfold ensure. case_bool_decide; [assumption|].
  apply elem_of_app. by left.
Qed.

(** What the callbacks of [Create] do to the list of finalizers. *)
Lemma Finalizers_ensure (m : Machine) (f : string) :
  Finalizers (if negb (kuberneteshelper.HasFinalizer m f)
              then append_finalizer m f else m)
  = ensure f (Finalizers m).
Proof.
  unfold kuberneteshelper.HasFinalizer, ensure.
  case_bool_decide; reflexivity.
Qed.

Lemma Finalizers_ensure_disks_vm (m : Machine) :
  Finalizers
    (let updatedMachine :=
       if negb (kuberneteshelper.HasFinalizer m finalizerDisks)
       then append_finalizer m finalizerDisks else m in
     let machine := updatedMachine in
     if negb (kuberneteshelper.HasFinalizer machine finalizerVM)
     then append_finalizer updatedMachine finalizerVM else updatedMachine)
  = ensure finalizerVM (ensure finalizerDisks (Finalizers m)).
Proof.
  cbv zeta. rewrite Finalizers_ensure, Finalizers_ensure. reflexivity.
Qed.

Lemma ledger_kept_call {S A} committed finalizers (o : Op) (ok : bool) (r : Run (Err A) S) :
  (forall f, f ∈ guarding_finalizers o -> exists fs, committed = Some fs /\ f ∈ fs) ->
  ledger_kept committed finalizers r ->
  ledger_kept committed finalizers (after (Called o ok) r).
Proof. intros Hg [Ht Hf]. split; [split; assumption | exact Hf]. Qed.

Lemma ledger_kept_commit {S A} committed finalizers fs (r : Run (Err A) S) :
  ledger_kept (Some fs) finalizers r ->
  ledger_kept committed finalizers (after (Committed fs) r).
Proof. intros [Ht Hf]. split; [exact Ht | exact Hf]. Qed.

Lemma ledger_kept_error {S A} committed finalizers (e : Event) (err : error)
    (m : Machine) (s : S) :
  guarded committed [e] ->
  ledger_kept committed finalizers
    (after e {| outcome := Returned (@Error A err); machine := m; service := s; trace := [] |}).
Proof. intros Hg. split; [exact Hg | intros a [=]]. Qed.

Lemma ledger_kept_reads {S A} (h : Handler S) committed (p : Prog (Err A))
    (m : Machine) (s : S) :
  calls_only reads p ->
  ledger_kept committed (Finalizers m) (run h p m s).
Proof.
  intros Hp. destruct (reads_guarded h p m s committed Hp) as [Hm Ht].
  split; [exact Ht | intros _ _; by rewrite Hm].
Qed.

Lemma no_guard (o : Op) committed :
  guarding_finalizers o = [] ->
  forall f, f ∈ guarding_finalizers o -> exists fs : list string, committed = Some fs /\ f ∈ fs.
Proof. intros -> f Hf. by apply elem_of_nil in Hf. Qed.

(** The steps of a run of [Create]: a call and the test of its error,
    a commit and the test of its error. *)
Ltac ledger_call Hguard :=
  rewrite run_try_call;
  let a := fresh "a" in
  let e := fresh "err" in
  let s' := fresh "s" in
  destruct (answer _ _ _) as [[a|e] s'];
  [ apply ledger_kept_call; [Hguard|]
  | apply ledger_kept_error; split; [Hguard | exact I] ].

Ltac ledger_commit :=
  rewrite run_try_update;
  let e := fresh "err" in
  let s' := fresh "s" in
  destruct (persist _ _ _) as [[e|] s'];
  [ apply ledger_kept_error; exact I
  | apply ledger_kept_commit ].

Lemma Create_from_NIC_ledger {S} (h : Handler S) config providerCfg (m : Machine)
    userdata key ipFamily publicIP publicIPv6 (s : S) committed :
  ledger_kept committed
    (ensure finalizerVM (ensure finalizerDisks (ensure finalizerNIC (Finalizers m))))
    (run h (Create_from_NIC config providerCfg m userdata key ipFamily publicIP publicIPv6)
       m s).
Proof.
  unfold Create_from_NIC.
  ledger_commit.
  match goal with
  | |- context [run h _ ?mm _] =>
      assert (H1 : Finalizers mm = ensure finalizerNIC (Finalizers m))
        by apply Finalizers_ensure;
      set (m1 := mm) in *; clearbody m1
  end.
  rewrite <- H1.
  ledger_call ltac:(intros f Hf; apply list_elem_of_singleton in Hf as ->;
                    eexists; split; [reflexivity|]; rewrite H1; apply elem_of_ensure_same).
  destruct (getStorageProfile config providerCfg) as [storageProfile|err].
  2:{ split; [exact I | intros ? [=]]. }
  ledger_commit.
  match goal with
  | |- context [run h _ ?mm _] =>
      assert (H2 : Finalizers mm = ensure finalizerVM (ensure finalizerDisks (Finalizers m1)))
        by apply Finalizers_ensure_disks_vm;
      set (m2 := mm) in *; clearbody m2
  end.
  rewrite <- H2.
  ledger_call ltac:(intros f Hf; eexists; split; [reflexivity|]; rewrite H2;
                    apply elem_of_cons in Hf as [->|Hf];
                    [ apply elem_of_ensure_mono, elem_of_ensure_same
                    | apply list_elem_of_singleton in Hf as ->; apply elem_of_ensure_same ]).
  ledger_call ltac:(apply no_guard; reflexivity).
  ledger_call ltac:(apply no_guard; reflexivity).
  ledger_call ltac:(apply no_guard; reflexivity).
  apply ledger_kept_reads. prog_solve.
Qed.

Lemma Create_ledger {S} (h : Handler S) (p : provider) (m : Machine) (userdata : string)
    (s : S) config providerCfg :
  getConfig p (ProviderSpec_of (Spec m)) = Ok (config, providerCfg) ->
  ledger_kept None (finalizers_after_Create config (Finalizers m))
    (run h (Create p m userdata) m s).
Proof.
  intros Hc. unfold Create, finalizers_after_Create. rewrite Hc.
  ledger_call ltac:(apply no_guard; reflexivity).
  ledger_call ltac:(apply no_guard; reflexivity).
  destruct (AssignPublicIP config); [|apply Create_from_NIC_ledger].
  ledger_commit.
  match goal with
  | |- context [run h _ ?mm _] =>
      assert (H1 : Finalizers mm = ensure finalizerPublicIP (Finalizers m))
        by apply Finalizers_ensure;
      set (m1 := mm) in *; clearbody m1
  end.
  rewrite <- H1.
  assert (Hguard : forall o, guarding_finalizers o = [finalizerPublicIP] ->
            forall f, f ∈ guarding_finalizers o ->
                      exists fs, Some (Finalizers m1) = Some fs /\ f ∈ fs).
  { intros o -> f Hf. apply list_elem_of_singleton in Hf as ->.
    eexists; split; [reflexivity|]. rewrite H1. apply elem_of_ensure_same. }
  ledger_call ltac:(apply Hguard; reflexivity).
  destruct (util.is_DualStack _).
  - ledger_call ltac:(apply Hguard; reflexivity).
    apply Create_from_NIC_ledger.
  - apply Create_from_NIC_ledger.
Qed.

Lemma writes_cons_call (o : Op) (ok : bool) (t : list Event) :
  map fst (writes (Called o ok :: t)) = written_resource o ++ map fst (writes t).
Proof.
  unfold writes, written_resource. simpl.
  destruct (written o) as [[r tag]|]; reflexivity.
Qed.

Lemma writes_reads (t : list Event) : Forall (call_of reads) t -> writes t = [].
Proof.
  induction 1 as [|e t He _ IH]; [reflexivity|].
  destruct e as [o ok| |]; simpl in He; try contradiction.
  unfold writes in *. destruct o; try discriminate He; simpl; exact IH.
Qed.

Lemma written_in_order_call {S A} plan (o : Op) (ok : bool) (r : Run (Err A) S) :
  written_in_order plan r ->
  written_in_order (written_resource o ++ plan) (after (Called o ok) r).
Proof.
  intros [Hp Hs]. unfold written_in_order. cbn [after trace outcome].
  rewrite writes_cons_call. split; [by apply prefix_app|].
  intros a Ha. by rewrite (Hs a Ha).
Qed.

Lemma written_in_order_failed {S A} plan (o : Op) (err : error) (m : Machine) (s : S) :
  written_in_order (written_resource o ++ plan)
    (after (Called o false)
       {| outcome := Returned (@Error A err); machine := m; service := s; trace := [] |}).
Proof.
  unfold written_in_order. cbn [after trace outcome]. rewrite writes_cons_call.
  split; [apply prefix_app, prefix_nil | intros a [=]].
Qed.

Lemma written_in_order_commit {S A} plan fs (r : Run (Err A) S) :
  written_in_order plan r -> written_in_order plan (after (Committed fs) r).
Proof. intros H. exact H. Qed.

Lemma written_in_order_update_failed {S A} plan (err : error) (m : Machine) (s : S) :
  written_in_order plan
    (after UpdateFailed
       {| outcome := Returned (@Error A err); machine := m; service := s; trace := [] |}).
Proof. split; [apply prefix_nil | intros a [=]]. Qed.

Lemma written_in_order_reads {S A} (h : Handler S) (p : Prog (Err A)) (m : Machine) (s : S) :
  calls_only reads p -> written_in_order [] (run h p m s).
Proof.
  intros Hp. destruct (calls_only_run h reads p m s Hp) as [_ Ht].
  unfold written_in_order. rewrite (writes_reads _ Ht). split; [reflexivity | done].
Qed.

(** A call in a run of [Create], after which [rest] is left of the
    plan. *)
Ltac order_call rest :=
  rewrite run_try_call;
  let a := fresh "a" in
  let e := fresh "err" in
  let s' := fresh "s" in
  destruct (answer _ _ _) as [[a|e] s'];
  match goal with
  | |- written_in_order _ (after (Called ?o ?ok) ?r) =>
      change (written_in_order (written_resource o ++ rest) (after (Called o ok) r))
  end;
  [ apply written_in_order_call
  | apply written_in_order_failed ].

Ltac order_commit :=
  rewrite run_try_update;
  let e := fresh "err" in
  let s' := fresh "s" in
  destruct (persist _ _ _) as [[e|] s'];
  [ apply written_in_order_update_failed
  | apply written_in_order_commit ].

Lemma Create_from_NIC_order {S} (h : Handler S) config providerCfg (m : Machine)
    userdata key ipFamily publicIP publicIPv6 (s : S) :
  written_in_order [NetworkInterface; VirtualMachine]
    (run h (Create_from_NIC config providerCfg m userdata key ipFamily publicIP publicIPv6)
       m s).
Proof.
  unfold Create_from_NIC.
  order_commit. order_call [VirtualMachine].
  destruct (getStorageProfile config providerCfg) as [storageProfile|err].
  2:{ split; [apply prefix_nil | intros ? [=]]. }
  order_commit. order_call (@nil Resource).
  order_call (@nil Resource). order_call (@nil Resource). order_call (@nil Resource).
  apply written_in_order_reads. prog_solve.
Qed.

(** [Create] writes the public IPv4 address, the public IPv6 address
    when dual-stack, the interface and the virtual machine, in this
    order. *)
Lemma Create_order {S} (h : Handler S) (p : provider) (m : Machine) (userdata : string)
    (s : S) config providerCfg :
  getConfig p (ProviderSpec_of (Spec m)) = Ok (config, providerCfg) ->
  written_in_order
    (Create_plan config
       (providerconfigtypes.GetIPFamily (providerconfigtypes.Network providerCfg)))
    (run h (Create p m userdata) m s).
Proof.
  intros Hc. unfold Create, Create_plan. rewrite Hc.
  destruct (AssignPublicIP config).
  - destruct (util.is_DualStack _).
    + order_call [PublicIPv4; PublicIPv6; NetworkInterface; VirtualMachine].
      order_call [PublicIPv4; PublicIPv6; NetworkInterface; VirtualMachine].
      order_commit. order_call [PublicIPv6; NetworkInterface; VirtualMachine].
      order_call [NetworkInterface; VirtualMachine].
      apply Create_from_NIC_order.
    + order_call [PublicIPv4; NetworkInterface; VirtualMachine].
      order_call [PublicIPv4; NetworkInterface; VirtualMachine].
      order_commit. order_call [NetworkInterface; VirtualMachine].
      apply Create_from_NIC_order.
  - order_call [NetworkInterface; VirtualMachine].
    order_call [NetworkInterface; VirtualMachine].
    apply Create_from_NIC_order.
Qed.

(** The ledger that [Create] does keep.  In every run of [Create] on a
    Machine whose configuration resolves, the resources are written in
    the order
    public IPv4 address, public IPv6 address (dual-stack), interface,
    virtual machine, and each create-or-update call is issued after a
    commit, the last of which left on the record the finalizers that
    cover the resource: the finalizer of the public IP for the IPv4
    address and for the IPv6 address, the finalizer of the interface
    for the interface, those of the disks and of the virtual machine
    for the virtual machine.  After a successful [Create] the record
    carries the finalizers it carried, followed by those of the public
    IP (when one is assigned), the interface, the disks and the virtual
    machine that it did not carry; for a Machine without finalizers
    that asks for a public IP this is the list of these four, in this
    order, dual-stack or not. *)
Theorem Create_finalizers_first {S} (h : Handler S) (p : provider) (m : Machine)
    (userdata : string) (s : S) (config : config)
    (providerCfg : providerconfigtypes.Config azuretypes.RawConfig) :
  getConfig p (ProviderSpec_of (Spec m)) = Ok (config, providerCfg) ->
  let r := run h (Create p m userdata) m s in
  (forall pre o ok post f,
     trace r = pre ++ Called o ok :: post ->
     f ∈ guarding_finalizers o ->
     committed_before f pre)
  /\ written_in_order
       (Create_plan config
          (providerconfigtypes.GetIPFamily (providerconfigtypes.Network providerCfg))) r
  /\ (forall inst, outcome r = Returned (Ok inst) ->
      Finalizers (machine r) = finalizers_after_Create config (Finalizers m))
  /\ (forall inst, outcome r = Returned (Ok inst) ->
      AssignPublicIP config = true -> Finalizers m = [] ->
      Finalizers (machine r)
      = [finalizerPublicIP; finalizerNIC; finalizerDisks; finalizerVM]).
Proof.
  intros Hc r. destruct (Create_ledger h p m userdata s config providerCfg Hc) as [Hg Hf].
  fold r in Hg, Hf. split_and!.
  - intros pre o ok post f Ht Hin.
    destruct (guarded_sound None (trace r) Hg pre o ok post f Ht Hin)
      as [H|(_ & fs & [=] & _)].
    exact H.
  - by apply Create_order.
  - exact Hf.
  - intros inst Hok Hip Hnil. rewrite (Hf inst Hok).
    unfold finalizers_after_Create. rewrite Hip, Hnil. reflexivity.
Qed.

Lemma Create_finalizers_first_witness :
  getConfig simulation.example_provider
    (ProviderSpec_of (Spec (simulation.example_machine [])))
  = Ok (simulation.example_config, simulation.example_pconfig)
  /\ forall inst,
       outcome (run simulation.the_cloud
                  (Create simulation.example_provider (simulation.example_machine [])
                     "userdata")
                  (simulation.example_machine []) simulation.empty_cloud)
       = Returned (Ok inst) ->
       Finalizers (machine (run simulation.the_cloud
                              (Create simulation.example_provider
                                 (simulation.example_machine []) "userdata")
                              (simulation.example_machine []) simulation.empty_cloud))
       = finalizers_after_Create simulation.example_config [].
Proof.
  assert (H : getConfig simulation.example_provider
                (ProviderSpec_of (Spec (simulation.example_machine [])))
              = Ok (simulation.example_config, simulation.example_pconfig))
    by (vm_compute; reflexivity).
  split; [exact H|].
  destruct (Create_finalizers_first simulation.the_cloud simulation.example_provider
              (simulation.example_machine []) "userdata" simulation.empty_cloud
              simulation.example_config simulation.example_pconfig H)
    as (_ & _ & Hf & _).
  exact Hf.
Defined.

(** C1. [Create] misses the finalizer of the public IPv6 address.
    [Create] of a dual-stack Machine without finalizers that asks for a
    public IP succeeds against the simulated service and creates the
    IPv6 address, but no commit of the run carries the finalizer of the
    IPv6 address, before the call that creates the address or after it,
    and the record ends with the four finalizers of the public IP, the
    interface, the disks and the virtual machine, not with the five the
    claim names. *)
Theorem Create_dual_stack_without_IPv6_finalizer :
  is_Ok (match outcome simulation.dual_stack_Create with
         | Returned a => a
         | Panicked _ => Error ErrInstanceNotFound
         end) = true
  /\ map fst (writes (trace simulation.dual_stack_Create))
     = [PublicIPv4; PublicIPv6; NetworkInterface; VirtualMachine]
  /\ forallb (fun e => match e with
                       | Committed fs => negb (bool_decide (finalizerPublicIPv6 ∈ fs))
                       | _ => true
                       end) (trace simulation.dual_stack_Create) = true
  /\ Finalizers (machine simulation.dual_stack_Create)
     = [finalizerPublicIP; finalizerNIC; finalizerDisks; finalizerVM]
  /\ Finalizers (machine simulation.dual_stack_Create)
     <> [finalizerPublicIP; finalizerPublicIPv6; finalizerNIC; finalizerDisks; finalizerVM].
Proof.
  vm_compute. repeat split; try reflexivity. discriminate.
Qed.

(** ** The order of [MigrateUID] *)

Lemma writes_app (t1 t2 : list Event) : writes (t1 ++ t2) = writes t1 ++ writes t2.
Proof. unfold writes. apply omap_app. Qed.

Lemma tagged_app uid (p1 p2 : list Resource) :
  tagged uid (p1 ++ p2) = tagged uid p1 ++ tagged uid p2.
Proof. unfold tagged. apply map_app. Qed.

Lemma writes_call uid (o : Op) (ok : bool) :
  carries uid o -> writes [Called o ok] = tagged uid (written_resource o).
Proof.
  intros Hc. unfold writes, written_resource. simpl.
  destruct (written o) as [[r t]|] eqn:E; [|reflexivity].
  simpl. rewrite (Hc r t E). reflexivity.
Qed.

Lemma follows_plan {S} uid plan plan' (r : Run (option error) S) :
  plan = plan' -> follows uid plan r -> follows uid plan' r.
Proof. by intros ->. Qed.

Lemma follows_done {S} uid (m : Machine) (s : S) :
  follows uid []
    {| outcome := Returned None; machine := m; service := s; trace := [] |}.
Proof. split; reflexivity. Qed.

(** A step that follows its plan, then the rest that follows its own. *)
Lemma follows_then {S} uid plan1 plan2 (r1 : Run (option error) S)
    (k : Machine -> S -> Run (option error) S) :
  follows uid plan1 r1 ->
  (forall m' s', follows uid plan2 (k m' s')) ->
  follows uid (plan1 ++ plan2)
    (then_run r1 (fun e m' s' =>
       match e with
       | Some err =>
           {| outcome := Returned (Some err); machine := m'; service := s'; trace := [] |}
       | None => k m' s'
       end)).
Proof.
  intros H1 H2. unfold follows, then_run in *.
  destruct (outcome r1) as [[err|]|msg]; simpl.
  - destruct H1 as [(pre & o & Ht & Hpre) Hw]. rewrite app_nil_r.
    split; [eauto|]. rewrite tagged_app. by apply prefix_app_r.
  - destruct H1 as [Hok Hw]. specialize (H2 (machine r1) (service r1)).
    rewrite writes_app, Hw, tagged_app.
    destruct (outcome (k (machine r1) (service r1))) as [[err|]|msg].
    + destruct H2 as [(pre & o & Ht & Hpre) Hw2]. split.
      * exists (trace r1 ++ pre), o. rewrite Ht, app_assoc. split; [reflexivity|].
        rewrite forallb_app, Hok, Hpre. reflexivity.
      * by apply prefix_app.
    + destruct H2 as [Hok2 Hw2]. rewrite forallb_app, Hok, Hok2, Hw2. auto.
    + destruct H2 as [Hok2 Hw2]. rewrite forallb_app, Hok, Hok2.
      split; [reflexivity | by apply prefix_app].
  - destruct H1 as [Hok Hw]. split; [exact Hok|].
    rewrite tagged_app. by apply prefix_app_r.
Qed.

Lemma run_and_then {S} (h : Handler S) (step rest : Prog (option error))
    (m : Machine) (s : S) :
  run h (and_then step rest) m s
  = then_run (run h step m s) (fun e m' s' =>
      match e with
      | Some err =>
          {| outcome := Returned (Some err); machine := m'; service := s'; trace := [] |}
      | None => run h rest m' s'
      end).
Proof.
  unfold and_then. rewrite run_mbind. unfold then_run.
  destruct (outcome (run h step m s)) as [[err|]|msg]; reflexivity.
Qed.

Lemma follows_and_then {S} (h : Handler S) uid plan1 plan2
    (step rest : Prog (option error)) (m : Machine) (s : S) :
  follows uid plan1 (run h step m s) ->
  (forall m' s', follows uid plan2 (run h rest m' s')) ->
  follows uid (plan1 ++ plan2) (run h (and_then step rest) m s).
Proof.
  intros H1 H2. rewrite run_and_then. by apply follows_then.
Qed.

(** A call that carries the tag, the test of its error, and the rest. *)
Lemma follows_call {S} (h : Handler S) uid plan (o : Op) (g : error -> error)
    (k : OpVal o -> Prog (option error)) (m : Machine) (s : S) :
  carries uid o ->
  (forall a s', follows uid plan (run h (k a) m s')) ->
  follows uid (written_resource o ++ plan)
    (run h (try (call o) (fun err => Some (g err)) k) m s).
Proof.
  intros Hc Hk. rewrite run_try_call.
  destruct (answer h o s) as [[a|e] s'].
  - specialize (Hk a s'). unfold follows in *. cbn [after outcome trace].
    change (Called o true :: trace (run h (k a) m s'))
      with ([Called o true] ++ trace (run h (k a) m s')).
    rewrite writes_app, (writes_call uid o true Hc), tagged_app.
    destruct (outcome (run h (k a) m s')) as [[err|]|msg].
    + destruct Hk as [(pre & o' & Ht & Hpre) Hw]. split.
      * exists (Called o true :: pre), o'. rewrite Ht. split; [reflexivity|].
        simpl. exact Hpre.
      * by apply prefix_app.
    + destruct Hk as [Hok Hw]. rewrite Hw. split; [exact Hok | reflexivity].
    + destruct Hk as [Hok Hw]. split; [exact Hok | by apply prefix_app].
  - unfold follows. cbn [after outcome trace]. split.
    + exists [], o. split; reflexivity.
    + rewrite (writes_call uid o false Hc), tagged_app. apply prefix_app_r. reflexivity.
Qed.

Lemma carries_read uid (o : Op) : written o = None -> carries uid o.
Proof. intros H r t Hw. congruence. Qed.

Lemma uid_tag_insert uid (tags : gmap string (option string)) :
  uid_tag (Some (<[machineUIDTag := Some uid]> tags)) = Some uid.
Proof. unfold uid_tag. rewrite lookup_insert_eq. reflexivity. Qed.

(** The loop over the disks writes every disk it was given, tagged
    with the new UID, until a call fails. *)
Lemma MigrateUID_disks_follows {S} (h : Handler S) config newUID disks (m : Machine) (s : S) :
  follows newUID (replicate (length disks) Disk)
    (run h (MigrateUID_disks config newUID disks) m s).
Proof.
  revert s. induction disks as [|disk disks IH]; intros s.
  - apply follows_done.
  - cbn [MigrateUID_disks].
    destruct (compute.Disk_Tags disk) as [tags|]; [|split; [reflexivity | apply prefix_nil]].
    cbn [compute.Disk_Name].
    destruct (compute.Disk_Name disk) as [name|]; [|split; [reflexivity | apply prefix_nil]].
    eapply follows_plan; [|apply (follows_call h newUID (replicate (length disks) Disk))].
    + reflexivity.
    + intros r t [= <- <-]. simpl. apply uid_tag_insert.
    + intros _ s1.
      eapply follows_plan;
        [|apply (follows_call h newUID (replicate (length disks) Disk))];
        [reflexivity | apply carries_read; reflexivity | intros _ s2; apply IH].
Qed.

(** The composition of steps when the plan of one of them depends on
    what the service answered. *)
Lemma follows_and_then_ex {S X} (h : Handler S) uid plan1 (plan2 : X -> list Resource)
    (step rest : Prog (option error)) :
  (forall m s, follows uid plan1 (run h step m s)) ->
  (forall m s, exists x, follows uid (plan2 x) (run h rest m s)) ->
  forall m s, exists x, follows uid (plan1 ++ plan2 x) (run h (and_then step rest) m s).
Proof.
  intros H1 H2 m s.
  destruct (H2 (machine (run h step m s)) (service (run h step m s))) as [x Hx].
  exists x. rewrite run_and_then.
  pose proof (H1 m s) as Hs. unfold follows, then_run in *.
  destruct (outcome (run h step m s)) as [[err|]|msg]; cbn [outcome trace].
  - destruct Hs as [(pre & o & Ht & Hpre) Hw]. rewrite app_nil_r.
    split; [eauto|]. rewrite tagged_app. by apply prefix_app_r.
  - destruct Hs as [Hok Hw]. rewrite writes_app, Hw, tagged_app.
    destruct (outcome (run h rest _ _)) as [[err|]|msg].
    + destruct Hx as [(pre & o & Ht & Hpre) Hw2]. split.
      * exists (trace (run h step m s) ++ pre), o. rewrite Ht, app_assoc.
        split; [reflexivity|]. rewrite forallb_app, Hok, Hpre. reflexivity.
      * by apply prefix_app.
    + destruct Hx as [Hok2 Hw2]. rewrite forallb_app, Hok, Hok2, Hw2. auto.
    + destruct Hx as [Hok2 Hw2]. rewrite forallb_app, Hok, Hok2.
      split; [reflexivity | by apply prefix_app].
  - destruct Hs as [Hok Hw]. split; [exact Hok|].
    rewrite tagged_app. by apply prefix_app_r.
Qed.

(** A step of [MigrateUID] that is taken when a finalizer is present:
    one call that carries the new UID. *)
Lemma MigrateUID_step_follows {S} (h : Handler S) uid (b : bool) (o : Op)
    (g : error -> error) (m : Machine) (s : S) :
  carries uid o ->
  follows uid (if b then written_resource o else [])
    (run h (if b then try (call o) (fun err => Some (g err)) (fun _ => Ret None)
            else Ret None) m s).
Proof.
  intros Ho. destruct b; [|apply follows_done].
  eapply follows_plan; [|apply (follows_call h uid [])];
    [apply app_nil_r | exact Ho | intros; apply follows_done].
Qed.

(** The step of the disks: as many disks as the service returns. *)
Lemma MigrateUID_disks_step_follows {S} (h : Handler S) config uid newUID (b : bool)
    (g1 g2 : error -> error) (m : Machine) (s : S) :
  exists n,
    follows newUID (if b then replicate n Disk else [])
      (run h
         (if b then
            try (call (getDisksClient config)) (fun err => Some (g1 err)) (fun _ =>
            try (call (getDisksByMachineUID config uid)) (fun err => Some (g2 err))
              (fun disks => MigrateUID_disks config newUID disks))
          else Ret None) m s).
Proof.
  destruct b; [|exists 0; apply follows_done].
  rewrite run_try_call.
  destruct (answer h (getDisksClient config) s) as [[[]|e] s2].
  2:{ exists 0. split; [exists [], (getDisksClient config); split; reflexivity
                        | apply prefix_nil]. }
  rewrite run_try_call.
  destruct (answer h (getDisksByMachineUID config uid) s2) as [[disks|e] s3].
  2:{ exists 0. split; [|apply prefix_nil].
      exists [Called (getDisksClient config) true], (getDisksByMachineUID config uid).
      split; reflexivity. }
  exists (length disks).
  pose proof (MigrateUID_disks_follows h config newUID disks m s3) as Hd.
  unfold follows in *. cbn [after outcome trace].
  destruct (outcome (run h (MigrateUID_disks config newUID disks) m s3)) as [[err|]|msg].
  - destruct Hd as [(pre & o & Ht & Hpre) Hw]. split; [|exact Hw].
    exists (Called (getDisksClient config) true
            :: Called (getDisksByMachineUID config uid) true :: pre), o.
    rewrite Ht. split; [reflexivity | exact Hpre].
  - exact Hd.
  - exact Hd.
Qed.

(** The last step: the virtual machine, whatever the finalizers. *)
Lemma MigrateUID_vm_follows {S} (h : Handler S) resourceGroup vmName config newUID
    location (g1 g2 : error -> error) (m : Machine) (s : S) :
  follows newUID [VirtualMachine]
    (run h
       (try (call (vmClient_CreateOrUpdate resourceGroup vmName
               {| compute.ID := None; compute.Name := None;
                  compute.Location := location;
                  compute.Plan_of := None;
                  compute.VirtualMachineProperties_of := None;
                  compute.Tags := Some (vm_tags config newUID);
                  compute.Zones := None |}))
          (fun err => Some (g1 err))
          (fun _ => try (call vmFuture_WaitForCompletionRef) (fun err => Some (g2 err))
                      (fun _ => Ret None))) m s).
Proof.
  eapply follows_plan; [|apply (follows_call h newUID [])].
  - reflexivity.
  - intros r t [= <- <-]. apply uid_tag_insert.
  - intros _ s2.
    eapply follows_plan; [|apply (follows_call h newUID [])];
      [reflexivity | apply carries_read; reflexivity | intros; apply follows_done].
Qed.

Lemma MigrateUID_follows {S} (h : Handler S) (p : provider) (m : Machine) (newUID : string)
    (s : S) config providerCfg :
  getConfig p (ProviderSpec_of (Spec m)) = Ok (config, providerCfg) ->
  exists disks,
    follows newUID (MigrateUID_plan m disks) (run h (MigrateUID p m newUID) m s).
Proof.
  intros Hc. unfold MigrateUID, MigrateUID_plan. rewrite Hc.
  rewrite run_try_call.
  destruct (answer h (getVMClient config) s) as [[[]|e] s1].
  2:{ exists 0. split; [exists [], (getVMClient config); split; reflexivity | apply prefix_nil]. }
  cbv zeta.
  match goal with
  | |- context [run h (and_then ?A (and_then ?B (and_then ?C (and_then ?D ?E)))) m s1] =>
      assert (HA : forall m' s',
                follows newUID
                  (if kuberneteshelper.HasFinalizer m finalizerPublicIPv6
                   then [PublicIPv6] else []) (run h A m' s'))
        by (intros; apply (MigrateUID_step_follows h newUID);
            intros r t [= <- <-]; reflexivity);
      assert (HB : forall m' s',
                follows newUID
                  (if kuberneteshelper.HasFinalizer m finalizerPublicIP
                   then [PublicIPv4] else []) (run h B m' s'))
        by (intros; apply (MigrateUID_step_follows h newUID);
            intros r t [= <- <-]; reflexivity);
      assert (HC : forall m' s',
                follows newUID
                  (if kuberneteshelper.HasFinalizer m finalizerNIC
                   then [NetworkInterface] else []) (run h C m' s'))
        by (intros; apply (MigrateUID_step_follows h newUID);
            intros r t [= <- <-]; reflexivity);
      assert (HD : forall m' s', exists n,
                follows newUID
                  (if kuberneteshelper.HasFinalizer m finalizerDisks
                   then replicate n Disk else []) (run h D m' s'))
        by (intros; apply MigrateUID_disks_step_follows);
      assert (HE : forall m' s', follows newUID [VirtualMachine] (run h E m' s'))
        by (intros; apply MigrateUID_vm_follows);
      assert (HDE : forall m' s', exists n,
                follows newUID
                  ((if kuberneteshelper.HasFinalizer m finalizerDisks
                    then replicate n Disk else []) ++ [VirtualMachine])
                  (run h (and_then D E) m' s'))
  end.
  { intros m' s'. destruct (HD m' s') as [n Hn]. exists n.
    apply follows_and_then; [exact Hn | exact HE]. }
  destruct (follows_and_then_ex h newUID _ _ _ _ HA
              (follows_and_then_ex h newUID _ _ _ _ HB
                 (follows_and_then_ex h newUID _ _ _ _ HC HDE)) m s1) as [n Hn].
  exists n. unfold follows in *. cbn [after outcome trace].
  match goal with
  | |- context [outcome ?r] => destruct (outcome r) as [[err|]|msg]
  end.
  - destruct Hn as [(pre & o & Ht & Hpre) Hw]. split; [|exact Hw].
    exists (Called (getVMClient config) true :: pre), o. rewrite Ht.
    split; [reflexivity | exact Hpre].
  - exact Hn.
  - exact Hn.
Qed.

Lemma failed_call_absent (t pre post : list Event) (o : Op) :
  forallb succeeded t = true -> t <> pre ++ Called o false :: post.
Proof.
  intros Hok ->. rewrite forallb_app in Hok. simpl in Hok.
  by rewrite andb_false_r in Hok.
Qed.

Lemma failed_call_is_last (pre' pre post : list Event) (o o' : Op) :
  forallb succeeded pre' = true ->
  pre' ++ [Called o' false] = pre ++ Called o false :: post ->
  post = [].
Proof.
  revert pre. induction pre' as [|a pre' IH]; intros pre Hok Heq.
  - destruct pre as [|e pre]; simpl in Heq.
    + by injection Heq as _ <-.
    + injection Heq as _ Heq. destruct pre; discriminate.
  - simpl in Hok. apply andb_true_iff in Hok as [Ha Hok].
    destruct pre as [|e pre]; simpl in Heq.
    + injection Heq as -> _. discriminate.
    + injection Heq as _ Heq. by apply (IH pre).
Qed.

Lemma calls_only_MigrateUID_disks config newUID disks :
  calls_only (fun _ => true) (MigrateUID_disks config newUID disks).
Proof.
  induction disks as [|disk disks IH]; [exact I|].
  cbn [MigrateUID_disks]. prog_solve.
Qed.

#[local] Hint Resolve calls_only_MigrateUID_disks : prog.

(** [MigrateUID] asks for no change of the Machine record. *)
Lemma calls_only_MigrateUID p m newUID : calls_only (fun _ => true) (MigrateUID p m newUID).
Proof. unfold MigrateUID, and_then. prog_solve. Qed.

(** *** The calls of [MigrateUID], one by one *)

Lemma performs_after {S} (h : Handler S) (o : Op) (plan : list Op) (complete : bool)
    (s s' : S) (a : OpVal o) (r : Run (option error) S) :
  answer h o s = (Ok a, s') ->
  performs h plan complete s' r ->
  performs h (o :: plan) complete s (after (Called o true) r).
Proof.
  intros Ha [Ht Ho]. unfold performs. cbn [attempt after trace outcome]. rewrite Ha.
  split; [by rewrite Ht|]. destruct (outcome r) as [[err|]|msg]; simpl; done.
Qed.

Lemma performs_failed {S} (h : Handler S) (o : Op) (plan : list Op) (complete : bool)
    (s s' : S) (e err : error) (m : Machine) :
  answer h o s = (Error e, s') ->
  performs h (o :: plan) complete s
    (after (Called o false)
       {| outcome := Returned (Some err); machine := m; service := s'; trace := [] |}).
Proof. intros Ha. unfold performs. cbn [attempt after trace outcome]. by rewrite Ha. Qed.

Lemma then_run_after {S A B} (e : Event) (r : Run A S) (k : A -> Machine -> S -> Run B S) :
  then_run (after e r) k = after e (then_run r k).
Proof. unfold then_run, after. simpl. by destruct (outcome r). Qed.

(** The loop over the disks and what follows it. *)
Lemma MigrateUID_disks_performs {S} (h : Handler S) (config : config) (newUID : string)
    (rest : Prog (option error)) (plan : list Op) (disks : list compute.Disk)
    (m : Machine) (s : S) :
  (forall m' s', performs h plan true s' (run h rest m' s')) ->
  performs h
    (MigrateUID_disk_calls config newUID disks
     ++ (if forallb disk_complete disks then plan else []))
    (forallb disk_complete disks) s
    (run h (and_then (MigrateUID_disks config newUID disks) rest) m s).
Proof.
  intros Hrest. revert s. induction disks as [|disk disks IH]; intros s.
  - rewrite run_and_then. unfold then_run. simpl.
    destruct (run h rest m s) as [o m' s' t] eqn:E. simpl.
    specialize (Hrest m s). rewrite E in Hrest. exact Hrest.
  - cbn [MigrateUID_disks MigrateUID_disk_calls forallb].
    destruct (compute.Disk_Tags disk) as [tags|] eqn:Et.
    2:{ replace (disk_complete disk) with false by (unfold disk_complete; by rewrite Et).
        rewrite run_and_then. by split. }
    cbn [compute.Disk_Name].
    destruct (compute.Disk_Name disk) as [name|] eqn:En.
    2:{ replace (disk_complete disk) with false by (unfold disk_complete; by rewrite Et, En).
        rewrite run_and_then. by split. }
    replace (disk_complete disk) with true by (unfold disk_complete; by rewrite Et, En).
    cbn [andb]. rewrite run_and_then, run_try_call.
    destruct (answer h _ s) as [[a|e] s1] eqn:E1.
    2:{ unfold then_run. cbn. eapply performs_failed. exact E1. }
    rewrite then_run_after. rewrite <- !app_comm_cons.
    eapply performs_after; [exact E1|].
    rewrite run_try_call.
    destruct (answer h diskFuture_WaitForCompletionRef s1) as [[a2|e] s2] eqn:E2.
    2:{ unfold then_run. cbn. eapply performs_failed. exact E2. }
    rewrite then_run_after.
    eapply performs_after; [exact E2|].
    rewrite <- run_and_then. apply IH.
Qed.

Lemma run_and_then_Ret {S} (h : Handler S) (rest : Prog (option error))
    (m : Machine) (s : S) :
  run h (and_then (Ret None) rest) m s = run h rest m s.
Proof.
  rewrite run_and_then. unfold then_run. simpl. by destruct (run h rest m s).
Qed.

Lemma run_and_then_try {S} (h : Handler S) (o : Op) (g : error -> error)
    (k : OpVal o -> Prog (option error)) (rest : Prog (option error))
    (m : Machine) (s : S) :
  run h (and_then (try (call o) (fun err => Some (g err)) k) rest) m s
  = match answer h o s with
    | (Ok a, s') => after (Called o true) (run h (and_then (k a) rest) m s')
    | (Error e, s') =>
        after (Called o false)
          {| outcome := Returned (Some (g e)); machine := m; service := s'; trace := [] |}
    end.
Proof.
  rewrite run_and_then, run_try_call.
  destruct (answer h o s) as [[a|e] s'].
  - by rewrite then_run_after, <- run_and_then.
  - reflexivity.
Qed.

(** One call of the plan, its test, and the rest of the plan. *)
Ltac performs_call :=
  first [rewrite run_and_then_try | rewrite run_try_call];
  match goal with
  | |- performs ?h (?o :: _) _ ?s _ =>
      let E := fresh "E" in
      destruct (answer h o s) as [[?|?] ?] eqn:E; cbn [snd fst] in *;
      [eapply performs_after; [exact E|]; rewrite ?run_and_then_Ret
      |eapply performs_failed; exact E]
  end.

Lemma MigrateUID_performs {S} (h : Handler S) (p : provider) (m : Machine)
    (newUID : string) (s : S) (config : config)
    (providerCfg : providerconfigtypes.Config azuretypes.RawConfig) :
  getConfig p (ProviderSpec_of (Spec m)) = Ok (config, providerCfg) ->
  performs h (MigrateUID_calls m newUID config (MigrateUID_listed h m newUID config s))
    (forallb disk_complete (MigrateUID_listed h m newUID config s)) s
    (run h (MigrateUID p m newUID) m s).
Proof.
  intros Hc.
  unfold MigrateUID, MigrateUID_calls, MigrateUID_listed, MigrateUID_address_calls.
  rewrite Hc. cbv zeta.
  destruct (kuberneteshelper.HasFinalizer m finalizerPublicIPv6),
    (kuberneteshelper.HasFinalizer m finalizerPublicIP),
    (kuberneteshelper.HasFinalizer m finalizerNIC),
    (kuberneteshelper.HasFinalizer m finalizerDisks);
    cbn [app service_after forallb MigrateUID_disk_calls];
    rewrite ?run_and_then_Ret;
    repeat performs_call.
  all: try (apply (MigrateUID_disks_performs h config newUID _ (MigrateUID_vm_calls m newUID config)); intros m' s').
  all: unfold MigrateUID_vm_calls; repeat performs_call.
  all: by split.
Qed.

(** *** What [attempt] leaves in the trace *)

Lemma calls_attempt_prefix {S} (h : Handler S) (plan : list Op) (s : S) :
  calls (attempt h plan s) `prefix_of` plan.
Proof.
  revert s. induction plan as [|o plan IH]; intros s; simpl; [done|].
  destruct (answer h o s) as [[a|e] s'].
  - change (calls (Called o true :: attempt h plan s'))
      with (o :: calls (attempt h plan s')).
    by apply prefix_cons.
  - change (calls [Called o false]) with [o]. apply prefix_cons, prefix_nil.
Qed.

Lemma calls_attempt_succeeded {S} (h : Handler S) (plan : list Op) (s : S) :
  forallb succeeded (attempt h plan s) = true -> calls (attempt h plan s) = plan.
Proof.
  revert s. induction plan as [|o plan IH]; intros s; simpl; [done|].
  destruct (answer h o s) as [[a|e] s']; simpl; [|done].
  intros H. change (calls (Called o true :: attempt h plan s'))
              with (o :: calls (attempt h plan s')).
  by rewrite IH.
Qed.

Lemma writes_calls (t : list Event) : writes t = omap written (calls t).
Proof.
  unfold writes, calls.
  induction t as [|[o ok|fs|] t IH]; [reflexivity| |exact IH|exact IH].
  cbn [omap list_omap]. rewrite IH. by destruct (written o).
Qed.

Lemma omap_prefix {A B} (f : A -> option B) (l1 l2 : list A) :
  l1 `prefix_of` l2 -> omap f l1 `prefix_of` omap f l2.
Proof. intros [k ->]. rewrite omap_app. by apply prefix_app_r. Qed.

(** The calls for the disks write the disks, each with the new UID as
    its tag. *)
Lemma written_disk_calls (config : config) (newUID : string) (disks : list compute.Disk) :
  omap written (MigrateUID_disk_calls config newUID disks)
  `prefix_of` tagged newUID (replicate (length disks) Disk)
  /\ (forallb disk_complete disks = true ->
      omap written (MigrateUID_disk_calls config newUID disks)
      = tagged newUID (replicate (length disks) Disk)).
Proof.
  induction disks as [|disk disks [IHp IHe]]; [done|].
  cbn [MigrateUID_disk_calls forallb]. unfold disk_complete at 1.
  destruct (compute.Disk_Tags disk) as [tags|]; [|split; [apply prefix_nil | done]].
  destruct (compute.Disk_Name disk) as [name|]; [|split; [apply prefix_nil | done]].
  cbn [omap list_omap written compute.Disk_Tags andb length replicate].
  rewrite uid_tag_insert. split.
  - by apply prefix_cons.
  - intros H. by rewrite IHe.
Qed.

(** The resources the plan writes, with their tag. *)
Lemma written_MigrateUID_calls (m : Machine) (newUID : string) (config : config)
    (disks : list compute.Disk) :
  omap written (MigrateUID_calls m newUID config disks)
  `prefix_of` tagged newUID (MigrateUID_plan m (length disks))
  /\ (forallb disk_complete disks = true ->
      omap written (MigrateUID_calls m newUID config disks)
      = tagged newUID (MigrateUID_plan m (length disks))).
Proof.
  destruct (written_disk_calls config newUID disks) as [Hp He].
  set (addresses :=
         (if kuberneteshelper.HasFinalizer m finalizerPublicIPv6 then [PublicIPv6] else [])
         ++ (if kuberneteshelper.HasFinalizer m finalizerPublicIP then [PublicIPv4] else [])
         ++ (if kuberneteshelper.HasFinalizer m finalizerNIC then [NetworkInterface]
             else [])).
  assert (Hplan : tagged newUID (MigrateUID_plan m (length disks))
                  = tagged newUID addresses
                    ++ (if kuberneteshelper.HasFinalizer m finalizerDisks
                        then tagged newUID (replicate (length disks) Disk) else [])
                    ++ [(VirtualMachine, Some newUID)]).
  { unfold MigrateUID_plan, addresses.
    destruct (kuberneteshelper.HasFinalizer m finalizerPublicIPv6),
      (kuberneteshelper.HasFinalizer m finalizerPublicIP),
      (kuberneteshelper.HasFinalizer m finalizerNIC),
      (kuberneteshelper.HasFinalizer m finalizerDisks);
      rewrite ?tagged_app; reflexivity. }
  assert (Hcalls : omap written (MigrateUID_calls m newUID config disks)
                   = tagged newUID addresses
                     ++ (if kuberneteshelper.HasFinalizer m finalizerDisks
                         then omap written (MigrateUID_disk_calls config newUID disks)
                         else [])
                     ++ (if forallb disk_complete disks
                         then [(VirtualMachine, Some newUID)] else [])).
  { unfold MigrateUID_calls, MigrateUID_address_calls, MigrateUID_vm_calls, addresses.
    destruct (kuberneteshelper.HasFinalizer m finalizerPublicIPv6),
      (kuberneteshelper.HasFinalizer m finalizerPublicIP),
      (kuberneteshelper.HasFinalizer m finalizerNIC),
      (kuberneteshelper.HasFinalizer m finalizerDisks),
      (forallb disk_complete disks);
      rewrite ?omap_app; cbn [omap list_omap written app compute.Tags];
      unfold vm_tags; rewrite ?uid_tag_insert, ?app_nil_r; reflexivity. }
  rewrite Hplan, Hcalls. split.
  - apply prefix_app.
    destruct (kuberneteshelper.HasFinalizer m finalizerDisks).
    + destruct (forallb disk_complete disks).
      * rewrite (He eq_refl). done.
      * rewrite app_nil_r. by apply prefix_app_r.
    + destruct (forallb disk_complete disks); [done | apply prefix_nil].
  - intros Hc. rewrite Hc.
    destruct (kuberneteshelper.HasFinalizer m finalizerDisks); [|done].
    by rewrite (He Hc).
Qed.




(** [MigrateUID] twice with the same new UID, against a service whose
    calls succeed: both calls return no error, and the virtual machine
    and the disk carry the new UID after each. *)
Example MigrateUID_twice :
  outcome simulation.first_MigrateUID = Returned None
  /\ outcome simulation.second_MigrateUID = Returned None
  /\ map (fun vm => uid_tag (compute.Tags vm))
       (simulation.cloud_vms (service simulation.first_MigrateUID)) = [Some "uid-2"]
  /\ map (fun vm => uid_tag (compute.Tags vm))
       (simulation.cloud_vms (service simulation.second_MigrateUID)) = [Some "uid-2"]
  /\ map (fun d => uid_tag (compute.Disk_Tags d))
       (simulation.cloud_disks (service simulation.second_MigrateUID)) = [Some "uid-2"]
  /\ map fst (writes (trace simulation.second_MigrateUID))
     = [PublicIPv6; PublicIPv4; NetworkInterface; VirtualMachine].
Proof. vm_compute. repeat split; reflexivity. Qed.

(** ** [Cleanup] *)

Lemma deletes_reads (t : list Event) : Forall (call_of reads) t -> deletes t = [].
Proof.
  induction 1 as [|e t He _ IH]; [reflexivity|].
  destruct e as [o ok| |]; simpl in He; try contradiction.
  unfold deletes in *. destruct o; try discriminate He; simpl; exact IH.
Qed.

Lemma deletes_app (t1 t2 : list Event) : deletes (t1 ++ t2) = deletes t1 ++ deletes t2.
Proof. unfold deletes. apply omap_app. Qed.

Lemma RemoveFinalizer_absent (l : list string) (f : string) :
  f ∉ l -> kuberneteshelper.RemoveFinalizer l f = l.
Proof.
  unfold kuberneteshelper.RemoveFinalizer.
  induction l as [|x l IH]; intros Hf; [reflexivity|].
  apply not_elem_of_cons in Hf as [Hne Hf].
  rewrite filter_cons_True by congruence. by rewrite IH.
Qed.

Lemma RemoveFinalizer_removes (l : list string) (f : string) :
  f ∉ kuberneteshelper.RemoveFinalizer l f.
Proof.
  unfold kuberneteshelper.RemoveFinalizer. intros H.
  apply list_elem_of_filter in H as [H _]. congruence.
Qed.

Lemma RemoveFinalizer_keeps (l : list string) (f g : string) :
  g <> f -> g ∈ l -> g ∈ kuberneteshelper.RemoveFinalizer l f.
Proof.
  unfold kuberneteshelper.RemoveFinalizer. intros Hne H.
  apply list_elem_of_filter. by split.
Qed.

(** What [Cleanup] does when [Get] reports that the instance is not
    found: it deletes nothing; it is done at once when the Machine does
    not carry the finalizer of the virtual machine; otherwise it asks
    for the removal of that finalizer, and of that one only, and is
    done when the record store accepts it. *)
Lemma Cleanup_instance_not_found {S} (h : Handler S) (p : provider) (m : Machine) (s : S)
    config providerCfg :
  getConfig p (ProviderSpec_of (Spec m)) = Ok (config, providerCfg) ->
  outcome (run h (get p m) m s) = Returned (Error ErrInstanceNotFound) ->
  let r := run h (Cleanup p m) m s in
  deletes (trace r) = []
  /\ (kuberneteshelper.HasFinalizer m finalizerVM = false ->
      outcome r = Returned (true, None) /\ machine r = m)
  /\ (outcome r = Returned (true, None) ->
      Finalizers (machine r)
      = kuberneteshelper.RemoveFinalizer (Finalizers m) finalizerVM)
  /\ (forall done err, outcome r = Returned (done, Some err) ->
      done = false /\ trace r = trace (run h (get p m) m s) ++ [UpdateFailed]).
Proof.
  intros Hc Hget r. subst r. unfold Cleanup. rewrite Hc, run_mbind.
  destruct (calls_only_run h reads (get p m) m s (calls_only_get p m)) as [Hm Ht].
  unfold then_run. rewrite Hget, Hm. cbn [is_ErrInstanceNotFound].
  unfold util_RemoveFinalizerOnInstanceNotFound.
  destruct (kuberneteshelper.HasFinalizer m finalizerVM) eqn:Hhas; cbn [negb].
  - rewrite run_try_update.
    destruct (persist h _ (service (run h (get p m) m s))) as [[e|] s'];
      cbn [after outcome machine trace run];
      rewrite deletes_app, (deletes_reads _ Ht); split_and!; try done.
    intros done err [= <- _]. done.
  - cbn [run outcome machine trace]. rewrite app_nil_r, (deletes_reads _ Ht).
    split_and!; try done.
    intros _. symmetry. apply RemoveFinalizer_absent.
    unfold kuberneteshelper.HasFinalizer in Hhas. by apply bool_decide_eq_false in Hhas.
Qed.


Ltac cleanup_leaf removed deleted :=
  exists removed, deleted; cbn;
  split_and!; try done; try lia; try (intros; lia); eauto.

(** What [Cleanup] does when [Get] finds the instance: it deletes the
    resources in its order and removes the finalizer of each after the
    deletion; when a deletion or a removal fails it returns an error,
    and the finalizers of that step and of the steps after it are left
    as they were ([removed] counts the finalizers removed, [deleted]
    the deletions asked for); it reports done exactly when all four
    were removed. *)
Lemma Cleanup_instance_found {St} (h : Handler St) (p : provider) (m : Machine) (s : St)
    config providerCfg inst :
  getConfig p (ProviderSpec_of (Spec m)) = Ok (config, providerCfg) ->
  outcome (run h (get p m) m s) = Returned (Ok inst) ->
  let r := run h (Cleanup p m) m s in
  exists removed deleted,
    removed <= deleted <= S removed /\ deleted <= 4
    /\ deletes (trace r) = take deleted Cleanup_resources
    /\ Finalizers (machine r)
       = remove_finalizers (take removed Cleanup_finalizers) (Finalizers m)
    /\ (outcome r = Returned (true, None) <-> removed = 4)
    /\ (removed < 4 -> exists err, outcome r = Returned (false, Some err)).
Proof.
  intros Hc Hget r. subst r. unfold Cleanup. rewrite Hc, run_mbind.
  destruct (calls_only_run h reads (get p m) m s (calls_only_get p m)) as [Hm Ht].
  unfold then_run. rewrite Hget, Hm. cbn [outcome machine service trace].
  rewrite deletes_app, (deletes_reads _ Ht), app_nil_l.
  generalize (service (run h (get p m) m s)). intros s0.
  rewrite run_try_call.
  destruct (answer h _ s0) as [[[]|e] s1]; [|cleanup_leaf 0 1].
  rewrite run_try_update.
  destruct (persist h _ s1) as [[e|] s2]; [cleanup_leaf 0 1|].
  rewrite run_try_call.
  destruct (answer h _ s2) as [[[]|e] s3]; [|cleanup_leaf 1 2].
  rewrite run_try_update.
  destruct (persist h _ s3) as [[e|] s4]; [cleanup_leaf 1 2|].
  rewrite run_try_call.
  destruct (answer h _ s4) as [[[]|e] s5]; [|cleanup_leaf 2 3].
  rewrite run_try_update.
  destruct (persist h _ s5) as [[e|] s6]; [cleanup_leaf 2 3|].
  rewrite run_try_call.
  destruct (answer h _ s6) as [[[]|e] s7]; [|cleanup_leaf 3 4].
  rewrite run_try_update.
  destruct (persist h _ s7) as [[e|] s8]; [cleanup_leaf 3 4|].
  cleanup_leaf 4 4.
Qed.

(** C2, at the input the code fails on.  [Cleanup] of a created
    machine is interrupted: the virtual machine is deleted and its
    finalizer removed, the deletion of the disks fails, an error is
    returned and the finalizers of the public IP, the interface and the
    disks are left.  [Cleanup] is then called once more, the service
    being healthy: [Get] no longer finds the instance, and the call
    reports done without a single deletion and with the three
    finalizers still on the Machine. *)
Theorem Cleanup_does_not_resume :
  outcome simulation.interrupted_Cleanup
  = Returned (false, Some (Errorf "failed to remove disks of machine %q: %v"
                             (Remote "service unavailable")))
  /\ deletes (trace simulation.interrupted_Cleanup) = [VirtualMachine; Disk]
  /\ Finalizers (machine simulation.interrupted_Cleanup)
     = [finalizerPublicIP; finalizerNIC; finalizerDisks]
  /\ simulation.cloud_vms (service simulation.interrupted_Cleanup) = []
  /\ outcome simulation.resumed_Cleanup = Returned (true, None)
  /\ deletes (trace simulation.resumed_Cleanup) = []
  /\ Finalizers (machine simulation.resumed_Cleanup)
     = [finalizerPublicIP; finalizerNIC; finalizerDisks]
  /\ simulation.cloud_disks (service simulation.resumed_Cleanup)
     = [simulation.example_disk].
Proof. vm_compute. repeat split; reflexivity. Qed.

(** C4, at the input the code fails on.  The virtual machine of a
    created machine was deleted by hand.  [Cleanup] returns no error
    and reports done, and it has removed the finalizer of the virtual
    machine only: the finalizers of the public IP, the interface and
    the disks are still on the Machine, and nothing was deleted. *)
Theorem Cleanup_not_found_leaves_finalizers :
  outcome (run simulation.the_cloud
             (Get simulation.example_provider
                (simulation.example_machine simulation.created_finalizers))
             (simulation.example_machine simulation.created_finalizers)
             simulation.vanished_cloud)
  = Returned (Error ErrInstanceNotFound)
  /\ outcome simulation.vanished_Cleanup = Returned (true, None)
  /\ Finalizers (machine simulation.vanished_Cleanup)
     = [finalizerPublicIP; finalizerNIC; finalizerDisks]
  /\ deletes (trace simulation.vanished_Cleanup) = []
  /\ simulation.cloud_disks (service simulation.vanished_Cleanup)
     = [simulation.example_disk].
Proof. vm_compute. repeat split; reflexivity. Qed.

(** * Further properties of the code *)

(** ** Annotations and labels

    The names of annotations. *)

Lemma append_inj_l (p a b : string) : p +:+ a = p +:+ b -> a = b.
Proof.
  induction p as [|c p IH]; intros H; [exact H|].
  change (String c (p +:+ a) = String c (p +:+ b)) in H.
  injection H as H. apply IH, H.
Qed.

#[local] Instance annotation_name_inj (prefix : string) :
  Inj (=) (=) (consts.annotation_name prefix).
Proof.
  intros k1 k2 H. unfold consts.annotation_name in H.
  apply append_inj_l in H. apply append_inj_l in H. exact H.
Qed.

Lemma HasPrefix_app (p rest : string) : strings.HasPrefix (p +:+ rest) p = true.
Proof. unfold strings.HasPrefix. rewrite strip_prefix_app. reflexivity. Qed.

Lemma cut_app (pre behind : string) (sep : ascii) :
  strings.cut pre sep = None ->
  strings.cut (pre +:+ String sep behind) sep = Some (pre, behind).
Proof.
  induction pre as [|c pre IH]; intros H; simpl in *.
  - rewrite Ascii.eqb_refl. reflexivity.
  - destruct (Ascii.eqb c sep); [discriminate|].
    destruct (strings.cut pre sep) as [[a b]|]; [discriminate|].
    change (String c pre +:+ String sep behind) with (String c (pre +:+ String sep behind)).
    rewrite IH by reflexivity. reflexivity.
Qed.

Lemma cut_Some (s before behind : string) (sep : ascii) :
  strings.cut s sep = Some (before, behind) ->
  s = before +:+ String sep behind /\ strings.cut before sep = None.
Proof.
  revert before. induction s as [|c s IH]; intros before H; simpl in H; [discriminate|].
  destruct (Ascii.eqb c sep) eqn:E.
  - apply Ascii.eqb_eq in E. subst c. injection H as <- <-. split; reflexivity.
  - destruct (strings.cut s sep) as [[a b]|]; [|discriminate].
    injection H as <- <-. destruct (IH a eq_refl) as [-> Ha].
    split; [reflexivity|]. simpl. rewrite E, Ha. reflexivity.
Qed.

(** The name a writer makes for a key is read back as that key. *)
Lemma annotation_key_name (prefix k : string) :
  strings.cut prefix "/"%char = None ->
  consts.annotation_key prefix (consts.annotation_name prefix k) = Some k.
Proof.
  intros H. unfold consts.annotation_key, consts.annotation_name.
  rewrite HasPrefix_app. unfold strings.SplitN_2.
  change ("/" +:+ k) with (String "/"%char k).
  rewrite (cut_app prefix k "/"%char H). reflexivity.
Qed.

(** A name that is read as a key has the prefix, and holds the key
    behind its first slash. *)
Lemma annotation_key_Some (prefix name key : string) :
  consts.annotation_key prefix name = Some key ->
  strings.HasPrefix name prefix = true
  /\ exists pre, name = pre +:+ "/" +:+ key /\ strings.cut pre "/"%char = None.
Proof.
  unfold consts.annotation_key, strings.SplitN_2. intros H.
  destruct (strings.HasPrefix name prefix); [|discriminate].
  split; [reflexivity|].
  destruct (strings.cut name "/"%char) as [[a b]|] eqn:E; [|discriminate].
  injection H as <-. apply cut_Some in E as [-> Ha]. exists a. split; [reflexivity | exact Ha].
Qed.

(** ** The loops of the writers and of the readers *)

Lemma writer_lookup {V} (key : string -> string) (enc : V -> string) `{!Inj (=) (=) key}
    (order : list (string * V)) (annts : gmap string string) :
  NoDup order.*1 ->
  let result := foldl (fun annts '(k, v) => <[key k := enc v]> annts) annts order in
  (forall k v, (k, v) ∈ order -> result !! key k = Some (enc v))
  /\ (forall name, (forall k v, (k, v) ∈ order -> name <> key k) ->
      result !! name = annts !! name).
Proof.
  revert annts. induction order as [|[k0 v0] order IH]; intros annts Hnd; simpl.
  - split; [intros k v H; by apply elem_of_nil in H | reflexivity].
  - simpl in Hnd. apply NoDup_cons in Hnd as [Hk0 Hnd].
    destruct (IH (<[key k0 := enc v0]> annts) Hnd) as [IH1 IH2]. split.
    + intros k v Hin. apply elem_of_cons in Hin as [[= -> ->]|Hin]; [|by apply IH1].
      rewrite IH2; [apply lookup_insert_eq|].
      intros k' v' Hin' Heq. apply (inj key) in Heq. subst k'.
      apply Hk0. apply list_elem_of_fmap. exists (k0, v'). done.
    + intros name Hname. rewrite IH2.
      * apply lookup_insert_ne. intros Heq. by apply (Hname k0 v0); [left|].
      * intros k v Hin. apply (Hname k v). by right.
Qed.

Section readers.
Context {V : Type} (prefix : string) (dec : string -> V).

Lemma reader_frame (order : list (string * string)) (acc : gmap string V) (key : string) :
  (forall name value, (name, value) ∈ order ->
                      consts.annotation_key prefix name <> Some key) ->
  foldl (fun (result : gmap string V) '(name, value) =>
     match consts.annotation_key prefix name with
     | Some key => <[key := dec value]> result
     | None => result
     end) acc order !! key = acc !! key.
Proof.
  revert acc. induction order as [|[n0 v0] order IH]; intros acc H; simpl; [reflexivity|].
  rewrite IH by (intros n v ?; apply (H n v); by right).
  destruct (consts.annotation_key prefix n0) as [k0|] eqn:E; [|reflexivity].
  apply lookup_insert_ne. intros ->. by apply (H n0 v0); [left|].
Qed.

Lemma reader_sound (order : list (string * string)) (acc : gmap string V)
    (key : string) (v : V) :
  foldl (fun (result : gmap string V) '(name, value) =>
     match consts.annotation_key prefix name with
     | Some key => <[key := dec value]> result
     | None => result
     end) acc order !! key = Some v ->
  acc !! key = Some v
  \/ exists name value, (name, value) ∈ order
                        /\ consts.annotation_key prefix name = Some key /\ v = dec value.
Proof.
  revert acc. induction order as [|[n0 v0] order IH]; intros acc H; simpl in H; [by left|].
  destruct (IH _ H) as [Hacc|(name & value & Hin & Hk & ->)].
  - destruct (consts.annotation_key prefix n0) as [k0|] eqn:E; [|by left].
    destruct (decide (k0 = key)) as [->|Hne].
    + rewrite lookup_insert_eq in Hacc. injection Hacc as <-.
      right. exists n0, v0. split_and!; [by left | done | done].
    + rewrite lookup_insert_ne in Hacc by done. by left.
  - right. exists name, value. split_and!; [by right | done | done].
Qed.

Lemma reader_complete (order : list (string * string)) (acc : gmap string V)
    (name value key : string) :
  (name, value) ∈ order ->
  consts.annotation_key prefix name = Some key ->
  (forall name' value', (name', value') ∈ order ->
                        consts.annotation_key prefix name' = Some key ->
                        name' = name /\ value' = value) ->
  foldl (fun (result : gmap string V) '(name, value) =>
     match consts.annotation_key prefix name with
     | Some key => <[key := dec value]> result
     | None => result
     end) acc order !! key = Some (dec value).
Proof.
  revert acc. induction order as [|[n0 v0] order IH]; intros acc Hin Hk Huniq.
  - by apply elem_of_nil in Hin.
  - simpl. destruct (decide ((name, value) ∈ order)) as [Hin'|Hnin].
    + apply IH; [done | done |]. intros n' v' ? ?; apply (Huniq n' v'); [by right | done].
    + apply elem_of_cons in Hin as [[= <- <-]|Hin]; [|done].
      rewrite Hk. rewrite reader_frame; [apply lookup_insert_eq|].
      intros name' value' Hin' Hk'.
      destruct (Huniq name' value') as [-> ->]; [by right | done | done].
Qed.
End readers.

Lemma elem_of_ranges {V} (m : gmap string V) order k v :
  consts.ranges m order -> (k, v) ∈ order <-> m !! k = Some v.
Proof.
  unfold consts.ranges. intros H. rewrite H. apply elem_of_map_to_list.
Qed.

Lemma NoDup_ranges {V} (m : gmap string V) order :
  consts.ranges m order -> NoDup order.*1.
Proof.
  unfold consts.ranges. intros H. rewrite H. apply NoDup_fst_map_to_list.
Qed.

Lemma ranges_map_to_list {V} (m : gmap string V) : consts.ranges m (map_to_list m).
Proof. unfold consts.ranges. reflexivity. Qed.

(** What a writer leaves among the annotations. *)
Lemma writer_annotations {V} (prefix : string) (enc : V -> string)
    (m : gmap string V) order (annts : gmap string string) :
  consts.ranges m order ->
  let result := foldl (fun annts '(k, v) => <[consts.annotation_name prefix k := enc v]> annts)
                  annts order in
  (forall k v, m !! k = Some v -> result !! consts.annotation_name prefix k = Some (enc v))
  /\ (forall name, (forall k, is_Some (m !! k) -> name <> consts.annotation_name prefix k) ->
      result !! name = annts !! name)
  /\ (forall name value, result !! name = Some value ->
      (exists k v, m !! k = Some v /\ name = consts.annotation_name prefix k /\ value = enc v)
      \/ ((forall k, is_Some (m !! k) -> name <> consts.annotation_name prefix k)
          /\ annts !! name = Some value)).
Proof.
  intros Hr result.
  destruct (writer_lookup (consts.annotation_name prefix) enc order annts (NoDup_ranges _ _ Hr))
    as [H1 H2].
  fold result in H1, H2.
  assert (Hframe : forall name,
            (forall k, is_Some (m !! k) -> name <> consts.annotation_name prefix k) ->
            result !! name = annts !! name).
  { intros name Hname. apply H2. intros k v Hin. apply Hname.
    exists v. by apply (elem_of_ranges m order). }
  split_and!.
  - intros k v Hkv. apply H1. by apply (elem_of_ranges m order).
  - exact Hframe.
  - intros name value Hres.
    destruct (decide (name ∈ consts.annotation_name prefix <$> order.*1)) as [Hin|Hnin].
    + left. apply list_elem_of_fmap in Hin as (k & -> & Hin).
      apply list_elem_of_fmap in Hin as ([k' v] & -> & Hin). simpl in *.
      exists k', v. rewrite (H1 _ _ Hin) in Hres. injection Hres as <-.
      split_and!; [by apply (elem_of_ranges m order) | done | done].
    + right.
      assert (Hname : forall k, is_Some (m !! k) -> name <> consts.annotation_name prefix k).
      { intros k [v Hkv] ->. apply Hnin. apply list_elem_of_fmap. exists k. split; [done|].
        apply list_elem_of_fmap. exists (k, v). split; [done|].
        by apply (elem_of_ranges m order). }
      split; [exact Hname|]. by rewrite <- Hframe.
Qed.

(** A writer's result does not depend on the order of its range. *)
Lemma writer_order {V} (prefix : string) (enc : V -> string)
    (m : gmap string V) order1 order2 (annts : gmap string string) :
  consts.ranges m order1 -> consts.ranges m order2 ->
  foldl (fun annts '(k, v) => <[consts.annotation_name prefix k := enc v]> annts) annts order1
  = foldl (fun annts '(k, v) => <[consts.annotation_name prefix k := enc v]> annts) annts order2.
Proof.
  intros H1 H2. apply map_eq. intros name.
  destruct (writer_annotations prefix enc m order1 annts H1) as (A1 & A2 & _).
  destruct (writer_annotations prefix enc m order2 annts H2) as (B1 & B2 & _).
  destruct (decide (name ∈ consts.annotation_name prefix <$> order1.*1)) as [Hin|Hnin].
  - apply list_elem_of_fmap in Hin as (k & -> & Hin).
    apply list_elem_of_fmap in Hin as ([k' v] & -> & Hin). simpl.
    apply (elem_of_ranges m order1 _ _ H1) in Hin.
    by rewrite (A1 _ _ Hin), (B1 _ _ Hin).
  - assert (Hname : forall k, is_Some (m !! k) -> name <> consts.annotation_name prefix k).
    { intros k [v Hkv] ->. apply Hnin. apply list_elem_of_fmap. exists k. split; [done|].
      apply list_elem_of_fmap. exists (k, v). split; [done|].
      by apply (elem_of_ranges m order1). }
    by rewrite (A2 _ Hname), (B2 _ Hname).
Qed.

Lemma canonical_distinct (prefix : string) (annts : gmap string string) :
  consts.canonical prefix annts -> consts.distinct_keys prefix annts.
Proof.
  intros Hc name1 name2 key [v1 H1] [v2 H2] K1 K2.
  by rewrite (Hc _ _ _ H1 K1), (Hc _ _ _ H2 K2).
Qed.

Lemma without_keys_canonical (prefix : string) (annts : gmap string string) :
  consts.without_keys prefix annts -> consts.canonical prefix annts.
Proof. intros Hw name value key Hl Hk. rewrite (Hw _ _ Hl) in Hk. discriminate. Qed.

(** What a reader finds among canonical annotations. *)
Lemma reader_canonical {V} (prefix : string) (dec : string -> V)
    (annts : gmap string string) order (key : string) :
  strings.cut prefix "/"%char = None ->
  consts.canonical prefix annts ->
  consts.ranges annts order ->
  foldl (fun (result : gmap string V) '(name, value) =>
           match consts.annotation_key prefix name with
           | Some key => <[key := dec value]> result
           | None => result
           end) ∅ order !! key
  = dec <$> annts !! consts.annotation_name prefix key.
Proof.
  intros Hprefix Hc Hr.
  destruct (annts !! consts.annotation_name prefix key) as [value|] eqn:E; simpl.
  - apply (reader_complete prefix dec order ∅ (consts.annotation_name prefix key) value).
    + by apply (elem_of_ranges annts order).
    + by apply annotation_key_name.
    + intros name' value' Hin' Hk'.
      apply (elem_of_ranges annts order _ _ Hr) in Hin'.
      assert (name' = consts.annotation_name prefix key) as -> by (by eapply Hc).
      split; [reflexivity | congruence].
  - destruct (foldl _ ∅ order !! key) as [v|] eqn:Hres; [|reflexivity].
    apply (reader_sound prefix dec) in Hres as [Hres|(name & value & Hin & Hk & ->)].
    + by rewrite lookup_empty in Hres.
    + apply (elem_of_ranges annts order _ _ Hr) in Hin.
      rewrite (Hc _ _ _ Hin Hk) in Hin. congruence.
Qed.

(** Writing keeps the annotations canonical, for the prefix written
    under and for a prefix none of the names written is read under. *)
Lemma written_canonical {V} (prefix prefix' : string) (enc : V -> string)
    (m : gmap string V) order (annts : gmap string string) :
  (forall k, consts.annotation_key prefix' (consts.annotation_name prefix k) = None
             \/ (prefix' = prefix
                 /\ consts.annotation_key prefix (consts.annotation_name prefix k) = Some k)) ->
  consts.ranges m order ->
  consts.canonical prefix' annts ->
  consts.canonical prefix'
    (foldl (fun annts '(k, v) => <[consts.annotation_name prefix k := enc v]> annts)
       annts order).
Proof.
  intros Hk Hr Hc name value key Hl Hkey.
  destruct (writer_annotations prefix enc m order annts Hr) as (_ & _ & W3).
  destruct (W3 _ _ Hl) as [(k & v & _ & -> & _)|[_ Hold]]; [|by eapply Hc].
  destruct (Hk k) as [Hnone|[-> Hsome]]; congruence.
Qed.

(** Reading after writing: what was written, and otherwise what was
    there. *)
Lemma read_after_write {V} (prefix : string) (enc : V -> string) (dec : string -> V)
    (m : gmap string V) order order' (annts : gmap string string) (key : string) :
  strings.cut prefix "/"%char = None ->
  (forall v, dec (enc v) = v) ->
  consts.ranges m order ->
  consts.canonical prefix annts ->
  consts.ranges
    (foldl (fun annts '(k, v) => <[consts.annotation_name prefix k := enc v]> annts) annts order)
    order' ->
  foldl (fun (result : gmap string V) '(name, value) =>
           match consts.annotation_key prefix name with
           | Some key => <[key := dec value]> result
           | None => result
           end) ∅ order' !! key
  = match m !! key with
    | Some v => Some v
    | None => dec <$> annts !! consts.annotation_name prefix key
    end.
Proof.
  intros Hprefix Hdec Hr Hc Hr'.
  assert (Hcw : consts.canonical prefix
                  (foldl (fun annts '(k, v) =>
                            <[consts.annotation_name prefix k := enc v]> annts) annts order)).
  { apply (written_canonical prefix prefix enc m order annts); [|exact Hr|exact Hc].
    intros k. right. split; [reflexivity | by apply annotation_key_name]. }
  rewrite (reader_canonical prefix dec _ order' key Hprefix Hcw Hr').
  destruct (writer_annotations prefix enc m order annts Hr) as (W1 & W2 & _).
  destruct (m !! key) as [v|] eqn:Hm.
  - rewrite (W1 _ _ Hm). simpl. by rewrite Hdec.
  - rewrite W2; [reflexivity|]. intros k [v Hk] Heq.
    apply (inj (consts.annotation_name prefix)) in Heq. congruence.
Qed.

Lemma prefixes_without_slash :
  strings.cut consts.KubeletFeatureGatesAnnotationPrefixV1 "/"%char = None
  /\ strings.cut consts.KubeletFlagsGroupAnnotationPrefixV1 "/"%char = None
  /\ strings.cut consts.KubeletConfigAnnotationPrefixV1 "/"%char = None.
Proof. repeat split; vm_compute; reflexivity. Qed.

Lemma realBool_format_bool (v : bool) : consts.realBool (consts.format_bool v) = v.
Proof. destruct v; vm_compute; reflexivity. Qed.

Lemma reader_without_keys {V} (prefix : string) (dec : string -> V)
    (annts : gmap string string) order :
  strings.cut prefix "/"%char = None ->
  consts.without_keys prefix annts ->
  consts.ranges annts order ->
  foldl (fun (result : gmap string V) '(name, value) =>
           match consts.annotation_key prefix name with
           | Some key => <[key := dec value]> result
           | None => result
           end) ∅ order
  = ∅.
Proof.
  intros Hprefix Hw Hr. apply map_eq. intros key.
  rewrite (reader_canonical prefix dec annts order key Hprefix
             (without_keys_canonical _ _ Hw) Hr).
  rewrite lookup_empty.
  destruct (annts !! consts.annotation_name prefix key) as [value|] eqn:E; [|reflexivity].
  apply Hw in E. rewrite annotation_key_name in E by done. discriminate.
Qed.

(** Annotations that hold no name, or a single one. *)
Lemma canonical_empty (prefix : string) : consts.canonical prefix ∅.
Proof. intros name value key H. by rewrite lookup_empty in H. Qed.

Lemma without_keys_empty (prefix : string) : consts.without_keys prefix ∅.
Proof. intros name value H. by rewrite lookup_empty in H. Qed.

Lemma distinct_keys_singleton (prefix name value : string) :
  consts.distinct_keys prefix {[ name := value ]}.
Proof.
  intros name1 name2 key [v1 H1] [v2 H2] _ _.
  apply lookup_singleton_Some in H1 as [<- _].
  by apply lookup_singleton_Some in H2 as [<- _].
Qed.

(** X1. Reading back the feature gates that were written.  Take an
    object whose annotations are canonical for the prefix of the
    feature gates: a name that is read as a gate is the name the
    writer makes for that gate (so it is for an object without
    annotations, or one whose gate annotations the writer wrote).
    Whatever the iteration orders of the writer and of the reader,
    [SetKubeletFeatureGates] leaves annotations that are canonical
    again, and [GetKubeletFeatureGates] reads from them the gates that
    were written, with their values, and besides them the gates it
    read before; from an object that had no gate annotation it reads
    exactly the gates that were written. *)
Theorem KubeletFeatureGates_round_trip (metaobj : metav1.Object)
    (featureGates : gmap string bool) (order : list (string * bool)) :
  consts.ranges featureGates order ->
  consts.canonical consts.KubeletFeatureGatesAnnotationPrefixV1
    (consts.annotations_or_empty metaobj) ->
  exists annts,
    metav1.Annotations (consts.SetKubeletFeatureGates_ranging metaobj order) = Some annts
    /\ consts.canonical consts.KubeletFeatureGatesAnnotationPrefixV1 annts
    /\ (forall order0 order',
          consts.ranges (consts.annotations_or_empty metaobj) order0 ->
          consts.ranges annts order' ->
          consts.GetKubeletFeatureGates_ranging order'
          = featureGates ∪ consts.GetKubeletFeatureGates_ranging order0)
    /\ (consts.without_keys consts.KubeletFeatureGatesAnnotationPrefixV1
          (consts.annotations_or_empty metaobj) ->
        forall order', consts.ranges annts order' ->
                       consts.GetKubeletFeatureGates_ranging order' = featureGates).
Proof.
  intros Hr Hc. eexists. split; [reflexivity|].
  destruct prefixes_without_slash as (Hp & _ & _).
  assert (Hunion : forall order0 order',
            consts.ranges (consts.annotations_or_empty metaobj) order0 ->
            consts.ranges
              (foldl (fun annts '(k, v) =>
                        <[consts.annotation_name consts.KubeletFeatureGatesAnnotationPrefixV1 k
                          := consts.format_bool v]> annts)
                 (consts.annotations_or_empty metaobj) order) order' ->
            consts.GetKubeletFeatureGates_ranging order'
            = featureGates ∪ consts.GetKubeletFeatureGates_ranging order0).
  { intros order0 order' Hr0 Hr'. apply map_eq. intros key.
    unfold consts.GetKubeletFeatureGates_ranging.
    rewrite (read_after_write consts.KubeletFeatureGatesAnnotationPrefixV1 consts.format_bool
               consts.realBool featureGates order order' _ key Hp realBool_format_bool
               Hr Hc Hr').
    rewrite lookup_union.
    rewrite (reader_canonical consts.KubeletFeatureGatesAnnotationPrefixV1 consts.realBool
               _ order0 key Hp Hc Hr0).
    destruct (featureGates !! key) as [v|]; simpl.
    - by destruct (consts.realBool <$> _).
    - by destruct (consts.realBool <$> _). }
  split_and!.
  - apply (written_canonical consts.KubeletFeatureGatesAnnotationPrefixV1
             consts.KubeletFeatureGatesAnnotationPrefixV1 consts.format_bool
             featureGates order); [|exact Hr|exact Hc].
    intros k. right. split; [reflexivity | by apply annotation_key_name].
  - exact Hunion.
  - intros Hw order' Hr'.
    rewrite (Hunion (map_to_list (consts.annotations_or_empty metaobj)) order'
               (ranges_map_to_list _) Hr').
    unfold consts.GetKubeletFeatureGates_ranging.
    rewrite (reader_without_keys consts.KubeletFeatureGatesAnnotationPrefixV1 consts.realBool
               _ _ Hp Hw (ranges_map_to_list _)).
    apply (right_id_L ∅ (∪)).
Qed.

Lemma KubeletFeatureGates_round_trip_witness :
  consts.ranges examples.feature_gates (map_to_list examples.feature_gates)
  /\ consts.canonical consts.KubeletFeatureGatesAnnotationPrefixV1
       (consts.annotations_or_empty examples.fresh_object)
  /\ exists annts,
       metav1.Annotations
         (consts.SetKubeletFeatureGates_ranging examples.fresh_object
            (map_to_list examples.feature_gates)) = Some annts
       /\ consts.GetKubeletFeatureGates_ranging (map_to_list annts) = examples.feature_gates.
Proof.
  split; [apply ranges_map_to_list|]. split; [apply canonical_empty|].
  destruct (KubeletFeatureGates_round_trip examples.fresh_object examples.feature_gates
              (map_to_list examples.feature_gates))
    as (annts & Ha & _ & _ & Hread).
  - apply ranges_map_to_list.
  - apply canonical_empty.
  - exists annts. split; [exact Ha|].
    apply Hread; [apply without_keys_empty | apply ranges_map_to_list].
Defined.

(** X2. The same for the flags of the kubelet: after
    [SetKubeletFlags] on an object whose annotations are canonical for
    the prefix of the flags, [GetKubeletFlags] reads the flags that
    were written, with the values as they were given, and besides them
    the flags it read before, whatever the iteration orders; from an
    object that had no flag annotation it reads exactly the flags that
    were written. *)
Theorem KubeletFlags_round_trip (metaobj : metav1.Object)
    (flags : gmap consts.KubeletFlags string) (order : list (consts.KubeletFlags * string)) :
  consts.ranges flags order ->
  consts.canonical consts.KubeletFlagsGroupAnnotationPrefixV1
    (consts.annotations_or_empty metaobj) ->
  exists annts,
    metav1.Annotations (consts.SetKubeletFlags_ranging metaobj order) = Some annts
    /\ consts.canonical consts.KubeletFlagsGroupAnnotationPrefixV1 annts
    /\ (forall order0 order',
          consts.ranges (consts.annotations_or_empty metaobj) order0 ->
          consts.ranges annts order' ->
          consts.GetKubeletFlags_ranging order' = flags ∪ consts.GetKubeletFlags_ranging order0)
    /\ (consts.without_keys consts.KubeletFlagsGroupAnnotationPrefixV1
          (consts.annotations_or_empty metaobj) ->
        forall order', consts.ranges annts order' ->
                       consts.GetKubeletFlags_ranging order' = flags).
Proof.
  intros Hr Hc. eexists. split; [reflexivity|].
  destruct prefixes_without_slash as (_ & Hp & _).
  assert (Hunion : forall order0 order',
            consts.ranges (consts.annotations_or_empty metaobj) order0 ->
            consts.ranges
              (foldl (fun annts '(k, v) =>
                        <[consts.annotation_name consts.KubeletFlagsGroupAnnotationPrefixV1 k
                          := v]> annts)
                 (consts.annotations_or_empty metaobj) order) order' ->
            consts.GetKubeletFlags_ranging order'
            = flags ∪ consts.GetKubeletFlags_ranging order0).
  { intros order0 order' Hr0 Hr'. apply map_eq. intros key.
    unfold consts.GetKubeletFlags_ranging, consts.KubeletFlags in *.
    pose proof (read_after_write consts.KubeletFlagsGroupAnnotationPrefixV1 (fun v => v)
                  (fun v => v) flags order order' _ key Hp (fun v => eq_refl) Hr Hc Hr')
      as Hwritten.
    pose proof (reader_canonical consts.KubeletFlagsGroupAnnotationPrefixV1 (fun v => v)
                  _ order0 key Hp Hc Hr0) as Hbefore.
    cbv beta in Hwritten, Hbefore. rewrite Hwritten, lookup_union, Hbefore.
    destruct (flags !! key) as [v|]; simpl.
    - by destruct ((fun v => v) <$> _).
    - by destruct ((fun v => v) <$> _). }
  split_and!.
  - apply (written_canonical consts.KubeletFlagsGroupAnnotationPrefixV1
             consts.KubeletFlagsGroupAnnotationPrefixV1 (fun v => v) flags order);
      [|exact Hr|exact Hc].
    intros k. right. split; [reflexivity | by apply annotation_key_name].
  - exact Hunion.
  - intros Hw order' Hr'.
    rewrite (Hunion (map_to_list (consts.annotations_or_empty metaobj)) order'
               (ranges_map_to_list _) Hr').
    unfold consts.GetKubeletFlags_ranging, consts.KubeletFlags in *.
    pose proof (reader_without_keys consts.KubeletFlagsGroupAnnotationPrefixV1 (fun v => v)
                  _ _ Hp Hw (ranges_map_to_list _)) as Hbefore.
    cbv beta in Hbefore. rewrite Hbefore.
    apply (right_id_L ∅ (∪)).
Qed.

Lemma KubeletFlags_round_trip_witness :
  consts.ranges examples.kubelet_flags (map_to_list examples.kubelet_flags)
  /\ consts.canonical consts.KubeletFlagsGroupAnnotationPrefixV1
       (consts.annotations_or_empty examples.fresh_object)
  /\ exists annts,
       metav1.Annotations
         (consts.SetKubeletFlags_ranging examples.fresh_object
            (map_to_list examples.kubelet_flags)) = Some annts
       /\ consts.GetKubeletFlags_ranging (map_to_list annts) = examples.kubelet_flags.
Proof.
  split; [apply ranges_map_to_list|]. split; [apply canonical_empty|].
  destruct (KubeletFlags_round_trip examples.fresh_object examples.kubelet_flags
              (map_to_list examples.kubelet_flags))
    as (annts & Ha & _ & _ & Hread).
  - apply ranges_map_to_list.
  - apply canonical_empty.
  - exists annts. split; [exact Ha|].
    apply Hread; [apply without_keys_empty | apply ranges_map_to_list].
Defined.

Lemma flags_apart (k key : string) :
  consts.annotation_name consts.KubeletFlagsGroupAnnotationPrefixV1 k
  <> consts.annotation_name consts.KubeletFeatureGatesAnnotationPrefixV1 key
  /\ consts.annotation_name consts.KubeletFlagsGroupAnnotationPrefixV1 k
     <> consts.annotation_name consts.KubeletConfigAnnotationPrefixV1 key
  /\ consts.annotation_key consts.KubeletFeatureGatesAnnotationPrefixV1
       (consts.annotation_name consts.KubeletFlagsGroupAnnotationPrefixV1 k) = None
  /\ consts.annotation_key consts.KubeletConfigAnnotationPrefixV1
       (consts.annotation_name consts.KubeletFlagsGroupAnnotationPrefixV1 k) = None.
Proof.
  split_and!; try (intros H; vm_compute in H; discriminate H); reflexivity.
Qed.

(** Two sets of annotations that agree on the names that are read as
    keys, the first with no two names read as the same key, are read
    the same, whatever the iteration orders. *)
Lemma reader_agree {V} (prefix : string) (dec : string -> V)
    (annts annts' : gmap string string) order order' :
  consts.distinct_keys prefix annts ->
  (forall name key, consts.annotation_key prefix name = Some key ->
                    annts' !! name = annts !! name) ->
  consts.ranges annts order ->
  consts.ranges annts' order' ->
  foldl (fun (result : gmap string V) '(name, value) =>
           match consts.annotation_key prefix name with
           | Some key => <[key := dec value]> result
           | None => result
           end) ∅ order'
  = foldl (fun (result : gmap string V) '(name, value) =>
             match consts.annotation_key prefix name with
             | Some key => <[key := dec value]> result
             | None => result
             end) ∅ order.
Proof.
  intros Hd Hsame Hr Hr'.
  assert (Hfound : forall name value key,
            annts !! name = Some value -> consts.annotation_key prefix name = Some key ->
            foldl (fun (result : gmap string V) '(name, value) =>
                     match consts.annotation_key prefix name with
                     | Some key => <[key := dec value]> result
                     | None => result
                     end) ∅ order !! key = Some (dec value)
            /\ foldl (fun (result : gmap string V) '(name, value) =>
                        match consts.annotation_key prefix name with
                        | Some key => <[key := dec value]> result
                        | None => result
                        end) ∅ order' !! key = Some (dec value)).
  { intros name value key Hl Hk. split.
    - apply (reader_complete prefix dec order ∅ name value key); [|exact Hk|].
      + by apply (elem_of_ranges annts order).
      + intros name' value' Hin' Hk'.
        apply (elem_of_ranges annts order _ _ Hr) in Hin'.
        assert (name' = name) as -> by (eapply Hd; eauto).
        split; [reflexivity | congruence].
    - apply (reader_complete prefix dec order' ∅ name value key); [|exact Hk|].
      + apply (elem_of_ranges annts' order'); [exact Hr'|]. by rewrite (Hsame _ _ Hk).
      + intros name' value' Hin' Hk'.
        apply (elem_of_ranges annts' order' _ _ Hr') in Hin'.
        rewrite (Hsame _ _ Hk') in Hin'.
        assert (name' = name) as -> by (eapply Hd; eauto).
        split; [reflexivity | congruence]. }
  apply map_eq. intros key.
  match goal with |- ?l = ?r => destruct l as [v'|] eqn:E'; destruct r as [v|] eqn:E end;
    try reflexivity.
  - apply (reader_sound prefix dec) in E as [E|(name & value & Hin & Hk & ->)];
      [by rewrite lookup_empty in E|].
    apply (elem_of_ranges annts order _ _ Hr) in Hin.
    destruct (Hfound _ _ _ Hin Hk) as [_ H']. congruence.
  - apply (reader_sound prefix dec) in E' as [E'|(name & value & Hin & Hk & ->)];
      [by rewrite lookup_empty in E'|].
    apply (elem_of_ranges annts' order' _ _ Hr') in Hin. rewrite (Hsame _ _ Hk) in Hin.
    destruct (Hfound _ _ _ Hin Hk) as [H _]. congruence.
  - apply (reader_sound prefix dec) in E as [E|(name & value & Hin & Hk & ->)];
      [by rewrite lookup_empty in E|].
    apply (elem_of_ranges annts order _ _ Hr) in Hin.
    destruct (Hfound _ _ _ Hin Hk) as [_ H']. congruence.
Qed.

(** Writing under one prefix leaves the names that are read as keys
    under another as they were. *)
Lemma write_apart {V} (prefix prefix' : string) (enc : V -> string)
    (m : gmap string V) order (annts : gmap string string) :
  (forall k, consts.annotation_key prefix' (consts.annotation_name prefix k) = None) ->
  consts.ranges m order ->
  let written :=
    foldl (fun annts '(k, v) => <[consts.annotation_name prefix k := enc v]> annts)
      annts order in
  (forall name key, consts.annotation_key prefix' name = Some key ->
                    written !! name = annts !! name)
  /\ (consts.distinct_keys prefix' annts -> consts.distinct_keys prefix' written).
Proof.
  intros Hapart Hr written.
  destruct (writer_annotations prefix enc m order annts Hr) as (_ & W2 & _).
  fold written in W2.
  assert (Hsame : forall name key, consts.annotation_key prefix' name = Some key ->
                                   written !! name = annts !! name).
  { intros name key Hk. apply W2. intros k _ ->. by rewrite Hapart in Hk. }
  split; [exact Hsame|].
  intros Hd name1 name2 key H1 H2 K1 K2.
  rewrite (Hsame _ _ K1) in H1. rewrite (Hsame _ _ K2) in H2. by eapply Hd.
Qed.

(** X3. The three families of annotations do not interfere.  On an
    object no two annotations of which are read as the same feature
    gate, [SetKubeletFlags] leaves what [GetKubeletFeatureGates] reads
    as it was, whatever the iteration orders, and afterwards no two
    annotations are read as the same gate either; and the same holds of
    what [GetKubeletConfigs] reads, on an object no two annotations of
    which are read as the same setting. *)
Theorem SetKubeletFlags_leaves_other_settings (metaobj : metav1.Object)
    (flags : gmap consts.KubeletFlags string) (order : list (consts.KubeletFlags * string)) :
  consts.ranges flags order ->
  exists annts,
    metav1.Annotations (consts.SetKubeletFlags_ranging metaobj order) = Some annts
    /\ (consts.distinct_keys consts.KubeletFeatureGatesAnnotationPrefixV1
          (consts.annotations_or_empty metaobj) ->
        consts.distinct_keys consts.KubeletFeatureGatesAnnotationPrefixV1 annts
        /\ forall order0 order',
             consts.ranges (consts.annotations_or_empty metaobj) order0 ->
             consts.ranges annts order' ->
             consts.GetKubeletFeatureGates_ranging order'
             = consts.GetKubeletFeatureGates_ranging order0)
    /\ (consts.distinct_keys consts.KubeletConfigAnnotationPrefixV1
          (consts.annotations_or_empty metaobj) ->
        consts.distinct_keys consts.KubeletConfigAnnotationPrefixV1 annts
        /\ forall order0 order',
             consts.ranges (consts.annotations_or_empty metaobj) order0 ->
             consts.ranges annts order' ->
             consts.GetKubeletConfigs_ranging order' = consts.GetKubeletConfigs_ranging order0).
Proof.
  intros Hr. eexists. split; [reflexivity|].
  split; intros Hd.
  - destruct (write_apart consts.KubeletFlagsGroupAnnotationPrefixV1
                consts.KubeletFeatureGatesAnnotationPrefixV1 (fun v => v) flags order
                (consts.annotations_or_empty metaobj)) as [Hsame Hkeep];
      [intros k; apply (flags_apart k "") | exact Hr |].
    split; [by apply Hkeep|].
    intros order0 order' Hr0 Hr'. unfold consts.GetKubeletFeatureGates_ranging.
    by eapply reader_agree.
  - destruct (write_apart consts.KubeletFlagsGroupAnnotationPrefixV1
                consts.KubeletConfigAnnotationPrefixV1 (fun v => v) flags order
                (consts.annotations_or_empty metaobj)) as [Hsame Hkeep];
      [intros k; apply (flags_apart k "") | exact Hr |].
    split; [by apply Hkeep|].
    intros order0 order' Hr0 Hr'. unfold consts.GetKubeletConfigs_ranging.
    by eapply reader_agree.
Qed.

Lemma SetKubeletFlags_leaves_other_settings_witness :
  consts.ranges examples.kubelet_flags (map_to_list examples.kubelet_flags)
  /\ consts.distinct_keys consts.KubeletConfigAnnotationPrefixV1 examples.config_annotations
  /\ exists annts,
       metav1.Annotations
         (consts.SetKubeletFlags_ranging
            {| metav1.Annotations := Some examples.config_annotations;
               metav1.Labels := None |}
            (map_to_list examples.kubelet_flags)) = Some annts
       /\ consts.GetKubeletConfigs_ranging (map_to_list annts)
          = consts.GetKubeletConfigs_ranging (map_to_list examples.config_annotations).
Proof.
  split; [apply ranges_map_to_list|]. split; [apply distinct_keys_singleton|].
  pose proof (SetKubeletFlags_leaves_other_settings
                {| metav1.Annotations := Some examples.config_annotations;
                   metav1.Labels := None |}
                examples.kubelet_flags (map_to_list examples.kubelet_flags)
                (ranges_map_to_list _)) as (annts & Ha & _ & Hconfigs).
  exists annts. split; [exact Ha|].
  destruct (Hconfigs (distinct_keys_singleton _ _ _)) as [_ Hsame].
  apply Hsame; apply ranges_map_to_list.
Defined.

(** The setting of the example is read before and after. *)
Example GetKubeletConfigs_example :
  consts.GetKubeletConfigs_ranging (map_to_list examples.config_annotations)
  = {[ "KubeReserved" := "cpu=200m" ]}.
Proof. vm_compute. reflexivity. Qed.

(** X4. What [GetKubeletConfigs] reads, whatever the iteration
    order: every setting it returns is the value of an annotation
    whose name has the prefix and holds the key of the setting behind
    its first slash (what stands between the prefix and that slash is
    not looked at); and when no two names are read as the same key, it
    returns the value of every annotation named by the prefix, a slash
    and the key, and its result does not depend on the order. *)
Theorem GetKubeletConfigs_reads_prefixed_annotations
    (annotations : gmap string string) (order : list (string * string)) :
  consts.ranges annotations order ->
  let configs := consts.GetKubeletConfigs_ranging order in
  (forall key value, configs !! key = Some value ->
     exists name pre,
       annotations !! name = Some value
       /\ strings.HasPrefix name consts.KubeletConfigAnnotationPrefixV1 = true
       /\ name = pre +:+ "/" +:+ key
       /\ strings.cut pre "/"%char = None)
  /\ (consts.distinct_keys consts.KubeletConfigAnnotationPrefixV1 annotations ->
      (forall key value,
         annotations !! consts.annotation_name consts.KubeletConfigAnnotationPrefixV1 key
         = Some value ->
         configs !! key = Some value)
      /\ configs = consts.GetKubeletConfigs annotations).
Proof.
  intros Hr configs. subst configs. unfold consts.GetKubeletConfigs_ranging. split.
  - intros key value Hres.
    apply (reader_sound consts.KubeletConfigAnnotationPrefixV1 (fun v => v)) in Hres
      as [Hres|(name & value' & Hin & Hk & ->)].
    + by rewrite lookup_empty in Hres.
    + apply annotation_key_Some in Hk as (Hp & pre & -> & Hpre).
      exists (pre +:+ "/" +:+ key), pre.
      split_and!; try done. by apply (elem_of_ranges annotations order).
  - intros Hd.
    assert (Hall : forall order0, consts.ranges annotations order0 ->
              forall name value key, annotations !! name = Some value ->
                consts.annotation_key consts.KubeletConfigAnnotationPrefixV1 name = Some key ->
                foldl (fun (configs : gmap string string) '(name, value) =>
                         match consts.annotation_key consts.KubeletConfigAnnotationPrefixV1 name with
                         | Some key => <[key := value]> configs
                         | None => configs
                         end) ∅ order0 !! key = Some value).
    { intros order0 Hr0 name value key Hname Hk.
      apply (reader_complete consts.KubeletConfigAnnotationPrefixV1 (fun v => v)
               order0 ∅ name value key).
      - by apply (elem_of_ranges annotations order0).
      - exact Hk.
      - intros name' value' Hin' Hk'.
        apply (elem_of_ranges annotations order0 _ _ Hr0) in Hin'.
        assert (name' = name) as -> by (eapply Hd; eauto).
        split; [reflexivity | congruence]. }
    split.
    + intros key value Hname. eapply (Hall order Hr); [exact Hname|].
      apply annotation_key_name, prefixes_without_slash.
    + unfold consts.GetKubeletConfigs, consts.GetKubeletConfigs_ranging.
      apply map_eq. intros key.
      destruct (foldl _ ∅ order !! key) as [value|] eqn:E.
      * apply (reader_sound consts.KubeletConfigAnnotationPrefixV1 (fun v => v)) in E
          as [E|(name & value' & Hin & Hk & ->)]; [by rewrite lookup_empty in E|].
        apply (elem_of_ranges annotations order _ _ Hr) in Hin.
        symmetry. eapply (Hall _ (ranges_map_to_list annotations)); eauto.
      * destruct (foldl _ ∅ (map_to_list annotations) !! key) as [value|] eqn:E'; [|reflexivity].
        apply (reader_sound consts.KubeletConfigAnnotationPrefixV1 (fun v => v)) in E'
          as [E'|(name & value' & Hin & Hk & ->)]; [by rewrite lookup_empty in E'|].
        apply elem_of_map_to_list in Hin.
        rewrite (Hall order Hr name value' key Hin Hk) in E. discriminate.
Qed.

Lemma GetKubeletConfigs_reads_prefixed_annotations_witness :
  consts.ranges examples.config_annotations (map_to_list examples.config_annotations)
  /\ consts.GetKubeletConfigs_ranging (map_to_list examples.config_annotations)
     !! "KubeReserved" = Some "cpu=200m".
Proof.
  split; [apply ranges_map_to_list|].
  destruct (GetKubeletConfigs_reads_prefixed_annotations examples.config_annotations
              (map_to_list examples.config_annotations)) as [_ Hall];
    [apply ranges_map_to_list|].
  destruct Hall as [Hall _]; [apply distinct_keys_singleton|].
  apply Hall. vm_compute. reflexivity.
Defined.

(** X5. [SetKubeletFlags] writes its annotations and leaves the
    rest: whatever the object carried and whatever the iteration
    order, the annotations are not nil afterwards, each flag is found
    under the prefix, a slash and its name, every other annotation is
    as it was (nothing is removed), the labels are untouched, and the
    result does not depend on the order. *)
Theorem SetKubeletFlags_keeps_other_annotations (metaobj : metav1.Object)
    (flags : gmap consts.KubeletFlags string) (order : list (consts.KubeletFlags * string)) :
  consts.ranges flags order ->
  let result := consts.SetKubeletFlags_ranging metaobj order in
  exists annts,
    metav1.Annotations result = Some annts
    /\ (forall k v, flags !! k = Some v ->
          annts !! consts.annotation_name consts.KubeletFlagsGroupAnnotationPrefixV1 k = Some v)
    /\ (forall name,
          (forall k, is_Some (flags !! k) ->
                     name <> consts.annotation_name consts.KubeletFlagsGroupAnnotationPrefixV1 k) ->
          annts !! name = consts.annotations_or_empty metaobj !! name)
    /\ metav1.Labels result = metav1.Labels metaobj
    /\ result = consts.SetKubeletFlags metaobj flags.
Proof.
  intros Hr result. subst result. eexists. split; [reflexivity|].
  destruct (writer_annotations consts.KubeletFlagsGroupAnnotationPrefixV1 (fun v => v)
              flags order (consts.annotations_or_empty metaobj) Hr) as (W1 & W2 & _).
  split_and!.
  - exact W1.
  - exact W2.
  - reflexivity.
  - unfold consts.SetKubeletFlags, consts.SetKubeletFlags_ranging. f_equal.
    apply (writer_order consts.KubeletFlagsGroupAnnotationPrefixV1 (fun v => v) flags);
      [exact Hr | apply ranges_map_to_list].
Qed.

Lemma SetKubeletFlags_keeps_other_annotations_witness :
  consts.ranges examples.kubelet_flags (map_to_list examples.kubelet_flags)
  /\ exists annts,
       metav1.Annotations
         (consts.SetKubeletFlags_ranging
            {| metav1.Annotations := Some examples.config_annotations;
               metav1.Labels := None |}
            (map_to_list examples.kubelet_flags)) = Some annts
       /\ annts !! "v1.kubelet-flags.machine-controller.kubermatic.io/ExternalCloudProvider"
          = Some "true"
       /\ annts !! "v1.kubelet-config.machine-controller.kubermatic.io/KubeReserved"
          = Some "cpu=200m".
Proof.
  split; [apply ranges_map_to_list|].
  destruct (SetKubeletFlags_keeps_other_annotations
              {| metav1.Annotations := Some examples.config_annotations;
                 metav1.Labels := None |}
              examples.kubelet_flags (map_to_list examples.kubelet_flags))
    as (annts & Ha & Hset & Hkeep & _); [apply ranges_map_to_list|].
  exists annts. split; [exact Ha|]. split.
  - apply (Hset "ExternalCloudProvider" "true"). vm_compute. reflexivity.
  - rewrite Hkeep; [vm_compute; reflexivity|].
    intros k [v Hk]. unfold examples.kubelet_flags in Hk.
    apply lookup_singleton_Some in Hk as [<- _]. discriminate.
Defined.

Lemma realBool_spellings (value : string) :
  consts.realBool value = bool_decide (value ∈ ["1"; "t"; "T"; "TRUE"; "true"; "True"]).
Proof.
  unfold consts.realBool, providerconfig.ParseBool.
  case_bool_decide as H1; [reflexivity|].
  case_bool_decide; reflexivity.
Qed.

(** X6. A feature gate whose value is no boolean is read as
    switched off: [GetKubeletFeatureGates] drops the error of
    [strconv.ParseBool], so the gate is [true] exactly for the six
    spellings of true that [ParseBool] accepts and [false] for every
    other value, the unparsable ones included. *)
Theorem GetKubeletFeatureGates_unparsable_is_false
    (annotations : gmap string string) (order : list (string * string))
    (gate value : string) :
  consts.ranges annotations order ->
  consts.distinct_keys consts.KubeletFeatureGatesAnnotationPrefixV1 annotations ->
  annotations !! consts.annotation_name consts.KubeletFeatureGatesAnnotationPrefixV1 gate
  = Some value ->
  consts.GetKubeletFeatureGates_ranging order !! gate
  = Some (bool_decide (value ∈ ["1"; "t"; "T"; "TRUE"; "true"; "True"])).
Proof.
  intros Hr Hd Hname. rewrite <- realBool_spellings.
  unfold consts.GetKubeletFeatureGates_ranging.
  apply (reader_complete consts.KubeletFeatureGatesAnnotationPrefixV1 consts.realBool
           order ∅ (consts.annotation_name consts.KubeletFeatureGatesAnnotationPrefixV1 gate)
           value gate).
  - by apply (elem_of_ranges annotations order).
  - apply annotation_key_name, prefixes_without_slash.
  - intros name' value' Hin' Hk'.
    apply (elem_of_ranges annotations order _ _ Hr) in Hin'.
    assert (name' = consts.annotation_name consts.KubeletFeatureGatesAnnotationPrefixV1 gate)
      as ->.
    { eapply Hd; eauto. }
    split; [reflexivity | congruence].
Qed.

Lemma GetKubeletFeatureGates_unparsable_is_false_witness :
  consts.ranges examples.gate_annotations (map_to_list examples.gate_annotations)
  /\ consts.distinct_keys consts.KubeletFeatureGatesAnnotationPrefixV1
       examples.gate_annotations
  /\ consts.GetKubeletFeatureGates_ranging (map_to_list examples.gate_annotations)
     !! "NodeSwap" = Some false.
Proof.
  split; [apply ranges_map_to_list|]. split; [apply distinct_keys_singleton|].
  apply (GetKubeletFeatureGates_unparsable_is_false examples.gate_annotations
           (map_to_list examples.gate_annotations) "NodeSwap" "yes").
  - apply ranges_map_to_list.
  - apply distinct_keys_singleton.
  - vm_compute. reflexivity.
Defined.

(** X7. [SetOSLabel] sets the label once: afterwards the labels
    are not nil and carry the label of the operating system, with the
    value it had if it was there (an empty value too) and the given
    name otherwise; the other labels and the annotations are as they
    were; and a second call, with whatever name, changes nothing. *)
Theorem SetOSLabel_sets_once (metaobj : metav1.Object) (osName other : string) :
  let labelled := consts.SetOSLabel metaobj osName in
  (exists lbs, metav1.Labels labelled = Some lbs
     /\ lbs !! consts.OperatingSystemLabelV1
        = Some (default osName
                  (default ∅ (metav1.Labels metaobj) !! consts.OperatingSystemLabelV1))
     /\ forall name, name <> consts.OperatingSystemLabelV1 ->
          lbs !! name = default ∅ (metav1.Labels metaobj) !! name)
  /\ consts.SetOSLabel labelled other = labelled
  /\ metav1.Annotations labelled = metav1.Annotations metaobj.
Proof.
  intros labelled. subst labelled. unfold consts.SetOSLabel.
  destruct (default ∅ (metav1.Labels metaobj) !! consts.OperatingSystemLabelV1)
    as [old|] eqn:E.
  - split_and!; [|by rewrite E|reflexivity].
    destruct (metav1.Labels metaobj) as [lbs|] eqn:El; simpl in E.
    + exists lbs. split_and!; [reflexivity | by rewrite E | reflexivity].
    + by rewrite lookup_empty in E.
  - split_and!; [| |reflexivity].
    + eexists. split_and!; [reflexivity | apply lookup_insert_eq |].
      intros name Hne. by apply lookup_insert_ne.
    + simpl. by rewrite lookup_insert_eq.
Qed.

(** ** [GetCACert], the server address and [DockerConfig] *)

(** X8. [GetCACert] on a kubeconfig that is not nil, whatever the
    order of the range over the clusters: it returns an error exactly
    when the kubeconfig does not hold exactly one cluster, and then the
    error of [GetServerAddressFromKubeconfig], the text about the
    server address included; with one cluster that is not nil it
    returns the bytes of its certificate authority as they are; with
    one entry that is nil it panics, as it does on a nil kubeconfig;
    the outcome does not depend on the order, and the error after the
    loop is never returned. *)
Theorem GetCACert_spec (kubeconfig : helper.Config)
    (order : list (string * option helper.Cluster)) :
  helper.range_order kubeconfig order ->
  let r := helper.GetCACert_ranging (Some kubeconfig) order in
  ((exists err, r = Returned (Error err)) <-> size (helper.Clusters kubeconfig) <> 1)
  /\ (size (helper.Clusters kubeconfig) = 1 ->
      exists name entry,
        helper.Clusters kubeconfig = {[name := entry]}
        /\ r = match entry with
               | Some cluster => Returned (Ok (helper.CertificateAuthorityData cluster))
               | None => Panicked helper.nil_dereference
               end)
  /\ r = helper.GetCACert (Some kubeconfig)
  /\ r <> Returned (Error (errors_New "no CACert found"))
  /\ (forall err, r = Returned (Error err) ->
      helper.GetServerAddressFromKubeconfig_ranging (Some kubeconfig) order
      = Returned (Error err))
  /\ helper.GetCACert_ranging None order = Panicked helper.nil_dereference.
Proof.
  intros Horder r. subst r.
  unfold helper.GetCACert, helper.GetCACert_ranging,
    helper.GetServerAddressFromKubeconfig_ranging, helper.range_order in *.
  cbn [helper.entries].
  destruct (Nat.eqb (size (helper.Clusters kubeconfig)) 1) eqn:E; simpl.
  - apply Nat.eqb_eq in E.
    destruct (map_size_1 _ E) as (name & entry & Hm).
    rewrite Hm in Horder |- *.
    rewrite map_to_list_singleton in Horder |- *.
    apply Permutation_singleton_r in Horder. subst order. simpl.
    split_and!; try done.
    + split; [|intros Hsize; exfalso; apply Hsize, map_size_singleton].
      intros [err Herr]. by destruct entry.
    + intros _. exists name, entry. split; [reflexivity|]. by destruct entry.
    + by destruct entry.
    + intros err Herr. by destruct entry.
  - apply Nat.eqb_neq in E. split_and!; try done.
    split; [done|]. intros _. by eexists.
Qed.

Lemma GetCACert_spec_witness :
  helper.range_order simulation.nil_entry_kubeconfig
    (map_to_list (helper.Clusters simulation.nil_entry_kubeconfig))
  /\ helper.GetCACert_ranging (Some simulation.nil_entry_kubeconfig)
       (map_to_list (helper.Clusters simulation.nil_entry_kubeconfig))
     = Panicked helper.nil_dereference.
Proof.
  assert (Horder : helper.range_order simulation.nil_entry_kubeconfig
                     (map_to_list (helper.Clusters simulation.nil_entry_kubeconfig)))
    by (unfold helper.range_order; reflexivity).
  split; [exact Horder|].
  pose proof (GetCACert_spec simulation.nil_entry_kubeconfig
                (map_to_list (helper.Clusters simulation.nil_entry_kubeconfig)) Horder)
    as (_ & Hone & _).
  destruct (Hone (map_size_singleton _ _)) as (name & entry & Hm & Hr).
  unfold simulation.nil_entry_kubeconfig in Hm. cbn [helper.Clusters] in Hm.
  symmetry in Hm. apply map_singleton_inj in Hm as [-> ->]. exact Hr.
Defined.

Example GetCACert_example :
  helper.GetCACert (Some simulation.example_kubeconfig)
  = Returned (Ok "-----BEGIN CERTIFICATE-----").
Proof. vm_compute. reflexivity. Qed.

(** X9. For a kubeconfig with one cluster whose server is a host
    behind the scheme "https://", [GetServerAddressFromKubeconfig]
    returns the host; a server that holds no "https://" at all (no
    scheme, or another one) is returned as it is. *)
Theorem GetServerAddressFromKubeconfig_strips_scheme (name : string)
    (cluster : helper.Cluster) (host : string) :
  strings.Contains host "https://" = false ->
  let address := helper.GetServerAddressFromKubeconfig
                   (Some {| helper.Clusters := {[name := Some cluster]} |}) in
  (helper.Server cluster = "https://" +:+ host -> address = Returned (Ok host))
  /\ (helper.Server cluster = host -> address = Returned (Ok host)).
Proof.
  intros Hhost address. subst address.
  unfold helper.GetServerAddressFromKubeconfig, helper.GetServerAddressFromKubeconfig_ranging.
  cbn [helper.Clusters helper.entries].
  rewrite map_size_singleton, map_to_list_singleton. simpl negb.
  cbv iota. split; intros ->.
  - rewrite ReplaceAll_match by discriminate. rewrite append_nil. by rewrite ReplaceAll_absent.
  - by rewrite ReplaceAll_absent.
Qed.

Lemma GetServerAddressFromKubeconfig_strips_scheme_witness :
  strings.Contains "10.0.0.1:6443" "https://" = false
  /\ helper.GetServerAddressFromKubeconfig
       (Some {| helper.Clusters :=
                  {[ "prod" := Some {| helper.Server := "https://10.0.0.1:6443";
                                       helper.CertificateAuthorityData := "" |} ]} |})
     = Returned (Ok "10.0.0.1:6443").
Proof.
  split; [reflexivity|].
  exact (proj1 (GetServerAddressFromKubeconfig_strips_scheme "prod"
                  {| helper.Server := "https://10.0.0.1:6443";
                     helper.CertificateAuthorityData := "" |} "10.0.0.1:6443" eq_refl)
           eq_refl).
Defined.


(** ** [DockerConfig] *)

Lemma lower_byte_decimal (c : ascii) :
  Nat.leb 48 (nat_of_ascii c) && Nat.leb (nat_of_ascii c) 57 = true ->
  strings.lower_byte c = c /\ Nat.ltb (nat_of_ascii c) 128 = true.
Proof.
  intros H. apply andb_true_iff in H as [H1 H2].
  apply Nat.leb_le in H1, H2. unfold strings.lower_byte.
  split.
  - destruct (Nat.leb 65 (nat_of_ascii c)) eqn:E1; [|reflexivity].
    apply Nat.leb_le in E1. lia.
  - apply Nat.ltb_lt. lia.
Qed.

Lemma lower_ascii_decimal (amount rest : string) :
  strings.decimal amount = true ->
  strings.lower_ascii (amount +:+ rest) = amount +:+ strings.lower_ascii rest
  /\ strings.isASCII (amount +:+ rest) = strings.isASCII rest.
Proof.
  induction amount as [|c amount IH]; intros H; [done|].
  cbn [strings.decimal] in H. apply andb_true_iff in H as [Hc H].
  destruct (lower_byte_decimal c Hc) as [Hl Ha].
  destruct (IH H) as [IH1 IH2].
  change (String c amount +:+ rest) with (String c (amount +:+ rest)).
  cbn [strings.lower_ascii strings.isASCII]. rewrite Hl, Ha, IH1, IH2. done.
Qed.

(** A run of digits before the text is left as it is by a replacement
    whose pattern starts with a letter. *)
Lemma ReplaceAll_decimal (amount rest : string) (a : ascii) (old' new : string) :
  strings.decimal amount = true ->
  Nat.leb 48 (nat_of_ascii a) && Nat.leb (nat_of_ascii a) 57 = false ->
  strings.ReplaceAll (amount +:+ rest) (String a old') new
  = amount +:+ strings.ReplaceAll rest (String a old') new.
Proof.
  intros H Ha. induction amount as [|c amount IH]; [done|].
  cbn [strings.decimal] in H. apply andb_true_iff in H as [Hc H].
  change (String c amount +:+ rest) with (String c (amount +:+ rest)).
  rewrite ReplaceAll_keep.
  - rewrite IH by exact H. reflexivity.
  - simpl. destruct (Ascii.eqb_spec a c) as [->|Hne]; [congruence | reflexivity].
Qed.

(** What [DockerConfig] makes of a size: a run of digits and a unit. *)
Lemma DockerConfig_size (ToLower : string -> string) (amount unit : string) :
  (forall s, strings.isASCII s = true -> ToLower s = strings.lower_ascii s) ->
  strings.decimal amount = true ->
  strings.isASCII unit = true ->
  strings.ReplaceAll
    (strings.ReplaceAll (strings.ReplaceAll (ToLower (amount +:+ unit)) "ki" "k") "mi" "m")
    "gi" "g"
  = amount +:+ strings.ReplaceAll
                 (strings.ReplaceAll (strings.ReplaceAll (strings.lower_ascii unit) "ki" "k")
                    "mi" "m")
                 "gi" "g".
Proof.
  intros HL Hd Hu.
  destruct (lower_ascii_decimal amount unit Hd) as [Hl Ha].
  rewrite HL by (by rewrite Ha). rewrite Hl.
  rewrite !ReplaceAll_decimal by (done || reflexivity). reflexivity.
Qed.

(** X10. The log options of [DockerConfig], for every
    [strings.ToLower] that lowers ASCII strings byte by byte and every
    [json.Marshal]: the configuration it marshals has the two options
    max-file and max-size and carries the registries as given; an empty
    number of files becomes "5" and an empty size "100m"; a size made
    of digits and one of the units Ki, Mi, Gi is turned into the
    digits and k, m, g; a size in digits and m is kept. *)
Theorem DockerConfig_log_options (ToLower : string -> string)
    (Marshal : helper.dockerConfig -> Err string)
    (insecureRegistries registryMirrors : option (list string))
    (logMaxFiles logMaxSize : string) :
  (forall s, strings.isASCII s = true -> ToLower s = strings.lower_ascii s) ->
  exists cfg,
    helper.DockerConfig ToLower Marshal insecureRegistries registryMirrors
      logMaxFiles logMaxSize
    = Marshal cfg
    /\ helper.InsecureRegistries cfg = insecureRegistries
    /\ helper.RegistryMirrors cfg = registryMirrors
    /\ dom (helper.LogOpts cfg) = {[ "max-file"; "max-size" ]}
    /\ helper.LogOpts cfg !! "max-file"
       = Some (if decide (logMaxFiles = "") then "5" else logMaxFiles)
    /\ (logMaxSize = "" -> helper.LogOpts cfg !! "max-size" = Some "100m")
    /\ (forall amount, strings.decimal amount = true ->
          (logMaxSize = amount +:+ "Ki" -> helper.LogOpts cfg !! "max-size" = Some (amount +:+ "k"))
          /\ (logMaxSize = amount +:+ "Mi" ->
              helper.LogOpts cfg !! "max-size" = Some (amount +:+ "m"))
          /\ (logMaxSize = amount +:+ "Gi" ->
              helper.LogOpts cfg !! "max-size" = Some (amount +:+ "g"))
          /\ (logMaxSize = amount +:+ "m" ->
              helper.LogOpts cfg !! "max-size" = Some (amount +:+ "m"))).
Proof.
  intros HL. unfold helper.DockerConfig. eexists. split; [reflexivity|].
  cbn [helper.InsecureRegistries helper.RegistryMirrors helper.LogOpts].
  split_and!; try reflexivity.
  - rewrite lookup_insert_eq. f_equal.
    destruct logMaxFiles; reflexivity.
  - intros ->. rewrite lookup_insert_ne by done. rewrite lookup_insert_eq. reflexivity.
  - intros amount Hd.
    assert (Hlen : forall unit, unit <> "" ->
              Nat.ltb 0 (String.length (amount +:+ unit)) = true).
    { intros unit Hu. destruct amount, unit; done. }
    split_and!; intros ->;
      rewrite lookup_insert_ne by done; rewrite lookup_insert_eq;
      rewrite Hlen by done; rewrite DockerConfig_size by done; reflexivity.
Qed.

Lemma DockerConfig_log_options_witness :
  (forall s, strings.isASCII s = true -> strings.lower_ascii s = strings.lower_ascii s)
  /\ exists cfg,
       helper.DockerConfig strings.lower_ascii examples.no_Marshal None None "" "10Mi"
       = examples.no_Marshal cfg
       /\ helper.LogOpts cfg !! "max-file" = Some "5"
       /\ helper.LogOpts cfg !! "max-size" = Some "10m".
Proof.
  split; [reflexivity|].
  destruct (DockerConfig_log_options strings.lower_ascii examples.no_Marshal None None
              "" "10Mi" (fun s _ => eq_refl))
    as (cfg & Hcfg & _ & _ & _ & Hfiles & _ & Hsize).
  exists cfg. split; [exact Hcfg|]. split; [exact Hfiles|].
  destruct (Hsize "10") as (_ & Hmi & _); [reflexivity|].
  apply Hmi. reflexivity.
Defined.

(** ** Images and plans *)

Lemma imageReferences_lookup (os : providerconfigtypes.OperatingSystem) :
  imageReferences !! os = None
  <-> os ∉ [providerconfigtypes.OperatingSystemCentOS;
            providerconfigtypes.OperatingSystemUbuntu;
            providerconfigtypes.OperatingSystemRHEL;
            providerconfigtypes.OperatingSystemFlatcar;
            providerconfigtypes.OperatingSystemRockyLinux].
Proof.
  unfold imageReferences. rewrite <- not_elem_of_dom, dom_list_to_map_L. simpl.
  set_solver.
Qed.

(** X11. Where [getOSImageReference] takes the image from: a
    configured image ID wins and the reference holds nothing else;
    without an ID a configured reference is used (publisher, offer, SKU
    and version); without both, the reference of the operating system
    in the table.  It fails exactly when neither is configured and the
    operating system is none of centos, ubuntu, rhel, flatcar and
    rockylinux. *)
Theorem getOSImageReference_sources (c : config)
    (os : providerconfigtypes.OperatingSystem) :
  let r := getOSImageReference c os in
  (ImageID c <> "" ->
   r = Ok {| compute.ImageReference_ID := Some (ImageID c);
             compute.Publisher := None; compute.Offer := None;
             compute.Sku := None; compute.Version := None |})
  /\ (ImageID c = "" -> forall configured, ImageReference c = Some configured ->
      r = Ok {| compute.ImageReference_ID := None;
                compute.Publisher := compute.Publisher configured;
                compute.Offer := compute.Offer configured;
                compute.Sku := compute.Sku configured;
                compute.Version := compute.Version configured |})
  /\ (ImageID c = "" -> ImageReference c = None ->
      forall ref, r = Ok ref -> imageReferences !! os = Some ref)
  /\ (is_Ok r = false
      <-> ImageID c = "" /\ ImageReference c = None
          /\ os ∉ [providerconfigtypes.OperatingSystemCentOS;
                   providerconfigtypes.OperatingSystemUbuntu;
                   providerconfigtypes.OperatingSystemRHEL;
                   providerconfigtypes.OperatingSystemFlatcar;
                   providerconfigtypes.OperatingSystemRockyLinux]).
Proof.
  intros r. subst r. unfold getOSImageReference.
  destruct (String.eqb_spec (ImageID c) "") as [Hid|Hid]; cbn [negb].
  - destruct (ImageReference c) as [configured|] eqn:Eref.
    + split_and!; try done.
      * by intros _ ? [= <-].
      * split; [discriminate | by intros (_ & [=] & _)].
    + destruct (imageReferences !! os) as [ref|] eqn:Eos.
      * split_and!; try done.
        -- by intros _ _ ? [= <-].
        -- split; [discriminate|]. intros (_ & _ & Hos).
           apply imageReferences_lookup in Hos. congruence.
      * split_and!; try done. split; [|done]. intros _.
        split_and!; try done. by apply imageReferences_lookup.
  - split_and!; try done. split; [discriminate | by intros [? _]].
Qed.

Lemma osPlans_lookup (os : providerconfigtypes.OperatingSystem) (plan : compute.Plan) :
  osPlans !! os = Some plan ->
  exists ref,
    imageReferences !! os = Some ref
    /\ compute.Plan_Name plan = compute.Sku ref
    /\ compute.Plan_Product plan = compute.Offer ref.
Proof.
  unfold osPlans. simpl.
  intros H.
  apply lookup_insert_Some in H as [[<- <-]|[_ H]]; [eexists; split; [reflexivity | done]|].
  apply lookup_insert_Some in H as [[<- <-]|[_ H]]; [eexists; split; [reflexivity | done]|].
  apply lookup_insert_Some in H as [[<- <-]|[_ H]]; [eexists; split; [reflexivity | done]|].
  by rewrite lookup_empty in H.
Qed.

(** ** Lookups of the virtual machine and of its addresses *)

(** ** [getVMByUID] *)

Lemma all_pages_Ok (pages : compute.VirtualMachineListResultPage)
    (allServers : list compute.VirtualMachine) :
  Forall (fun page => page.2 = None) pages ->
  all_pages pages allServers = Ok (allServers ++ concat pages.*1).
Proof.
  intros H. revert allServers.
  induction H as [|[values next] pages Hnext _ IH]; intros allServers; simpl.
  - by rewrite app_nil_r.
  - simpl in Hnext. subst next. rewrite IH. by rewrite <- app_assoc.
Qed.

Lemma all_pages_Error (before after : compute.VirtualMachineListResultPage)
    (values allServers : list compute.VirtualMachine) (err : error) :
  Forall (fun page => page.2 = None) before ->
  all_pages (before ++ (values, Some err) :: after) allServers
  = Error (Errorf "failed to iterate the result list: %s" err).
Proof.
  intros H. revert allServers.
  induction H as [|[values' next] before Hnext _ IH]; intros allServers; simpl.
  - reflexivity.
  - simpl in Hnext. subst next. apply IH.
Qed.

(** X14. [getVMByUID], against every service: it always returns;
    a machine it returns carries the UID as its correlation tag; when
    the listing succeeds and no page fails to load, it returns the
    first machine of the listing, in its order, that carries the tag,
    and [ErrInstanceNotFound] when none does; when a page fails to
    load it returns that error, whatever the pages before held; and it
    only constructs the client and lists, leaving the Machine record
    as it is. *)
Theorem getVMByUID_finds_the_tagged_machine {S} (h : Handler S) (c : config) (uid : string)
    (m : Machine) (s : S) :
  let r := run h (getVMByUID c uid) m s in
  (exists result, outcome r = Returned result)
  /\ (forall vm, outcome r = Returned (Ok vm) -> tagged_with (compute.Tags vm) uid = true)
  /\ (forall s1 pages s2,
        answer h (getVMClient c) s = (Ok tt, s1) ->
        answer h vmClient_ListAll s1 = (Ok pages, s2) ->
        (Forall (fun page => page.2 = None) pages ->
         outcome r
         = Returned
             match List.find (fun vm => tagged_with (compute.Tags vm) uid)
                     (concat pages.*1) with
             | Some vm => Ok vm
             | None => Error ErrInstanceNotFound
             end)
        /\ (forall before values err after,
              pages = before ++ (values, Some err) :: after ->
              Forall (fun page => page.2 = None) before ->
              outcome r
              = Returned (Error (Errorf "failed to iterate the result list: %s" err))))
  /\ machine r = m
  /\ Forall (call_of (fun o => match o with
                              | getVMClient _ | vmClient_ListAll => true
                              | _ => false
                              end)) (trace r).
Proof.
  intros r. subst r. unfold getVMByUID.
  rewrite run_try_call.
  destruct (answer h (getVMClient c) s) as [[[]|e1] s1] eqn:E1.
  2:{ cbn. split_and!; eauto; try done;
      repeat (apply Forall_cons; split; [reflexivity|]); by apply Forall_nil. }
  rewrite run_try_call.
  destruct (answer h vmClient_ListAll s1) as [[pages|e2] s2] eqn:E2.
  2:{ cbn. split_and!; eauto; try done.
      - intros s1' pages s2' [= <-]. rewrite E2. intros [=].
      - repeat (apply Forall_cons; split; [reflexivity|]); by apply Forall_nil. }
  assert (Hrun : forall x : Err compute.VirtualMachine,
            run h (match all_pages pages [] with
                   | Ok allServers =>
                       match List.find (fun vm => tagged_with (compute.Tags vm) uid)
                               allServers with
                       | Some vm => Ret (Ok vm)
                       | None => Ret (Error ErrInstanceNotFound)
                       end
                   | Error err => Ret (Error err)
                   end) m s2
            = {| outcome :=
                   Returned match all_pages pages [] with
                            | Ok allServers =>
                                match List.find
                                        (fun vm => tagged_with (compute.Tags vm) uid)
                                        allServers with
                                | Some vm => Ok vm
                                | None => Error ErrInstanceNotFound
                                end
                            | Error err => Error err
                            end;
                 machine := m; service := s2; trace := [] |}).
  { intros _. destruct (all_pages pages []) as [allServers|err]; [|reflexivity].
    destruct (List.find _ allServers); reflexivity. }
  rewrite (Hrun (Error ErrInstanceNotFound)). cbn [after outcome machine trace].
  split_and!.
  - eauto.
  - intros vm [= Hvm].
    destruct (all_pages pages []) as [allServers|err]; [|discriminate].
    destruct (List.find _ allServers) as [vm'|] eqn:Ef; [|discriminate].
    injection Hvm as ->. by apply find_some in Ef as [_ Ef].
  - intros s1' pages' s2' [= <-] Hl. rewrite E2 in Hl. injection Hl as <- <-. split.
    + intros Hp. by rewrite (all_pages_Ok pages [] Hp).
    + intros before values err after_ -> Hb. by rewrite (all_pages_Error before after_ values [] err Hb).
  - reflexivity.
  - repeat (apply Forall_cons; split; [reflexivity|]); by apply Forall_nil.
Qed.

(** ** [getVMStatus] *)

#[local] Set Warnings "-clear-no-such-hyp".

Ltac eqb_facts :=
  repeat match goal with
         | H : String.eqb _ _ = true |- _ => rewrite String.eqb_eq in H
         | H : String.eqb _ _ = false |- _ => rewrite String.eqb_neq in H
         end.

Ltac status_cases :=
  unfold instanceViewStatus;
  match goal with
  | |- context [compute.Statuses ?iv] =>
      destruct (compute.Statuses iv) as [[|? [|? ?]]|] eqn:?
  end;
  simpl; repeat case_match; eqb_facts; subst; naive_solver.

(** X15. The mapping of [getVMStatus].  An instance view is
    reported as running exactly when it has at least two statuses and
    the code of the second is "PowerState/running", as being created
    exactly when that code is "PowerState/starting", and as being
    deleted exactly when it has a single status with the code
    "ProvisioningState/deleting"; the mapping itself never returns an
    error.  Against every service, when [getVMStatus] returns an error
    the status is unknown and the last call of the run failed. *)
Theorem getVMStatus_mapping {S} (h : Handler S) (c : config) (vmName : string)
    (m : Machine) (s : S) (iv : compute.VirtualMachineInstanceView) :
  (instanceViewStatus iv = Returned (instance.StatusRunning, None)
   <-> exists s1 s2 l, compute.Statuses iv = Some (s1 :: s2 :: l)
                       /\ compute.Code s2 = Some "PowerState/running")
  /\ (instanceViewStatus iv = Returned (instance.StatusCreating, None)
      <-> exists s1 s2 l, compute.Statuses iv = Some (s1 :: s2 :: l)
                          /\ compute.Code s2 = Some "PowerState/starting")
  /\ (instanceViewStatus iv = Returned (instance.StatusDeleting, None)
      <-> exists s1, compute.Statuses iv = Some [s1]
                     /\ compute.Code s1 = Some "ProvisioningState/deleting")
  /\ (forall st err, instanceViewStatus iv = Returned (st, err) -> err = None)
  /\ let r := run h (getVMStatus c vmName) m s in
     forall st err, outcome r = Returned (st, Some err) ->
       st = instance.StatusUnknown
       /\ exists pre o, trace r = pre ++ [Called o false].
Proof.
  split_and!.
  - status_cases.
  - status_cases.
  - status_cases.
  - intros st err. unfold instanceViewStatus.
    repeat match goal with
           | |- context [match ?x with _ => _ end] => destruct x
           end; by intros [= _ <-].
  - intros r st err. subst r. unfold getVMStatus.
    rewrite run_try_call.
    destruct (answer h (getVMClient c) s) as [[[]|e1] s1].
    2:{ cbn. intros [= <- _]. split; [reflexivity|]. by exists [], (getVMClient c). }
    rewrite run_try_call.
    destruct (answer h _ s1) as [[iv'|e2] s2].
    2:{ cbn. intros [= <- _]. split; [reflexivity|]. by eexists [_], _. }
    cbn [after outcome]. intros Ho. exfalso.
    destruct (instanceViewStatus iv') as [[st' err']|msg] eqn:Ei; simpl in Ho; [|discriminate].
    injection Ho as -> ->.
    assert (Hnone : Some err = None); [|discriminate].
    unfold instanceViewStatus in Ei.
    repeat match type of Ei with
           | context [match ?x with _ => _ end] => destruct x
           end; congruence.
Qed.

(** ** [getNICIPAddresses] *)

Lemma run_try_Ok {S A B} (h : Handler S) (p : Prog (Err A)) (onerr : error -> Err B)
    (k : A -> Prog (Err B)) (m : Machine) (s : S) (b : B) :
  (forall e, onerr e <> Ok b) ->
  outcome (run h (try p onerr k) m s) = Returned (Ok b) ->
  exists a,
    outcome (run h p m s) = Returned (Ok a)
    /\ (forall e, e ∈ trace (run h p m s) -> e ∈ trace (run h (try p onerr k) m s))
    /\ (forall e, e ∈ trace (run h (k a) (machine (run h p m s)) (service (run h p m s))) ->
                  e ∈ trace (run h (try p onerr k) m s))
    /\ outcome (run h (k a) (machine (run h p m s)) (service (run h p m s)))
       = Returned (Ok b).
Proof.
  intros Hne. rewrite run_try. unfold then_run.
  destruct (outcome (run h p m s)) as [[a|e]|msg]; cbn [outcome trace].
  - intros H. exists a. split_and!; try done; intros e He; apply elem_of_app; auto.
  - intros [= H]. by apply Hne in H.
  - discriminate.
Qed.

Lemma getIPAddressStrings_Ok {S} (h : Handler S) (c : config) (addrName : string)
    (m : Machine) (s : S) (ips : list string) :
  outcome (run h (getIPAddressStrings c addrName) m s) = Returned (Ok ips) ->
  Called (ipClient_Get (ResourceGroup c) addrName) true
  ∈ trace (run h (getIPAddressStrings c addrName) m s).
Proof.
  unfold getIPAddressStrings. rewrite run_try_call.
  destruct (answer h (getIPClient c) s) as [[[]|e1] s1]; [|discriminate].
  rewrite run_try_call.
  destruct (answer h _ s1) as [[ip|e2] s2]; [|discriminate].
  intros _. cbn [after trace]. right. left.
Qed.

Lemma getNICIPAddresses_confs_public {S} (h : Handler S) (c : config) (ifaceName : string)
    (conf : network.InterfaceIPConfiguration) (confs : list network.InterfaceIPConfiguration)
    (acc addrs : gmap string v1.NodeAddressType) (m : Machine) (s : S) :
  AssignPublicIP c = true ->
  outcome (run h (getNICIPAddresses_confs c ifaceName (conf :: confs) acc) m s)
  = Returned (Ok addrs) ->
  Called (ipClient_Get (ResourceGroup c) (publicIPName ifaceName)) true
  ∈ trace (run h (getNICIPAddresses_confs c ifaceName (conf :: confs) acc) m s)
  /\ Called (ipClient_Get (ResourceGroup c) (publicIPv6Name ifaceName)) true
     ∈ trace (run h (getNICIPAddresses_confs c ifaceName (conf :: confs) acc) m s).
Proof.
  intros Hip. cbn [getNICIPAddresses_confs]. rewrite Hip.
  assert (Hname : forall name,
    let p := try (getIPAddressStrings c (publicIPName ifaceName))
      (fun err => Error (Errorf "failed to retrieve IP string for IP %q: %v" err))
      (fun publicIPs =>
       let ipAddresses := set_addresses publicIPs v1.NodeExternalIP acc in
       try (getIPAddressStrings c (publicIPv6Name ifaceName))
         (fun err => Error (Errorf "failed to retrieve IP string for IP %q: %v" err))
         (fun publicIP6s =>
          try (getInternalIPAddresses c ifaceName name)
            (fun err =>
               Error (Errorf "failed to retrieve internal IP string for IP %q: %v" err))
            (fun internalIPs =>
             getNICIPAddresses_confs c ifaceName confs
               (set_addresses internalIPs v1.NodeInternalIP
                  (set_addresses publicIP6s v1.NodeExternalIP ipAddresses))))) in
    outcome (run h p m s) = Returned (Ok addrs) ->
    Called (ipClient_Get (ResourceGroup c) (publicIPName ifaceName)) true ∈ trace (run h p m s)
    /\ Called (ipClient_Get (ResourceGroup c) (publicIPv6Name ifaceName)) true
       ∈ trace (run h p m s)).
  { intros name p Ho. subst p.
    apply run_try_Ok in Ho as (publicIPs & Ho1 & Hin1 & Hin1' & Ho); [|done].
    apply getIPAddressStrings_Ok in Ho1.
    apply run_try_Ok in Ho as (publicIP6s & Ho2 & Hin2 & _ & Ho); [|done].
    apply getIPAddressStrings_Ok in Ho2.
    split; [by apply Hin1 | by apply Hin1', Hin2]. }
  destruct (network.IPConfiguration_Name conf) as [name|]; [apply Hname|].
  destruct (network.IPConfiguration_ID conf) as [id|]; [|discriminate].
  destruct (Nat.eqb (String.length id) 0); [discriminate|].
  destruct (last_segment_Some id) as (name & _ & ->).
  cbn [mbind Prog_mbind bind]. apply Hname.
Qed.

Lemma set_addresses_internal (ips : list string) (acc : gmap string v1.NodeAddressType) :
  map_Forall (fun _ class => class = v1.NodeInternalIP) acc ->
  map_Forall (fun _ class => class = v1.NodeInternalIP)
    (set_addresses ips v1.NodeInternalIP acc).
Proof.
  unfold set_addresses. revert acc.
  induction ips as [|ip ips IH]; intros acc H; [exact H|].
  simpl. apply IH. by apply map_Forall_insert_2.
Qed.

Lemma getNICIPAddresses_confs_private (c : config) (ifaceName : string)
    (confs : list network.InterfaceIPConfiguration) (acc : gmap string v1.NodeAddressType) :
  AssignPublicIP c = false ->
  map_Forall (fun _ class => class = v1.NodeInternalIP) acc ->
  calls_only conduct.private_lookup (getNICIPAddresses_confs c ifaceName confs acc)
  /\ always (fun r => forall addrs, r = Ok addrs ->
                        map_Forall (fun _ class => class = v1.NodeInternalIP) addrs)
       (getNICIPAddresses_confs c ifaceName confs acc).
Proof.
  intros Hip. revert acc. induction confs as [|conf confs IH]; intros acc Hacc.
  - split; [exact I|]. simpl. by intros addrs [= <-].
  - cbn [getNICIPAddresses_confs]. rewrite Hip.
    assert (Hname : forall name,
      let p := try (getInternalIPAddresses c ifaceName name)
        (fun err =>
           Error (Errorf "failed to retrieve internal IP string for IP %q: %v" err))
        (fun internalIPs =>
         getNICIPAddresses_confs c ifaceName confs
           (set_addresses internalIPs v1.NodeInternalIP acc)) in
      calls_only conduct.private_lookup p
      /\ always (fun r => forall addrs, r = Ok addrs ->
                            map_Forall (fun _ class => class = v1.NodeInternalIP) addrs) p).
    { intros name p. subst p. split.
      - apply calls_only_try.
        + unfold getInternalIPAddresses.
          apply calls_only_try; [by apply calls_only_call|]. intros _.
          apply calls_only_try; [by apply calls_only_call|]. intros ip.
          by destruct (network.IPConfiguration_ID ip).
        + intros ips. apply IH. by apply set_addresses_internal.
      - apply always_try.
        + apply always_getInternalIPAddresses.
        + intros e addrs [=].
        + intros ips. apply IH. by apply set_addresses_internal. }
    destruct (network.IPConfiguration_Name conf) as [name|]; [apply Hname|].
    destruct (network.IPConfiguration_ID conf) as [id|]; [|split; [exact I | by intros ? [=]]].
    destruct (Nat.eqb (String.length id) 0); [split; [exact I | by intros ? [=]]|].
    destruct (last_segment_Some id) as (name & _ & ->).
    cbn [mbind Prog_mbind bind]. apply Hname.
Qed.

(** X16. The lookups of [getNICIPAddresses], against every
    service.  Without a public IP in the configuration it looks up the
    interface and its private addresses only, and every address it
    returns is an internal one.  With a public IP, a result that holds
    an address means that both public addresses of the interface, the
    one named -pubip and the one named -pubipv6, were looked up and
    found: the lookup of the IPv6 address is made whatever the IP
    family. *)
Theorem getNICIPAddresses_public_lookups {S} (h : Handler S) (c : config)
    (ifaceName : string) (m : Machine) (s : S) :
  let r := run h (getNICIPAddresses c ifaceName) m s in
  (AssignPublicIP c = false ->
   Forall (call_of conduct.private_lookup) (trace r)
   /\ forall addrs, outcome r = Returned (Ok addrs) ->
        forall ip class, addrs !! ip = Some class -> class = v1.NodeInternalIP)
  /\ (AssignPublicIP c = true ->
      forall addrs, outcome r = Returned (Ok addrs) -> addrs <> ∅ ->
        Called (ipClient_Get (ResourceGroup c) (publicIPName ifaceName)) true ∈ trace r
        /\ Called (ipClient_Get (ResourceGroup c) (publicIPv6Name ifaceName)) true ∈ trace r).
Proof.
  intros r. split.
  - intros Hip.
    assert (Hc : calls_only conduct.private_lookup (getNICIPAddresses c ifaceName)
                 /\ always (fun r => forall addrs, r = Ok addrs ->
                              map_Forall (fun _ class => class = v1.NodeInternalIP) addrs)
                      (getNICIPAddresses c ifaceName)).
    { unfold getNICIPAddresses. split.
      - apply calls_only_try; [by apply calls_only_call|]. intros _.
        apply calls_only_try; [by apply calls_only_call|]. intros netIf.
        destruct (network.IPConfigurations netIf) as [confs|]; [|exact I].
        apply getNICIPAddresses_confs_private; [exact Hip | apply map_Forall_empty].
      - apply always_try; [apply always_call | by intros e addrs [=] |]. intros _.
        apply always_try; [apply always_call | by intros e addrs [=] |]. intros netIf.
        destruct (network.IPConfigurations netIf) as [confs|].
        + apply getNICIPAddresses_confs_private; [exact Hip | apply map_Forall_empty].
        + simpl. intros addrs [= <-]. apply map_Forall_empty. }
    destruct Hc as [Hcalls Halways]. split.
    + apply (calls_only_run h _ _ m s Hcalls).
    + intros addrs Ho ip class Hl.
      destruct (always_run h _ _ m s Halways) as (res & Hres & Hall).
      fold r in Hres. rewrite Ho in Hres. injection Hres as <-.
      by apply (Hall addrs eq_refl ip class).
  - intros Hip addrs Ho Hne. subst r. revert Ho. unfold getNICIPAddresses.
    rewrite run_try_call.
    destruct (answer h (getInterfacesClient c) s) as [[[]|e1] s1]; [|discriminate].
    rewrite run_try_call.
    destruct (answer h _ s1) as [[netIf|e2] s2]; [|discriminate].
    destruct (network.IPConfigurations netIf) as [[|conf confs]|];
      try (cbn; intros [= <-]; done).
    cbn [after outcome trace]. intros Ho.
    destruct (getNICIPAddresses_confs_public h c ifaceName conf confs ∅ addrs m s2 Hip Ho)
      as [H4 H6].
    split; by do 2 right.
Qed.

(** ** What [Get] and [Create] do to the service *)

(** ** What [Create] keeps to *)

Lemma keeps_bind {A B} (Inv : Machine -> Prop) (P : Op -> Prop) (p : Prog A)
    (f : A -> Prog B) :
  conduct.keeps Inv P p -> (forall a, conduct.keeps Inv P (f a)) ->
  conduct.keeps Inv P (bind p f).
Proof.
  intros Hp Hf. induction p as [a|msg|o k IH|g k IH]; simpl in *; try done.
  - destruct Hp as [Ho Hk]. split; [exact Ho|]. intros r. apply IH, Hk.
  - destruct Hp as [Hm He]. split.
    + intros m Hi. destruct (Hm m Hi) as [Hi' Hk]. split; [exact Hi'|]. apply IH, Hk.
    + intros err. apply IH, He.
Qed.

Lemma keeps_try {A B} (Inv : Machine -> Prop) (P : Op -> Prop) (p : Prog (Err A))
    (onerr : error -> B) (k : A -> Prog B) :
  conduct.keeps Inv P p -> (forall a, conduct.keeps Inv P (k a)) ->
  conduct.keeps Inv P (try p onerr k).
Proof.
  intros Hp Hk. unfold try. apply keeps_bind; [exact Hp|].
  intros [a|e]; [apply Hk | exact I].
Qed.

Lemma keeps_try_call {A} (Inv : Machine -> Prop) (P : Op -> Prop) (o : Op)
    (onerr : error -> A) (k : OpVal o -> Prog A) :
  P o -> (forall a, conduct.keeps Inv P (k a)) ->
  conduct.keeps Inv P (try (call o) onerr k).
Proof.
  intros Ho Hk. apply keeps_try; [|exact Hk]. simpl. split; [exact Ho | intros; exact I].
Qed.

Lemma keeps_try_update {A} (Inv : Machine -> Prop) (P : Op -> Prop)
    (modify : Machine -> Machine) (onerr : error -> A) (k : Machine -> Prog A) :
  (forall m, Inv m -> Inv (modify m) /\ conduct.keeps Inv P (k (modify m))) ->
  conduct.keeps Inv P (try (data_Update modify) onerr k).
Proof.
  intros H. unfold try, data_Update. simpl. split.
  - intros m Hi. apply H, Hi.
  - intros err. exact I.
Qed.

Lemma calls_only_keeps {A} (Inv : Machine -> Prop) (P : Op -> Prop) (allowed : Op -> bool)
    (p : Prog A) :
  calls_only allowed p -> (forall o, allowed o = true -> P o) -> conduct.keeps Inv P p.
Proof.
  intros Hp Hall. induction p as [a|msg|o k IH|g k IH]; simpl in *; try done.
  destruct Hp as [Ho Hk]. split; [by apply Hall|]. intros r. apply IH, Hk.
Qed.

Lemma keeps_run {S A} (h : Handler S) (Inv : Machine -> Prop) (P : Op -> Prop) (p : Prog A)
    (m : Machine) (s : S) :
  Inv m -> conduct.keeps Inv P p ->
  Inv (machine (run h p m s)) /\ conduct.calls_in P (trace (run h p m s)).
Proof.
  unfold conduct.calls_in.
  revert m s. induction p as [a|msg|o k IH|g k IH]; intros m s Hi Hp; simpl in *.
  - split; [exact Hi | constructor].
  - split; [exact Hi | constructor].
  - destruct Hp as [Ho Hk]. destruct (answer h o s) as [r s'].
    destruct (IH r m s' Hi (Hk r)) as [Hm Ht]. simpl. split; [exact Hm|].
    constructor; [exact Ho | exact Ht].
  - destruct Hp as [Hm He]. destruct (Hm m Hi) as [Hi' Hk].
    destruct (persist h (g m) s) as [[err|] s']; simpl.
    + destruct (IH _ m s' Hi (He err)) as [Hm' Ht]. split; [exact Hm'|].
      constructor; [exact I | exact Ht].
    + destruct (IH _ (g m) s' Hi' Hk) as [Hm' Ht]. split; [exact Hm'|].
      constructor; [exact I | exact Ht].
Qed.

Lemma reads_create_for (uid : string) (o : Op) :
  reads o = true -> conduct.creates_for uid o.
Proof.
  intros H. split; [by destruct o|]. apply carries_read. by destruct o.
Qed.

Lemma grown_from_refl (m : Machine) : conduct.grown_from m m.
Proof. unfold conduct.grown_from. split_and!; done. Qed.

Lemma grown_from_append (m m' : Machine) (f : string) :
  conduct.grown_from m m' -> conduct.grown_from m (append_finalizer m' f).
Proof.
  unfold conduct.grown_from, append_finalizer. intros (Hn & Hu & Hs & Hf). simpl.
  split_and!; try done. by apply prefix_app_r.
Qed.

Lemma keeps_reads {A} (m : Machine) (p : Prog A) :
  calls_only reads p ->
  conduct.keeps (conduct.grown_from m) (conduct.creates_for (UID m)) p.
Proof. intros H. eapply calls_only_keeps; [exact H|]. apply reads_create_for. Qed.

Lemma Create_from_NIC_keeps (m : Machine) config providerCfg (machine : Machine)
    (userdata key_PublicKey : string) (ipFamily : util.IPFamily)
    (publicIP publicIPv6 : option network.PublicIPAddress) :
  conduct.keeps (conduct.grown_from m) (conduct.creates_for (UID m))
    (Create_from_NIC config providerCfg machine userdata key_PublicKey ipFamily
       publicIP publicIPv6).
Proof.
  unfold Create_from_NIC.
  apply keeps_try_update. intros m1 H1. split.
  { destruct (negb _); [by apply grown_from_append | exact H1]. }
  set (machine1 := if negb _ then _ else m1).
  assert (Hm1 : conduct.grown_from m machine1).
  { subst machine1. destruct (negb _); [by apply grown_from_append | exact H1]. }
  clearbody machine1.
  apply keeps_try_call.
  { split; [reflexivity|]. intros r t [= <- <-]. f_equal. apply Hm1. }
  intros iface.
  destruct (getStorageProfile config providerCfg) as [storageProfile|err]; [|exact I].
  apply keeps_try_update. intros m2 H2.
  set (machine2 := if negb (kuberneteshelper.HasFinalizer _ finalizerVM) then _ else _).
  assert (Hm2 : conduct.grown_from m machine2).
  { subst machine2.
    repeat match goal with
           | |- context [negb ?b] => destruct (negb b)
           end; repeat apply grown_from_append; exact H2. }
  split; [exact Hm2|]. clearbody machine2.
  apply keeps_try_call.
  { split; [reflexivity|]. intros r t [= <- <-]. cbn [compute.Tags Create_vmSpec].
    unfold uid_tag, vm_tags. rewrite lookup_insert_eq. f_equal. apply Hm1. }
  intros _.
  apply keeps_try_call; [split; [reflexivity | by intros ? ? [=]]|].
  intros _.
  apply keeps_try_call; [split; [reflexivity | by intros ? ? [=]]|].
  intros _.
  apply keeps_try_call; [by apply reads_create_for|].
  intros vm.
  apply keeps_try; [apply keeps_reads, calls_only_getVMIPAddresses|].
  intros ipAddresses.
  apply keeps_bind; [apply keeps_reads, calls_only_getVMStatus|].
  intros st. by destruct (st.2).
Qed.

Lemma Create_keeps (p : provider) (m : Machine) (userdata : string) :
  conduct.keeps (conduct.grown_from m) (conduct.creates_for (UID m)) (Create p m userdata).
Proof.
  unfold Create.
  destruct (getConfig p (ProviderSpec_of (Spec m))) as [[config providerCfg]|err]; [|exact I].
  apply keeps_try_call; [by apply reads_create_for|]. intros _.
  apply keeps_try_call; [split; [reflexivity | by intros ? ? [=]]|]. intros key_PublicKey.
  destruct (AssignPublicIP config); [|apply Create_from_NIC_keeps].
  apply keeps_try_update. intros m1 H1.
  set (machine1 := if negb _ then _ else m1).
  assert (Hm1 : conduct.grown_from m machine1).
  { subst machine1. destruct (negb _); [by apply grown_from_append | exact H1]. }
  split; [exact Hm1|]. clearbody machine1.
  apply keeps_try_call.
  { split; [reflexivity|]. intros r t [= <- <-]. f_equal. apply Hm1. }
  intros publicIP.
  destruct (util.is_DualStack _); [|apply Create_from_NIC_keeps].
  apply keeps_try_call.
  { split; [reflexivity|]. intros r t [= <- <-]. f_equal. apply Hm1. }
  intros publicIPv6. apply Create_from_NIC_keeps.
Qed.

Lemma calls_in_deletes (uid : string) (t : list Event) :
  conduct.calls_in (conduct.creates_for uid) t ->
  deletes t = [] /\ forall r tag, (r, tag) ∈ writes t -> tag = Some uid.
Proof.
  unfold conduct.calls_in, deletes, writes.
  induction 1 as [|e t He _ [IH1 IH2]]; [split; [done | by intros ? ? ?%elem_of_nil]|].
  destruct e as [o ok|fs|]; simpl; try (split; assumption).
  destruct He as [Hd Hc]. rewrite Hd. split; [exact IH1|].
  intros r tag Hin. destruct (written o) as [[r' tag']|] eqn:Ew; [|by apply (IH2 r)].
  apply elem_of_cons in Hin as [[= -> ->]|Hin]; [by eapply Hc | by apply (IH2 r)].
Qed.

(** X17. [Create] only creates.  Against every service and
    record store, and however the run ends: [Create] issues no delete
    call (what it created before a failure is left for [Cleanup]);
    every resource it writes is tagged with the UID of the Machine; the
    finalizers the Machine carried are kept, in their order, before the
    ones [Create] adds; and the name, the UID and the specification of
    the Machine are as they were. *)
Theorem Create_only_creates {S} (h : Handler S) (p : provider) (m : Machine)
    (userdata : string) (s : S) :
  let r := run h (Create p m userdata) m s in
  deletes (trace r) = []
  /\ (forall resource tag, (resource, tag) ∈ writes (trace r) -> tag = Some (UID m))
  /\ Finalizers m `prefix_of` Finalizers (machine r)
  /\ Name (machine r) = Name m
  /\ UID (machine r) = UID m
  /\ Spec (machine r) = Spec m.
Proof.
  intros r.
  destruct (keeps_run h _ _ _ m s (grown_from_refl m) (Create_keeps p m userdata))
    as [(Hn & Hu & Hs & Hf) Ht].
  fold r in Hn, Hu, Hs, Hf, Ht.
  destruct (calls_in_deletes _ _ Ht) as [Hd Hw].
  split_and!; done.
Qed.

(** X18. [Get] is read-only: against every service it leaves the
    Machine record as it is, and every call it makes reads; it writes
    and deletes nothing. *)
Theorem Get_is_read_only {S} (h : Handler S) (p : provider) (m : Machine) (s : S) :
  let r := run h (Get p m) m s in
  machine r = m
  /\ Forall (call_of reads) (trace r)
  /\ writes (trace r) = []
  /\ deletes (trace r) = [].
Proof.
  intros r. subst r. unfold Get.
  destruct (calls_only_run h reads (get p m) m s (calls_only_get p m)) as [Hm Ht].
  split_and!; [exact Hm | exact Ht | by apply writes_reads | by apply deletes_reads].
Qed.

(** ** The virtual machine that [Create] asks for *)

Lemma Create_from_NIC_asks (m : Machine) config providerCfg (machine : Machine)
    (userdata key_PublicKey : string) (ipFamily : util.IPFamily)
    (publicIP publicIPv6 : option network.PublicIPAddress) :
  conduct.grown_from m machine ->
  conduct.keeps (conduct.grown_from m) (conduct.asks_for_vm m config providerCfg)
    (Create_from_NIC config providerCfg machine userdata key_PublicKey ipFamily
       publicIP publicIPv6).
Proof.
  intros Hm. unfold Create_from_NIC.
  apply keeps_try_update. intros m1 H1. split.
  { destruct (negb _); [by apply grown_from_append | exact H1]. }
  set (machine1 := if negb _ then _ else m1).
  assert (Hm1 : conduct.grown_from m machine1).
  { subst machine1. destruct (negb _); [by apply grown_from_append | exact H1]. }
  clearbody machine1.
  apply keeps_try_call; [exact I|]. intros iface.
  destruct (getStorageProfile config providerCfg) as [storageProfile|err] eqn:Esp;
    [|exact I].
  apply keeps_try_update. intros m2 H2.
  set (machine2 := if negb (kuberneteshelper.HasFinalizer _ finalizerVM) then _ else _).
  assert (Hm2 : conduct.grown_from m machine2).
  { subst machine2.
    repeat match goal with
           | |- context [negb ?b] => destruct (negb b)
           end; repeat apply grown_from_append; exact H2. }
  split; [exact Hm2|]. clearbody machine2.
  apply keeps_try_call.
  { split; [reflexivity|]. split; [apply Hm2|].
    by exists machine1, userdata, key_PublicKey, iface, storageProfile. }
  intros _.
  apply keeps_try_call; [exact I|]. intros _.
  apply keeps_try_call; [exact I|]. intros _.
  apply keeps_try_call; [exact I|]. intros vm.
  apply keeps_try.
  { eapply calls_only_keeps; [apply calls_only_getVMIPAddresses|]. by intros []. }
  intros ipAddresses.
  apply keeps_bind.
  { eapply calls_only_keeps; [apply calls_only_getVMStatus|]. by intros []. }
  intros st. by destruct (st.2).
Qed.

Lemma Create_asks (p : provider) (m : Machine) (userdata : string) config providerCfg :
  getConfig p (ProviderSpec_of (Spec m)) = Ok (config, providerCfg) ->
  conduct.keeps (conduct.grown_from m) (conduct.asks_for_vm m config providerCfg)
    (Create p m userdata).
Proof.
  intros Hc. unfold Create. rewrite Hc.
  apply keeps_try_call; [exact I|]. intros _.
  apply keeps_try_call; [exact I|]. intros key_PublicKey.
  destruct (AssignPublicIP config); [|apply Create_from_NIC_asks, grown_from_refl].
  apply keeps_try_update. intros m1 H1.
  set (machine1 := if negb _ then _ else m1).
  assert (Hm1 : conduct.grown_from m machine1).
  { subst machine1. destruct (negb _); [by apply grown_from_append | exact H1]. }
  split; [exact Hm1|]. clearbody machine1.
  apply keeps_try_call; [exact I|]. intros publicIP.
  destruct (util.is_DualStack _); [|by apply Create_from_NIC_asks].
  apply keeps_try_call; [exact I|]. intros publicIPv6.
  by apply Create_from_NIC_asks.
Qed.

(** X12. The virtual machine that [Create] asks for.  In every run
    of [Create] on a Machine whose configuration resolves, against
    every service, a call that asks for a virtual machine asks for it
    in the resource group of the configuration and under the name of
    the Machine; the virtual machine is found by the test of
    [getVMByUID] under the UID of the Machine and under no other, also
    when the tags of the configuration hold a tag of that name, and it
    carries every other tag of the configuration; it carries the
    storage profile of [getStorageProfile]; and when neither an image
    nor a plan is configured, its image is the one of the operating
    system in the table, its plan the one of the operating system in
    the table of plans, and whenever it has a plan, the name of the
    plan is the SKU of its image and the product of the plan the offer
    of its image. *)
Theorem default_plan_matches_default_image {S} (h : Handler S) (p : provider)
    (m : Machine) (userdata : string) (s : S) (c : config)
    (providerCfg : providerconfigtypes.Config azuretypes.RawConfig)
    (resourceGroup vmName : string) (vmSpec : compute.VirtualMachine) (ok : bool) :
  getConfig p (ProviderSpec_of (Spec m)) = Ok (c, providerCfg) ->
  Called (vmClient_CreateOrUpdate resourceGroup vmName vmSpec) ok
    ∈ trace (run h (Create p m userdata) m s) ->
  resourceGroup = ResourceGroup c
  /\ vmName = Name m
  /\ (forall uid, tagged_with (compute.Tags vmSpec) uid = true <-> uid = UID m)
  /\ (exists tags,
        compute.Tags vmSpec = Some tags
        /\ forall name, name <> machineUIDTag -> tags !! name = Some <$> Tags c !! name)
  /\ exists properties storageProfile,
       compute.VirtualMachineProperties_of vmSpec = Some properties
       /\ compute.StorageProfile_of properties = Some storageProfile
       /\ getStorageProfile c providerCfg = Ok storageProfile
       /\ (ImageID c = "" -> ImageReference c = None -> ImagePlan c = None ->
           (exists ref,
              compute.ImageReference_of storageProfile = Some ref
              /\ imageReferences !! providerconfigtypes.OperatingSystem_of providerCfg
                 = Some ref)
           /\ compute.Plan_of vmSpec
              = osPlans !! providerconfigtypes.OperatingSystem_of providerCfg
           /\ forall plan, compute.Plan_of vmSpec = Some plan ->
                exists ref,
                  compute.ImageReference_of storageProfile = Some ref
                  /\ compute.Plan_Name plan = compute.Sku ref
                  /\ compute.Plan_Product plan = compute.Offer ref).
Proof.
  intros Hc Hin.
  destruct (keeps_run h _ _ _ m s (grown_from_refl m) (Create_asks p m userdata c providerCfg Hc))
    as [_ Hcalls].
  unfold conduct.calls_in in Hcalls. rewrite Forall_forall in Hcalls.
  destruct (Hcalls _ Hin)
    as (-> & -> & machine & userdata' & key & iface & storageProfile & Hm & Hsp & ->).
  destruct Hm as (_ & Huid & _).
  split; [reflexivity|]. split; [reflexivity|].
  cbn [compute.Tags compute.VirtualMachineProperties_of compute.Plan_of Create_vmSpec].
  unfold vm_tags. rewrite Huid. split_and!.
  - intros uid. unfold tagged_with. rewrite lookup_insert_eq, String.eqb_eq.
    split; congruence.
  - eexists. split; [reflexivity|].
    intros name Hne. rewrite lookup_insert_ne by done. apply lookup_fmap.
  - eexists _, storageProfile. split_and!; [reflexivity | reflexivity | exact Hsp |].
    intros Hid Href Hplan. rewrite Hplan.
    unfold getStorageProfile, getOSImageReference in Hsp. rewrite Hid, Href in Hsp.
    simpl in Hsp.
    destruct (imageReferences !! providerconfigtypes.OperatingSystem_of providerCfg)
      as [ref|] eqn:Eos; [|discriminate].
    simpl in Hsp. injection Hsp as <-. cbn [compute.ImageReference_of].
    split_and!; [by exists ref | reflexivity |].
    intros plan Hp. apply osPlans_lookup in Hp as (ref' & Href' & Hn & Ho).
    rewrite Eos in Href'. injection Href' as <-. by exists ref.
Qed.

Lemma default_plan_matches_default_image_witness :
  getConfig simulation.example_provider (ProviderSpec_of (Spec examples.flatcar_machine))
  = Ok (simulation.example_config, examples.flatcar_pconfig)
  /\ Called (vmClient_CreateOrUpdate "rg" "worker-2" examples.flatcar_vmSpec) true
     ∈ trace examples.flatcar_Create
  /\ tagged_with (compute.Tags examples.flatcar_vmSpec) "uid-7" = true
  /\ exists plan,
       compute.Plan_of examples.flatcar_vmSpec = Some plan
       /\ compute.Plan_Name plan = Some "stable"
       /\ compute.Plan_Product plan = Some "flatcar-container-linux".
Proof.
  assert (Hc : getConfig simulation.example_provider
                 (ProviderSpec_of (Spec examples.flatcar_machine))
               = Ok (simulation.example_config, examples.flatcar_pconfig))
    by (vm_compute; reflexivity).
  assert (Hin : Called (vmClient_CreateOrUpdate "rg" "worker-2" examples.flatcar_vmSpec) true
                ∈ trace examples.flatcar_Create).
  { apply (list_elem_of_lookup_2 _ 7%nat). vm_compute. reflexivity. }
  split; [exact Hc|]. split; [exact Hin|].
  pose proof (default_plan_matches_default_image simulation.the_cloud
                simulation.example_provider examples.flatcar_machine "userdata"
                simulation.empty_cloud simulation.example_config examples.flatcar_pconfig
                "rg" "worker-2" examples.flatcar_vmSpec true Hc Hin)
    as (_ & _ & Htag & _ & properties & storageProfile & _ & _ & Hsp & Hdefault).
  split; [by apply Htag|].
  destruct (Hdefault eq_refl eq_refl eq_refl) as ((ref & Hprofile & Href) & Hplan & Hmatch).
  vm_compute in Href. injection Href as <-.
  destruct (compute.Plan_of examples.flatcar_vmSpec) as [plan|] eqn:Ep;
    [|vm_compute in Hplan; discriminate].
  exists plan. split; [reflexivity|].
  destruct (Hmatch plan eq_refl) as (ref & Hprofile' & -> & ->).
  rewrite Hprofile in Hprofile'. injection Hprofile' as <-. split; reflexivity.
Defined.

(** ** Validation *)

(** ** [supportsDiskSKU] *)

Lemma has_capability_set (name : string) (capabilities : list skus.ResourceSkuCapabilities) :
  validation.capabilities_set capabilities ->
  exists found,
    validation.has_capability name capabilities = Returned found
    /\ (found = true <-> Exists (validation.grants name) capabilities).
Proof.
  unfold validation.capabilities_set.
  induction 1 as [|capability capabilities [[n Hn] [v Hv]] _ (found & IH & Hfound)]; simpl.
  - exists false. split; [reflexivity|]. split; [discriminate|]. by intros H%Exists_nil.
  - rewrite Hn, Hv.
    destruct (String.eqb_spec n name) as [->|Hne].
    + destruct (String.eqb_spec v validation.CapabilityValueTrue) as [->|Hv'].
      * exists true. split; [reflexivity|]. split; [|reflexivity].
        intros _. left. by split.
      * exists found. split; [exact IH|]. rewrite Hfound, Exists_cons.
        split; [by right|]. intros [[_ H]|H]; [congruence | exact H].
    + exists found. split; [exact IH|]. rewrite Hfound, Exists_cons.
      split; [by right|]. intros [[H _]|H]; [congruence | exact H].
Qed.

Lemma capability_required_set (name : string)
    (capabilities : list skus.ResourceSkuCapabilities) :
  validation.capabilities_set capabilities ->
  (exists e, validation.capability_required name capabilities = Returned e)
  /\ (validation.capability_required name capabilities = Returned None
      <-> Exists (validation.grants name) capabilities).
Proof.
  intros Hset. unfold validation.capability_required.
  destruct (has_capability_set name capabilities Hset) as (found & -> & Hfound).
  destruct found.
  - split; [eauto|]. split; [intros _; by apply Hfound | reflexivity].
  - split; [eauto|]. split; [discriminate|]. intros H. apply Hfound in H. discriminate.
Qed.

Lemma existsb_eqb_elem_of (zone : string) (names : list string) :
  existsb (String.eqb zone) names = true <-> zone ∈ names.
Proof.
  rewrite existsb_exists. split.
  - intros (x & Hin & Heq). apply String.eqb_eq in Heq. subst x. by apply list_elem_of_In.
  - intros Hin. exists zone. split; [by apply list_elem_of_In | apply String.eqb_refl].
Qed.

Lemma zone_details_support_set (zone : string)
    (zoneDetails : list skus.ResourceSkuZoneDetails) (found : bool) :
  validation.zone_details_set zoneDetails ->
  exists found',
    validation.zone_details_support zone zoneDetails found = Returned found'
    /\ (found' = true <-> found = true \/ Exists (validation.zone_granted zone) zoneDetails).
Proof.
  unfold validation.zone_details_set. intros Hset. revert found.
  induction Hset as [|details zoneDetails [[names Hn] (capabilities & Hc & Hcs)] _ IH];
    intros found; simpl.
  - exists found. split; [reflexivity|]. split; [by left|].
    intros [H|H%Exists_nil]; done.
  - rewrite Hn, Hc.
    destruct (existsb (String.eqb zone) names) eqn:Hz.
    + apply existsb_eqb_elem_of in Hz.
      destruct (has_capability_set validation.CapabilityUltraSSD capabilities Hcs)
        as (here & -> & Hhere).
      destruct (IH (found || here)) as (found' & -> & Hfound').
      exists found'. split; [reflexivity|]. rewrite Hfound', Exists_cons, orb_true_iff, Hhere.
      split.
      * intros [[H|H]|H]; [by left | | by right; right].
        right. left. exists names, capabilities. done.
      * intros [H|[(names' & capabilities' & Hn' & _ & Hc' & Hg)|H]];
          [by left; left | | by right].
        left. right. congruence.
    + destruct (IH found) as (found' & -> & Hfound').
      exists found'. split; [reflexivity|]. rewrite Hfound', Exists_cons.
      split.
      * intros [H|H]; [by left | by right; right].
      * intros [H|[(names' & capabilities' & Hn' & Hin & _)|H]]; [by left | | by right].
        exfalso. rewrite Hn in Hn'. injection Hn' as <-.
        apply existsb_eqb_elem_of in Hin. congruence.
Qed.

Lemma zones_support_set (zones : list string)
    (zoneDetails : list skus.ResourceSkuZoneDetails) :
  validation.zone_details_set zoneDetails ->
  exists e,
    validation.zones_support zones zoneDetails = Returned e
    /\ (e = None
        <-> Forall (fun zone => Exists (validation.zone_granted zone) zoneDetails) zones).
Proof.
  intros Hset. induction zones as [|zone zones (e & IH & He)]; simpl.
  - exists None. split; [reflexivity|]. split; [constructor | reflexivity].
  - destruct (zone_details_support_set zone zoneDetails false Hset) as (found & -> & Hfound).
    destruct found.
    + exists e. split; [exact IH|]. rewrite He, Forall_cons.
      split; [|by intros [_ H]]. intros H. split; [|exact H].
      destruct Hfound as [Hfound _]. by destruct Hfound.
    + eexists. split; [reflexivity|]. split; [discriminate|].
      intros [H _]%Forall_cons. destruct Hfound as [_ Hfound].
      discriminate Hfound. by right.
Qed.

(** X19. [supportsDiskSKU] and the capabilities of the size.  A
    SKU object without a name or without capabilities is rejected
    whatever the disk.  For one that has both: every disk SKU other
    than Premium_LRS and UltraSSD_LRS is supported; and when all
    capabilities have their name and value, the test of Premium_LRS
    returns, and it accepts exactly when some capability is PremiumIO
    with the value True. *)
Theorem supportsDiskSKU_capabilities (vmSKU : skus.ResourceSku)
    (diskSKU : compute.StorageAccountTypes) (zones : list string) :
  ((skus.ResourceSku_Name vmSKU = None \/ skus.ResourceSku_Capabilities vmSKU = None) ->
   validation.supportsDiskSKU vmSKU diskSKU zones
   = Returned (Some (errors_New "invalid VM SKU object")))
  /\ (forall name capabilities,
        skus.ResourceSku_Name vmSKU = Some name ->
        skus.ResourceSku_Capabilities vmSKU = Some capabilities ->
        (diskSKU <> validation.StorageAccountTypesPremiumLRS ->
         diskSKU <> validation.StorageAccountTypesUltraSSDLRS ->
         validation.supportsDiskSKU vmSKU diskSKU zones = Returned None)
        /\ (validation.capabilities_set capabilities ->
            (exists e, validation.supportsDiskSKU vmSKU
                         validation.StorageAccountTypesPremiumLRS zones = Returned e)
            /\ (validation.supportsDiskSKU vmSKU
                  validation.StorageAccountTypesPremiumLRS zones = Returned None
                <-> Exists (validation.grants validation.CapabilityPremiumIO) capabilities))).
Proof.
  split.
  - intros [H|H]; unfold validation.supportsDiskSKU; rewrite H; [reflexivity|].
    by destruct (skus.ResourceSku_Name vmSKU).
  - intros name capabilities Hn Hc. unfold validation.supportsDiskSKU. rewrite Hn, Hc. split.
    + intros H1 H2.
      destruct (String.eqb_spec diskSKU validation.StorageAccountTypesPremiumLRS); [done|].
      destruct (String.eqb_spec diskSKU validation.StorageAccountTypesUltraSSDLRS); done.
    + intros Hset. cbn [String.eqb]. 
      change (validation.StorageAccountTypesPremiumLRS
              =? validation.StorageAccountTypesPremiumLRS)%string with true. cbv iota.
      apply capability_required_set, Hset.
Qed.

(** X20. [supportsDiskSKU] for UltraSSD_LRS.  When the first
    location of the SKU lists no zone, the disk is supported exactly
    when some capability of the SKU is UltraSSDAvailable with the value
    True.  When it lists zones: without zone details the disk is
    accepted unchecked; with zone details it is accepted exactly when
    every zone of the configuration is named by zone details that
    grant UltraSSDAvailable, so a configuration without zones is
    accepted. *)
Theorem supportsDiskSKU_ultra_disks (vmSKU : skus.ResourceSku) (zones : list string)
    (name : string) (capabilities : list skus.ResourceSkuCapabilities) :
  skus.ResourceSku_Name vmSKU = Some name ->
  skus.ResourceSku_Capabilities vmSKU = Some capabilities ->
  let supported :=
    validation.supportsDiskSKU vmSKU validation.StorageAccountTypesUltraSSDLRS zones in
  (validation.zonal vmSKU = None ->
   validation.capabilities_set capabilities ->
   (supported = Returned None
    <-> Exists (validation.grants validation.CapabilityUltraSSD) capabilities))
  /\ (forall locationInfo,
        validation.zonal vmSKU = Some locationInfo ->
        (skus.LocationInfo_ZoneDetails locationInfo = None -> supported = Returned None)
        /\ (forall zoneDetails,
              skus.LocationInfo_ZoneDetails locationInfo = Some zoneDetails ->
              validation.zone_details_set zoneDetails ->
              (supported = Returned None
               <-> Forall (fun zone => Exists (validation.zone_granted zone) zoneDetails)
                     zones))).
Proof.
  intros Hn Hc supported. subst supported.
  unfold validation.supportsDiskSKU, validation.zonal. rewrite Hn, Hc.
  change (validation.StorageAccountTypesUltraSSDLRS
          =? validation.StorageAccountTypesPremiumLRS)%string with false.
  change (validation.StorageAccountTypesUltraSSDLRS
          =? validation.StorageAccountTypesUltraSSDLRS)%string with true.
  cbv iota. split.
  - intros Hz Hset.
    destruct (skus.ResourceSku_LocationInfo vmSKU) as [[|locationInfo rest]|];
      try (apply capability_required_set, Hset).
    destruct (skus.LocationInfo_Zones locationInfo) as [[|z zs]|];
      try (apply capability_required_set, Hset).
    discriminate.
  - intros locationInfo Hz.
    destruct (skus.ResourceSku_LocationInfo vmSKU) as [[|locationInfo' rest]|];
      try discriminate.
    destruct (skus.LocationInfo_Zones locationInfo') as [[|z zs]|] eqn:Ez; try discriminate.
    injection Hz as ->. split.
    + intros ->. reflexivity.
    + intros zoneDetails -> Hset.
      destruct (zones_support_set zones zoneDetails Hset) as (e & -> & He).
      rewrite <- He. split; [by intros [= ->] | by intros ->].
Qed.

Lemma supportsDiskSKU_ultra_disks_witness :
  skus.ResourceSku_Name examples.zonal_sku = Some "Standard_D2s_v3"
  /\ skus.ResourceSku_Capabilities examples.zonal_sku
     = Some [ {| skus.Capability_Name := Some "PremiumIO";
                 skus.Capability_Value := Some "True" |} ]
  /\ validation.supportsDiskSKU examples.zonal_sku
       validation.StorageAccountTypesUltraSSDLRS ["1"] = Returned None.
Proof.
  split; [reflexivity|]. split; [reflexivity|].
  destruct (supportsDiskSKU_ultra_disks examples.zonal_sku ["1"] "Standard_D2s_v3"
              [ {| skus.Capability_Name := Some "PremiumIO";
                   skus.Capability_Value := Some "True" |} ] eq_refl eq_refl)
    as [_ Hzonal].
  destruct (Hzonal _ eq_refl) as [_ Hdetails].
  apply (Hdetails _ eq_refl).
  - apply Forall_cons. split; [|by apply Forall_nil].
    split; [by eexists|]. eexists. split; [reflexivity|].
    apply Forall_cons. split; [|by apply Forall_nil]. split; by eexists.
  - apply Forall_cons. split; [|by apply Forall_nil].
    apply Exists_cons. left. exists ["1"], [ {| skus.Capability_Name := Some "UltraSSDAvailable";
                                                skus.Capability_Value := Some "True" |} ].
    split_and!; try reflexivity.
    + apply list_elem_of_here.
    + apply Exists_cons. left. split; reflexivity.
Defined.

(** ** [Validate] *)

Lemma interrogate_asking {A} (answers : validation.Oracle) (q : validation.Lookup)
    (onerr : error -> A) (k : validation.LookupVal q -> validation.Check A) :
  validation.interrogate answers (validation.asking q onerr k)
  = match answers q with
    | Ok v => (q :: (validation.interrogate answers (k v)).1,
               (validation.interrogate answers (k v)).2)
    | Error err => ([q], Returned (onerr err))
    end.
Proof. unfold validation.asking. simpl. destruct (answers q); reflexivity. Qed.

Lemma interrogate_bind {A B} (answers : validation.Oracle) (p : validation.Check A)
    (f : A -> validation.Check B) :
  validation.interrogate answers (validation.check_bind p f)
  = match (validation.interrogate answers p).2 with
    | Returned a =>
        ((validation.interrogate answers p).1 ++ (validation.interrogate answers (f a)).1,
         (validation.interrogate answers (f a)).2)
    | Panicked msg => ((validation.interrogate answers p).1, Panicked msg)
    end.
Proof.
  induction p as [a|msg|q k IH]; simpl.
  - by destruct (validation.interrogate answers (f a)).
  - reflexivity.
  - rewrite IH. by destruct ((validation.interrogate answers (k (answers q))).2).
Qed.

Lemma interrogate_check_outcome {A} (answers : validation.Oracle) (o : Outcome A) :
  validation.interrogate answers (validation.check_outcome o) = ([], o).
Proof. by destruct o. Qed.

Lemma osDiskSKUs_lookup (sku : string) :
  is_Some (validation.osDiskSKUs !! sku)
  <-> sku ∈ [validation.StorageAccountTypesStandardLRS;
             validation.StorageAccountTypesStandardSSDLRS;
             validation.StorageAccountTypesPremiumLRS].
Proof.
  unfold validation.osDiskSKUs. rewrite <- elem_of_dom, dom_list_to_map_L. simpl.
  set_solver.
Qed.

Lemma dataDiskSKUs_lookup (sku : string) :
  is_Some (validation.dataDiskSKUs !! sku)
  <-> sku ∈ [validation.StorageAccountTypesStandardLRS;
             validation.StorageAccountTypesStandardSSDLRS;
             validation.StorageAccountTypesPremiumLRS;
             validation.StorageAccountTypesUltraSSDLRS].
Proof.
  unfold validation.dataDiskSKUs. rewrite <- elem_of_dom, dom_list_to_map_L. simpl.
  set_solver.
Qed.

Lemma validateDiskSKUs_data_ok (answers : validation.Oracle) (c : config)
    (sku : skus.ResourceSku) :
  (validation.interrogate answers (validation.validateDiskSKUs_data c sku)).1 = []
  /\ ((validation.interrogate answers (validation.validateDiskSKUs_data c sku)).2
      = Returned None ->
      forall dataDiskSKU, DataDiskSKU c = Some dataDiskSKU ->
        is_Some (validation.dataDiskSKUs !! dataDiskSKU)
        /\ (dataDiskSKU = validation.StorageAccountTypesUltraSSDLRS ->
            AvailabilitySet c = "" /\ AssignAvailabilitySet c <> Some true)
        /\ validation.supportsDiskSKU sku dataDiskSKU (Zones c) = Returned None).
Proof.
  unfold validation.validateDiskSKUs_data.
  destruct (DataDiskSKU c) as [d|]; [|split; [reflexivity | intros _ ? [=]]].
  destruct (validation.dataDiskSKUs !! d) as [x|] eqn:Ed;
    [|split; [reflexivity | intros [=]]].
  destruct (String.eqb_spec d validation.StorageAccountTypesUltraSSDLRS) as [->|Hne];
    cbn [andb].
  - destruct (AssignAvailabilitySet c) as [[|]|] eqn:Ea; cbn [orb];
      try (split; [reflexivity | intros [=]]);
      (destruct (String.eqb_spec (AvailabilitySet c) "") as [Hav|Hav]; cbn [negb];
       [|split; [reflexivity | intros [=]]]);
      rewrite interrogate_check_outcome; (split; [reflexivity|]);
      cbn [snd]; intros Hs d' [= <-]; split_and!; eauto; done.
  - rewrite interrogate_check_outcome. split; [reflexivity|].
    cbn [snd]. intros Hs d' [= <-]. split_and!; eauto; done.
Qed.

Lemma validateDiskSKUs_interrogated (answers : validation.Oracle) (c : config) :
  let r := validation.interrogate answers (validation.validateDiskSKUs c) in
  (OSDiskSKU c = None -> DataDiskSKU c = None -> r = ([], Returned None))
  /\ (is_Some (OSDiskSKU c) \/ is_Some (DataDiskSKU c) -> r.1 = [validation.getSKU c])
  /\ (r.2 = Returned None ->
      (forall osDiskSKU, OSDiskSKU c = Some osDiskSKU ->
         osDiskSKU ∈ [validation.StorageAccountTypesStandardLRS;
                      validation.StorageAccountTypesStandardSSDLRS;
                      validation.StorageAccountTypesPremiumLRS])
      /\ (forall dataDiskSKU, DataDiskSKU c = Some dataDiskSKU ->
            dataDiskSKU ∈ [validation.StorageAccountTypesStandardLRS;
                           validation.StorageAccountTypesStandardSSDLRS;
                           validation.StorageAccountTypesPremiumLRS;
                           validation.StorageAccountTypesUltraSSDLRS])
      /\ (DataDiskSKU c = Some validation.StorageAccountTypesUltraSSDLRS ->
          AvailabilitySet c = "" /\ AssignAvailabilitySet c <> Some true)
      /\ (is_Some (OSDiskSKU c) \/ is_Some (DataDiskSKU c) ->
          exists sku,
            answers (validation.getSKU c) = Ok sku
            /\ forall diskSKU,
                 OSDiskSKU c = Some diskSKU \/ DataDiskSKU c = Some diskSKU ->
                 validation.supportsDiskSKU sku diskSKU (Zones c) = Returned None)).
Proof.
  intros r. subst r. unfold validation.validateDiskSKUs.
  destruct (OSDiskSKU c) as [o|] eqn:Eo.
  - rewrite bool_decide_eq_true_2 by eauto. cbn [orb].
    rewrite interrogate_asking.
    destruct (answers (validation.getSKU c)) as [sku|err] eqn:Ea.
    + destruct (validation.osDiskSKUs !! o) as [x|] eqn:Eos.
      2:{ simpl. split_and!; [done | done | intros [=]]. }
      rewrite interrogate_bind, interrogate_check_outcome. cbn [fst snd].
      destruct (validation.supportsDiskSKU sku o (Zones c)) as [[e|]|msg] eqn:Es.
      1,3: simpl; split_and!; [done | done | intros [=]].
      destruct (validateDiskSKUs_data_ok answers c sku) as [Hasked Hok].
      cbn [fst snd app]. rewrite Hasked. split_and!; [done | done |].
      intros Hnone. specialize (Hok Hnone). split_and!.
      * intros o' [= <-]. apply osDiskSKUs_lookup. eauto.
      * intros d Hd. apply dataDiskSKUs_lookup. by apply Hok.
      * intros Hd. by apply (Hok _ Hd).
      * intros _. exists sku. split; [reflexivity|].
        intros diskSKU [[= <-]|Hd]; [exact Es | by apply Hok].
    + simpl. split_and!; [done | done | intros [=]].
  - destruct (DataDiskSKU c) as [d|] eqn:Ed.
    + rewrite bool_decide_eq_false_2 by (intros [? [=]]).
      rewrite bool_decide_eq_true_2 by eauto. cbn [orb].
      rewrite interrogate_asking.
      destruct (answers (validation.getSKU c)) as [sku|err] eqn:Ea.
      * destruct (validateDiskSKUs_data_ok answers c sku) as [Hasked Hok].
        cbn [fst snd]. rewrite Hasked. split_and!; [done | done |].
        intros Hnone. specialize (Hok Hnone). split_and!.
        -- intros o' [=].
        -- intros d' [= <-]. apply dataDiskSKUs_lookup. by apply Hok.
        -- intros [= ->]. by apply (Hok _ Ed).
        -- intros _. exists sku. split; [reflexivity|].
           intros diskSKU [[=]|[= <-]]. by apply Hok.
      * simpl. split_and!; [done | done | intros [=]].
    + rewrite !bool_decide_eq_false_2 by (intros [? [=]]). simpl.
      split_and!; [done | by intros [[? [=]]|[? [=]]] |].
      intros _. split_and!; try done. by intros [[? [=]]|[? [=]]].
Qed.

Lemma first_missing_None (c : config) :
  validation.first_missing c = None <->
  Forall (fun field => field.1 <> "") (validation.required_fields c).
Proof.
  unfold validation.first_missing, validation.required_fields. simpl.
  repeat match goal with
         | |- context [String.eqb ?x ""] => destruct (String.eqb_spec x "")
         end; simpl;
    (split; [intros H; try discriminate H; repeat constructor; done
            | intros H; try reflexivity; exfalso;
              repeat (apply Forall_cons in H as [? H]); done]).
Qed.

Lemma Validate_interrogated (answers : validation.Oracle) (p : provider)
    (spec : MachineSpec) :
  let r := validation.interrogate answers (validation.Validate p spec) in
  match getConfig p (ProviderSpec_of spec) with
  | Error err => r = ([], Returned (Some (Errorf "failed to parse config: %v" err)))
  | Ok (c, providerConfig) =>
      match validation.first_missing c with
      | Some missing => r = ([], Returned (Some (errors_New missing)))
      | None =>
          if validation.supported_family
               (providerconfigtypes.GetIPFamily (providerconfigtypes.Network providerConfig))
          then r = validation.interrogate answers (validation.Validate_remote c providerConfig)
               /\ exists asked, r.1 = validation.provider_call (getVMClient c) :: asked
          else r.1 = [] /\ exists text, r.2 = Returned (Some (errors_New text))
      end
  end.
Proof.
  intros r. subst r. unfold validation.Validate.
  destruct (getConfig p (ProviderSpec_of spec)) as [[c providerConfig]|err]; [|reflexivity].
  unfold validation.first_missing, validation.required_fields. simpl.
  repeat match goal with
         | |- context [String.eqb ?x ""] => destruct (String.eqb x ""); simpl; [reflexivity|]
         end.
  destruct (providerconfigtypes.GetIPFamily (providerconfigtypes.Network providerConfig));
    simpl; try (split; [reflexivity|]); eauto;
    unfold validation.Validate_remote; rewrite interrogate_asking;
    destruct (answers (validation.provider_call (getVMClient c))); simpl; eauto.
Qed.

Lemma Validate_remote_accepts (answers : validation.Oracle) (c : config)
    (providerConfig : providerconfigtypes.Config azuretypes.RawConfig)
    (asked : list validation.Lookup) :
  validation.interrogate answers (validation.Validate_remote c providerConfig)
  = (asked, Returned None) ->
  asked = [validation.provider_call (getVMClient c);
           validation.provider_call vmClient_ListAll;
           validation.getVirtualNetwork c;
           validation.getSubnet c]
          ++ (if bool_decide (is_Some (OSDiskSKU c) \/ is_Some (DataDiskSKU c))
              then [validation.getSKU c] else [])
  /\ Forall (fun q => is_Ok (answers q) = true) asked
  /\ (validation.interrogate answers (validation.validateDiskSKUs c)).2 = Returned None
  /\ is_Ok (getOSImageReference c (providerconfigtypes.OperatingSystem_of providerConfig))
     = true.
Proof.
  unfold validation.Validate_remote.
  rewrite interrogate_asking.
  destruct (answers (validation.provider_call (getVMClient c))) as [v1|] eqn:E1; [|intros [=]].
  rewrite interrogate_asking.
  destruct (answers (validation.provider_call vmClient_ListAll)) as [v2|] eqn:E2;
    [|intros [=]].
  rewrite interrogate_asking.
  destruct (answers (validation.getVirtualNetwork c)) as [v3|] eqn:E3; [|intros [=]].
  rewrite interrogate_asking.
  destruct (answers (validation.getSubnet c)) as [v4|] eqn:E4; [|intros [=]].
  rewrite interrogate_bind.
  pose proof (validateDiskSKUs_interrogated answers c) as (Hnone & Hsome & Hok).
  destruct ((validation.interrogate answers (validation.validateDiskSKUs c)).2)
    as [[e|]|msg] eqn:Ev; cbn [fst snd]; [intros [=] | | intros [=]].
  destruct (getOSImageReference c (providerconfigtypes.OperatingSystem_of providerConfig))
    as [ref|err] eqn:Eref; cbn [validation.interrogate fst snd]; [|intros [=]].
  rewrite app_nil_r. intros [= <-].
  destruct (Hok eq_refl) as (_ & _ & _ & Hsku).
  case_bool_decide as Hd.
  - rewrite (Hsome Hd). destruct (Hsku Hd) as (sku & Esku & _).
    split_and!; try done.
    repeat constructor; by rewrite ?E1, ?E2, ?E3, ?E4, ?Esku.
  - assert (OSDiskSKU c = None /\ DataDiskSKU c = None) as [Ho Hdd].
    { destruct (OSDiskSKU c), (DataDiskSKU c); try done; exfalso; apply Hd; eauto. }
    rewrite (Hnone Ho Hdd). split_and!; try done.
    repeat constructor; by rewrite ?E1, ?E2, ?E3, ?E4.
Qed.

(** X21. What [Validate] has checked when it accepts.  If
    [Validate] returns no error, then the configuration resolved, the
    eight required fields are not empty, the IP family is unspecified,
    IPv4 or dual-stack, the service was asked, in this order, for the
    client, the listing, the virtual network and the subnet, and for
    the SKU of the size exactly when a disk SKU is configured, every
    answer was a success, the disk SKUs passed [validateDiskSKUs], and
    the image of the operating system resolves. *)
Theorem Validate_accepts (answers : validation.Oracle) (p : provider) (spec : MachineSpec)
    (asked : list validation.Lookup) :
  validation.interrogate answers (validation.Validate p spec) = (asked, Returned None) ->
  exists c providerConfig,
    getConfig p (ProviderSpec_of spec) = Ok (c, providerConfig)
    /\ Forall (fun field => field.1 <> "") (validation.required_fields c)
    /\ validation.supported_family
         (providerconfigtypes.GetIPFamily (providerconfigtypes.Network providerConfig)) = true
    /\ asked = [validation.provider_call (getVMClient c);
                validation.provider_call vmClient_ListAll;
                validation.getVirtualNetwork c;
                validation.getSubnet c]
               ++ (if bool_decide (is_Some (OSDiskSKU c) \/ is_Some (DataDiskSKU c))
                   then [validation.getSKU c] else [])
    /\ Forall (fun q => is_Ok (answers q) = true) asked
    /\ (validation.interrogate answers (validation.validateDiskSKUs c)).2 = Returned None
    /\ is_Ok (getOSImageReference c (providerconfigtypes.OperatingSystem_of providerConfig))
       = true.
Proof.
  intros H.
  pose proof (Validate_interrogated answers p spec) as Ht. cbv zeta in Ht.
  rewrite H in Ht.
  destruct (getConfig p (ProviderSpec_of spec)) as [[c providerConfig]|err]; [|discriminate].
  exists c, providerConfig.
  destruct (validation.first_missing c) as [missing|] eqn:Em; [discriminate|].
  apply first_missing_None in Em.
  destruct (validation.supported_family _) eqn:Ef.
  - destruct Ht as [Ht _]. symmetry in Ht.
    apply Validate_remote_accepts in Ht as (? & ? & ? & ?). done.
  - destruct Ht as [_ (text & [=])].
Qed.

Lemma Validate_accepts_witness :
  validation.interrogate examples.agreeable
    (validation.Validate simulation.example_provider simulation.example_spec)
  = ([validation.provider_call (getVMClient simulation.example_config);
      validation.provider_call vmClient_ListAll;
      validation.getVirtualNetwork simulation.example_config;
      validation.getSubnet simulation.example_config], Returned None)
  /\ exists c providerConfig,
       getConfig simulation.example_provider (ProviderSpec_of simulation.example_spec)
       = Ok (c, providerConfig)
       /\ Forall (fun field => field.1 <> "") (validation.required_fields c).
Proof.
  assert (H : validation.interrogate examples.agreeable
                (validation.Validate simulation.example_provider simulation.example_spec)
              = ([validation.provider_call (getVMClient simulation.example_config);
                  validation.provider_call vmClient_ListAll;
                  validation.getVirtualNetwork simulation.example_config;
                  validation.getSubnet simulation.example_config], Returned None))
    by (vm_compute; reflexivity).
  split; [exact H|].
  destruct (Validate_accepts _ _ _ _ H) as (c & providerConfig & Hc & Hfields & _).
  exists c, providerConfig. split; [exact Hc | exact Hfields].
Defined.

(** X22. The rules of [validateDiskSKUs].  Without a disk SKU in
    the configuration it accepts and asks the service nothing; with
    one it asks once, for the SKU of the size.  When it accepts, the
    SKU of the OS disk is one of Standard_LRS, StandardSSD_LRS and
    Premium_LRS, the SKU of the data disk one of these or UltraSSD_LRS,
    an ultra data disk comes without an availability set (none named
    and none to be assigned), and the size supports, by
    [supportsDiskSKU], every disk SKU that is configured. *)
Theorem validateDiskSKUs_rules (answers : validation.Oracle) (c : config) :
  let r := validation.interrogate answers (validation.validateDiskSKUs c) in
  (OSDiskSKU c = None -> DataDiskSKU c = None -> r = ([], Returned None))
  /\ (is_Some (OSDiskSKU c) \/ is_Some (DataDiskSKU c) -> r.1 = [validation.getSKU c])
  /\ (r.2 = Returned None ->
      (forall osDiskSKU, OSDiskSKU c = Some osDiskSKU ->
         osDiskSKU ∈ [validation.StorageAccountTypesStandardLRS;
                      validation.StorageAccountTypesStandardSSDLRS;
                      validation.StorageAccountTypesPremiumLRS])
      /\ (forall dataDiskSKU, DataDiskSKU c = Some dataDiskSKU ->
            dataDiskSKU ∈ [validation.StorageAccountTypesStandardLRS;
                           validation.StorageAccountTypesStandardSSDLRS;
                           validation.StorageAccountTypesPremiumLRS;
                           validation.StorageAccountTypesUltraSSDLRS])
      /\ (DataDiskSKU c = Some validation.StorageAccountTypesUltraSSDLRS ->
          AvailabilitySet c = "" /\ AssignAvailabilitySet c <> Some true)
      /\ (is_Some (OSDiskSKU c) \/ is_Some (DataDiskSKU c) ->
          exists sku,
            answers (validation.getSKU c) = Ok sku
            /\ forall diskSKU,
                 OSDiskSKU c = Some diskSKU \/ DataDiskSKU c = Some diskSKU ->
                 validation.supportsDiskSKU sku diskSKU (Zones c) = Returned None)).
Proof. exact (validateDiskSKUs_interrogated answers c). Qed.

(** X23. [Validate] tests the configuration before it asks the
    service.  A provider specification that does not resolve, a
    required field that is empty (the first one, in the order
    subscription, tenant, client, secret, resource group, VM size,
    network, subnet, is named in the error) and an IP family other
    than unspecified, IPv4 and dual-stack are rejected without a
    single call; otherwise the first thing asked for is the client of
    the virtual machines. *)
Theorem Validate_tests_before_asking (answers : validation.Oracle) (p : provider)
    (spec : MachineSpec) :
  let r := validation.interrogate answers (validation.Validate p spec) in
  match getConfig p (ProviderSpec_of spec) with
  | Error err => r = ([], Returned (Some (Errorf "failed to parse config: %v" err)))
  | Ok (c, providerConfig) =>
      match validation.first_missing c with
      | Some missing => r = ([], Returned (Some (errors_New missing)))
      | None =>
          if validation.supported_family
               (providerconfigtypes.GetIPFamily (providerconfigtypes.Network providerConfig))
          then r = validation.interrogate answers (validation.Validate_remote c providerConfig)
               /\ exists asked, r.1 = validation.provider_call (getVMClient c) :: asked
          else r.1 = [] /\ exists text, r.2 = Returned (Some (errors_New text))
      end
  end.
Proof. exact (Validate_interrogated answers p spec). Qed.
